(** * GOAD threaded deployment: the scheduler of [deploy-goad-threaded.py]

    A shallow embedding of [ansible/scripts/deploy-goad-threaded.py]:
    the per-box retry loop [GOADDeployer.deploy_goad_on_box], the
    sequential prelude and fan-out of [GOADDeployer.deploy_all], the
    report of [GOADDeployer.print_summary], the counting semaphore
    that bounds the worker threads, and [main] with the constructor of
    [GOADDeployer].

    What the script obtains from outside (the result of every
    [subprocess.run], of every append to the log of a box, every
    [datetime.now()], the parsed inventory, the command line, the
    creation of the log directory) is taken from an explicit
    environment, so each function below is a total function of the
    configuration and of that environment.  [print] and the logger are
    taken to succeed, and the process is not interrupted from outside.

    The inventory itself is covered too: [GOADDeployer.parse_inventory]
    on the text of the file, with the one regular expression it uses,
    and [generate_inventory] of [ansible/scripts/generate-inventory.py],
    which writes that text.  Last comes [consolidate_credentials] of
    [ansible/scripts/consolidate-kali-credentials.py]. *)

From Stdlib Require Import ZArith List String Ascii Bool Lia PeanoNat.
From Stdlib Require Import DecimalString DecimalNat Sorted Permutation.
From Equations Require Import Equations.
From Equations.Prop Require Import Logic.
Import ListNotations.

Local Open Scope string_scope.
Local Open Scope Z_scope.

(** ** Data model *)

(** [datetime] values; only their differences are ever used. *)
Definition Time := Z.

(** [self.log_dir / f"deploy_{box.name}_{timestamp}.log"] *)
Record LogPath := DeployLog {
  path_dir : string;
  path_box : string;
  path_stamp : Time
}.

(** [class DeploymentBox].  [status] is a Python string, as in the
    source; the constructor sets it to ["pending"]. *)
Record DeploymentBox := mkBox {
  name : string;
  host : string;
  network_id : Z;
  status : string;
  start_time : option Time;
  end_time : option Time;
  output : list string;
  error_output : list string;
  attempts : Z;
  log_file : option LogPath
}.

Definition DeploymentBox_init (n h : string) (nid : Z) : DeploymentBox :=
  {| name := n; host := h; network_id := nid;
     status := "pending";
     start_time := None; end_time := None;
     output := []; error_output := [];
     attempts := 0; log_file := None |}.

Definition set_status (s : string) (b : DeploymentBox) : DeploymentBox :=
  mkBox (name b) (host b) (network_id b) s (start_time b) (end_time b)
        (output b) (error_output b) (attempts b) (log_file b).

Definition set_start_time (t : option Time) (b : DeploymentBox) : DeploymentBox :=
  mkBox (name b) (host b) (network_id b) (status b) t (end_time b)
        (output b) (error_output b) (attempts b) (log_file b).

Definition set_end_time (t : option Time) (b : DeploymentBox) : DeploymentBox :=
  mkBox (name b) (host b) (network_id b) (status b) (start_time b) t
        (output b) (error_output b) (attempts b) (log_file b).

Definition set_output (o : list string) (b : DeploymentBox) : DeploymentBox :=
  mkBox (name b) (host b) (network_id b) (status b) (start_time b) (end_time b)
        o (error_output b) (attempts b) (log_file b).

Definition set_error_output (o : list string) (b : DeploymentBox) : DeploymentBox :=
  mkBox (name b) (host b) (network_id b) (status b) (start_time b) (end_time b)
        (output b) o (attempts b) (log_file b).

Definition set_attempts (n : Z) (b : DeploymentBox) : DeploymentBox :=
  mkBox (name b) (host b) (network_id b) (status b) (start_time b) (end_time b)
        (output b) (error_output b) n (log_file b).

Definition set_log_file (p : option LogPath) (b : DeploymentBox) : DeploymentBox :=
  mkBox (name b) (host b) (network_id b) (status b) (start_time b) (end_time b)
        (output b) (error_output b) (attempts b) p.

(** The fields of [GOADDeployer.__init__] that the scheduler reads.
    [max_threads] initialises [threading.Semaphore], which accepts no
    negative value; [max_retries] is whatever integer [--retries] gave. *)
Record GOADDeployer := mkDeployer {
  max_threads : nat;
  max_retries : Z;
  log_dir : string
}.

(** ** Python string helpers *)

(** [s.split('\n')]: never empty, [""] splits to [[""]]. *)
Fixpoint split_on (sep : ascii) (s : string) : list string :=
  match s with
  | EmptyString => [EmptyString]
  | String c rest =>
      if Ascii.eqb c sep then EmptyString :: split_on sep rest
      else match split_on sep rest with
           | [] => [String c EmptyString]
           | h :: t => String c h :: t
           end
  end.

Definition newline : ascii := Ascii.ascii_of_nat 10.

Definition split_lines (s : string) : list string := split_on newline s.

(** [s[:n]] *)
Definition prefix_chars (n : nat) (s : string) : string := substring 0 n s.

(** ** The environment of one worker thread *)

(** What one [subprocess.run(ssh_cmd, capture_output=True, timeout=7200)]
    can do: return a [CompletedProcess], raise [TimeoutExpired], or raise
    any other [Exception] (for instance [FileNotFoundError] when
    [sshpass] is not installed). *)
Inductive Outcome :=
| Completed (returncode : Z) (stdout stderr : string)
| TimeoutExpired
| OtherException (msg : string).

(** [run_ssh w n] is the outcome of the [n]-th attempt on this box;
    [log_append w n] is what becomes of the record of that attempt,
    [with open(box.log_file, 'a') as f: ...] of lines 435 and 479:
    [None] when it is written, and the message of the exception when
    [open] or a [write] raises (the directory of the path is missing,
    as it is for a box whose name contains a slash, or the disk is
    full); [clock w k] is what the thread's [k]-th stored
    [datetime.now()] returns.  [print] and the logger are taken to
    succeed. *)
Record World := mkWorld {
  run_ssh : Z -> Outcome;
  log_append : Z -> option string;
  clock : nat -> Time
}.

(** What a worker thread does, in program order. *)
Inductive Event :=
| EvAcquire                      (* self.semaphore.acquire() *)
| EvRelease                      (* self.semaphore.release() *)
| EvStatus (s : string)          (* box.status = s *)
| EvVisible (b : DeploymentBox)  (* the box as another thread may read it:
                                    after an assignment made without the
                                    lock, or when [self.lock] is released *)
| EvRun (attempt : Z)            (* subprocess.run(ssh_cmd, ...) *)
| EvSleep.                       (* time.sleep(10) *)

(** The thread's view while it runs [deploy_goad_on_box]. *)
Record Th := mkTh {
  box : DeploymentBox;
  ticks : nat;
  trace : list Event
}.

Definition emit (e : Event) (th : Th) : Th :=
  mkTh (box th) (ticks th) (trace th ++ [e]).

Definition update (f : DeploymentBox -> DeploymentBox) (th : Th) : Th :=
  mkTh (f (box th)) (ticks th) (trace th).

Definition datetime_now (w : World) (th : Th) : Time * Th :=
  (clock w (ticks th), mkTh (box th) (S (ticks th)) (trace th)).

Definition assign_status (s : string) (th : Th) : Th :=
  emit (EvStatus s) (update (set_status s) th).

Definition publish (th : Th) : Th := emit (EvVisible (box th)) th.

(** [with self.lock: body] *)
Definition with_lock (body : Th -> Th) (th : Th) : Th := publish (body th).

(** How one pass through the loop body leaves: normally, with the value
    of the local [success], or by an exception that reaches the outer
    [except Exception]. *)
Inductive Res :=
| Normal (success : bool)
| Raised (msg : string).

(** ** [GOADDeployer.deploy_goad_on_box] *)

Section Worker.

Variable self : GOADDeployer.
Variable w : World.

(** Lines 400-407: the first lock-protected block of an attempt. *)
Definition mark_running (th : Th) : Th :=
  with_lock (fun th =>
    let th := assign_status "running" th in
    match start_time (box th) with
    | None => let (t, th) := datetime_now w th in
              update (set_start_time (Some t)) th
    | Some _ => th
    end) th.

(** Lines 447-474: the block entered when [subprocess.run] returned.
    [box.end_time] is assigned first, whatever the return code; the
    backoff [time.sleep(10)] runs inside the block. *)
Definition on_completed (attempt rc : Z) (out err : string)
                        (success : bool) (th : Th) : bool * Th :=
  let (t, th) := datetime_now w th in
  let th := update (set_end_time (Some t)) th in
  let (success, th) :=
    if rc =? 0 then
      (true, assign_status "success" th)
    else
      let th := update (set_error_output (split_lines err)) th in
      if attempt <? max_retries self then (success, emit EvSleep th)
      else (success, assign_status "failed" th) in
  (success, publish (update (set_output (split_lines out)) th)).

(** Lines 476-494: the handler of [subprocess.TimeoutExpired].  The
    record of the timeout is appended to the log first, under the lock;
    an exception there leaves the handler, and the lock, for the outer
    [except Exception]. *)
Definition on_timeout (attempt : Z) (success : bool) (th : Th) : Res * Th :=
  match log_append w attempt with
  | Some msg => (Raised msg, publish th)
  | None =>
      (Normal success,
       with_lock (fun th =>
         if attempt <? max_retries self then emit EvSleep th
         else
           let th := assign_status "timeout" th in
           let (t, th) := datetime_now w th in
           update (set_end_time (Some t)) th) th)
  end.

(** Lines 397-494: one pass through the body of the [while]; [attempt]
    is the value after [attempt += 1].  When [subprocess.run] returns,
    its output is appended to the log (lines 434-444) before anything
    else; an exception there is not a [TimeoutExpired] and goes to the
    outer [except Exception], like one of [subprocess.run] itself. *)
Definition attempt_body (attempt : Z) (success : bool) (th : Th) : Res * Th :=
  let th := publish (update (set_attempts attempt) th) in
  let th := mark_running th in
  let th := emit (EvRun attempt) th in
  match run_ssh w attempt with
  | Completed rc out err =>
      match log_append w attempt with
      | Some msg => (Raised msg, th)
      | None =>
          let (success, th) := on_completed attempt rc out err success th in
          (Normal success, th)
      end
  | TimeoutExpired => on_timeout attempt success th
  | OtherException msg => (Raised msg, th)
  end.

(** Line 396: [while attempt < self.max_retries and not success].
    Every pass adds one to [attempt], so [max_retries - attempt]
    decreases. *)
Equations? while_loop (attempt : Z) (success : bool) (th : Th) : Res * Th
  by wf (Z.to_nat (max_retries self - attempt)) lt :=
while_loop attempt success th with inspect ((attempt <? max_retries self) && negb success) := {
  | exist _ true Hc with attempt_body (attempt + 1) success th := {
      | (Normal success', th') => while_loop (attempt + 1) success' th'
      | (Raised msg, th') => (Raised msg, th') }
  | exist _ false _ => (Normal success, th) }.
Proof.
  apply andb_prop in Hc. destruct Hc as [Hlt _].
  apply Z.ltb_lt in Hlt. lia.
Qed.

(** Lines 496-511: the outer [except Exception].  Its last statement
    appends the exception to the log; if that raises in turn, the
    assignments above it are made all the same, the lock is released,
    and the thread ends with that exception after its [finally]. *)
Definition on_exception (th : Th) : Th :=
  with_lock (fun th =>
    let th := assign_status "error" th in
    let (t, th) := datetime_now w th in
    update (set_end_time (Some t)) th) th.

(** Lines 384-514.  The semaphore is acquired before the [try] and
    released in its [finally]. *)
Definition deploy_goad_on_box (b : DeploymentBox) : Th :=
  let th := emit EvAcquire (mkTh b 0 []) in
  let (t, th) := datetime_now w th in
  let th := publish (update (set_log_file
                       (Some (DeployLog (log_dir self) (name b) t))) th) in
  let (r, th) := while_loop 0 false th in
  let th := match r with
            | Normal _ => th
            | Raised _ => on_exception th
            end in
  emit EvRelease th.

End Worker.

(** ** [GOADDeployer.print_summary] *)

(** [sum(...)] over a generator: a left fold from [0]. *)
Definition py_sum (xs : list Z) : Z := fold_left Z.add xs 0.

(** [sum(1 for box in boxes if box.status == s)] *)
Definition count_status (s : string) (boxes : list DeploymentBox) : Z :=
  py_sum (map (fun _ => 1) (filter (fun b => String.eqb (status b) s) boxes)).

Definition success_count := count_status "success".
Definition failed_count := count_status "failed".
Definition timeout_count := count_status "timeout".
Definition error_count := count_status "error".

Definition total_attempts (boxes : list DeploymentBox) : Z :=
  py_sum (map attempts boxes).

Definition retried_count (boxes : list DeploymentBox) : Z :=
  py_sum (map (fun _ => 1) (filter (fun b => 1 <? attempts b) boxes)).

(** One constructor per informative [print] of [print_summary]; rules
    and blank lines are left out, numbers are kept unformatted. *)
Inductive Line :=
| LTotal (n : Z)
| LSuccessful (n : Z)
| LFailed (n : Z)
| LTimeout (n : Z)
| LError (n : Z)
| LTotalAttempts (n : Z)
| LRetried (n : Z)
| LDuration (seconds : Z)
| LLogsDir (dir : string)
| LFailuresHeader
| LBox (nid : Z) (nm hst st : string) (duration : Z) (n_attempts : Z)
| LErrorPreview (s : string)
| LLogFile (p : LogPath).

(** [box.status in ["failed", "timeout", "error"]] *)
Definition not_success (b : DeploymentBox) : bool :=
  String.eqb (status b) "failed" || String.eqb (status b) "timeout"
  || String.eqb (status b) "error".

(** Line 589: zero unless both timestamps are set. *)
Definition duration_of (b : DeploymentBox) : Z :=
  match start_time b, end_time b with
  | Some s, Some e => e - s
  | _, _ => 0
  end.

(** Lines 588-594, the lines printed for one box. *)
Definition failure_lines (b : DeploymentBox) : list Line :=
  if not_success b then
    [LBox (network_id b) (name b) (host b) (status b) (duration_of b) (attempts b)]
    ++ match error_output b with
       | [] => []
       | first :: _ => [LErrorPreview (prefix_chars 100 first)]
       end
    ++ match log_file b with
       | None => []
       | Some p => [LLogFile p]
       end
  else [].

Definition print_summary (self : GOADDeployer) (boxes : list DeploymentBox)
                         (total_duration : Z) : list Line :=
  [ LTotal (Z.of_nat (List.length boxes));
    LSuccessful (success_count boxes);
    LFailed (failed_count boxes);
    LTimeout (timeout_count boxes);
    LError (error_count boxes);
    LTotalAttempts (total_attempts boxes);
    LRetried (retried_count boxes);
    LDuration total_duration;
    LLogsDir (log_dir self) ]
  ++ (if (0 <? failed_count boxes) || (0 <? timeout_count boxes)
         || (0 <? error_count boxes)
      then LFailuresHeader :: flat_map failure_lines boxes
      else []).

(** ** Pre-stages, [deploy_all] and [main] *)

(** A call either returns or leaves through [sys.exit(code)]. *)
Inductive Ctl (A : Type) :=
| Return (a : A)
| SysExit (code : Z).
Arguments Return {A} a.
Arguments SysExit {A} code.

(** What reading and parsing the inventory file gives
    ([parse_inventory], lines 84-121). *)
Inductive InventoryRead :=
| InvParsed (entries : list (string * string * Z))
| InvNotFound                  (* FileNotFoundError *)
| InvFailure.                  (* any other Exception *)

Definition parse_inventory (inv : InventoryRead) : Ctl (list DeploymentBox) :=
  match inv with
  | InvParsed entries =>
      Return (map (fun e => DeploymentBox_init (fst (fst e)) (snd (fst e)) (snd e))
                  entries)
  | InvNotFound => SysExit 1
  | InvFailure => SysExit 1
  end.

Inductive Stage := ActivateWindows | PrepareKali | PrepareDeployment.

(** What the [subprocess.run] of an [ansible-playbook] stage does. *)
Inductive StageOutcome :=
| StageReturned (returncode : Z)
| StageTimeout                 (* subprocess.TimeoutExpired *)
| StageNotFound                (* FileNotFoundError *)
| StageException.              (* any other Exception *)

(** Lines 123-207: every path returns [True]. *)
Definition activate_windows_hosts (o : StageOutcome) : Ctl bool :=
  match o with
  | StageReturned rc => if rc =? 0 then Return true else Return true
  | StageTimeout => Return true
  | StageNotFound => Return true
  | StageException => Return true
  end.

(** Lines 209-300: every path returns [True]. *)
Definition prepare_kali_boxes (o : StageOutcome) : Ctl bool :=
  match o with
  | StageReturned rc => if rc =? 0 then Return true else Return true
  | StageTimeout => Return true
  | StageNotFound => Return true
  | StageException => Return true
  end.

(** Lines 302-382: [True] on return code 0, [sys.exit(1)] otherwise. *)
Definition prepare_deployment_boxes (o : StageOutcome) : Ctl bool :=
  match o with
  | StageReturned rc => if rc =? 0 then Return true else SysExit 1
  | StageTimeout => SysExit 1
  | StageNotFound => SysExit 1
  | StageException => SysExit 1
  end.

(** Everything outside the process that one run depends on. *)
Record RunEnv := mkRunEnv {
  inventory : InventoryRead;
  stage_outcome : Stage -> StageOutcome;
  world_of : nat -> World;       (* the world of the i-th box's thread *)
  wall_clock : Z                 (* [end_time - start_time] of the fan-out *)
}.

(** What one run of the process did. *)
Record Run := mkRun {
  stages_run : list (Stage * StageOutcome);  (* pre-stages invoked, in order *)
  started : list DeploymentBox;              (* one per [thread.start()] *)
  joined : option (list Th);                 (* the workers, once all are joined *)
  printed : list Line;                       (* output of [print_summary] *)
  exit_code : option Z                       (* [None]: the process never exits *)
}.

(** The workers of lines 543-552, box [i] in world [world_of i]. *)
Fixpoint fan_out (self : GOADDeployer) (env : RunEnv) (i : nat)
                 (boxes : list DeploymentBox) : list Th :=
  match boxes with
  | [] => []
  | b :: rest =>
      deploy_goad_on_box self (world_of env i) b :: fan_out self env (S i) rest
  end.

(** [deploy_all] (lines 516-558), the last call of [main]: once it is
    reached, the process exits with 0 when it returns and with [code]
    on [sys.exit(code)].  With a semaphore of 0 no worker gets past
    [acquire], so the joins never return. *)
Definition deploy_all (self : GOADDeployer) (env : RunEnv) : Run :=
  match parse_inventory (inventory env) with
  | SysExit code => mkRun [] [] None [] (Some code)
  | Return [] => mkRun [] [] None [] (Some 0)
  | Return boxes =>
      let s1 := (ActivateWindows, stage_outcome env ActivateWindows) in
      let s2 := (PrepareKali, stage_outcome env PrepareKali) in
      let s3 := (PrepareDeployment, stage_outcome env PrepareDeployment) in
      match activate_windows_hosts (snd s1) with
      | SysExit code => mkRun [s1] [] None [] (Some code)
      | Return _ =>
      match prepare_kali_boxes (snd s2) with
      | SysExit code => mkRun [s1; s2] [] None [] (Some code)
      | Return _ =>
      match prepare_deployment_boxes (snd s3) with
      | SysExit code => mkRun [s1; s2; s3] [] None [] (Some code)
      | Return _ =>
          match max_threads self with
          | O => mkRun [s1; s2; s3] boxes None [] None
          | S _ =>
              let workers := fan_out self env 0 boxes in
              mkRun [s1; s2; s3] boxes (Some workers)
                    (print_summary self (map box workers) (wall_clock env))
                    (Some 0)
          end
      end end end
  end.

(** What [parser.parse_args()] (line 673) makes of the command line:
    the values of [--threads], [--retries] and [--log-dir], integers
    and a path, with their defaults 10, 3 and ["./logs"]; or
    [SystemExit], with code 0 after the help text for [-h], and with
    code 2 after a usage message when an option is unknown, a number is
    not an integer or the provider is not one of the choices. *)
Inductive CommandLine :=
| Options (threads retries : Z) (dir : string)
| Help
| Usage.

(** What the constructor meets when it creates the log directory and
    the log file of the run: [None] when the call succeeds, and the
    message of the exception when it raises. *)
Record Startup := mkStartup {
  mkdir_log_dir : option string;   (* self.log_dir.mkdir(parents=True, exist_ok=True) *)
  open_run_log : option string     (* logging.FileHandler(log_file), in setup_logging *)
}.

(** A call returns or raises an exception that nothing catches. *)
Inductive Try (A : Type) :=
| Fine (a : A)
| Uncaught (msg : string).
Arguments Fine {A} a.
Arguments Uncaught {A} msg.

(** Lines 49-64, [GOADDeployer.__init__]: [threading.Semaphore] raises
    [ValueError] for a negative value, before the log directory and the
    log file of the run are created. *)
Definition GOADDeployer_init (threads retries : Z) (dir : string)
                             (os : Startup) : Try GOADDeployer :=
  if threads <? 0 then Uncaught "semaphore initial value must be >= 0"
  else
    match mkdir_log_dir os with
    | Some msg => Uncaught msg
    | None =>
        match open_run_log os with
        | Some msg => Uncaught msg
        | None => Fine (mkDeployer (Z.to_nat threads) retries dir)
        end
    end.

(** [main] (lines 605-686): the arguments are parsed, the deployer is
    constructed, and [deploy_all] is called.  An exception that leaves
    [main] ends the process with code 1, after the traceback. *)
Definition main (cl : CommandLine) (os : Startup) (env : RunEnv) : Run :=
  match cl with
  | Help => mkRun [] [] None [] (Some 0)
  | Usage => mkRun [] [] None [] (Some 2)
  | Options threads retries dir =>
      match GOADDeployer_init threads retries dir os with
      | Uncaught _ => mkRun [] [] None [] (Some 1)
      | Fine self => deploy_all self env
      end
  end.

(** ** The admission semaphore shared by the worker threads *)

(** A worker thread: the events it has performed and those it still
    has to perform. *)
Record Task := mkTask {
  done : list Event;
  todo : list Event
}.

(** [self.semaphore] and the worker threads. *)
Record Pool := mkPool {
  permits : nat;
  tasks : list Task
}.

(** [threading.Semaphore]: [acquire] blocks at 0 and otherwise takes one
    permit, [release] gives one back; other events leave it alone. *)
Definition semaphore_after (e : Event) (p : nat) : option nat :=
  match e with
  | EvAcquire => match p with O => None | S p' => Some p' end
  | EvRelease => Some (S p)
  | _ => Some p
  end.

(** One thread performs its next event. *)
Inductive step : Pool -> Pool -> Prop :=
| step_task : forall p p' before t after e rest,
    todo t = e :: rest ->
    semaphore_after e p = Some p' ->
    step (mkPool p (before ++ t :: after))
         (mkPool p' (before ++ mkTask (done t ++ [e]) rest :: after)).

Inductive reachable (s : Pool) : Pool -> Prop :=
| reach_refl : reachable s s
| reach_step : forall s1 s2, reachable s s1 -> step s1 s2 -> reachable s s2.

Definition acquired (l : list Event) : nat :=
  List.length (filter (fun e => match e with EvAcquire => true | _ => false end) l).

Definition released (l : list Event) : nat :=
  List.length (filter (fun e => match e with EvRelease => true | _ => false end) l).

(** The task holds an admission slot: it has acquired and not released. *)
Definition holds (t : Task) : bool := Nat.ltb (released (done t)) (acquired (done t)).

(** The pool right after [Semaphore(max_threads)] and the thread starts. *)
Definition start_pool (self : GOADDeployer) (workers : list Th) : Pool :=
  mkPool (max_threads self) (map (fun th => mkTask [] (trace th)) workers).

(** The box as the events performed so far leave it for a reader. *)
Definition visible_box (b0 : DeploymentBox) (l : list Event) : DeploymentBox :=
  fold_left (fun b e => match e with EvVisible b' => b' | _ => b end) l b0.

(** Projections of a trace. *)
Definition status_writes (l : list Event) : list string :=
  flat_map (fun e => match e with EvStatus s => [s] | _ => [] end) l.

Definition runs (l : list Event) : list Z :=
  flat_map (fun e => match e with EvRun n => [n] | _ => [] end) l.

Definition visibles (l : list Event) : list DeploymentBox :=
  flat_map (fun e => match e with EvVisible b => [b] | _ => [] end) l.

(** Every state of the box that can be read with the lock free, from
    its construction on. *)
Definition observations (b0 : DeploymentBox) (th : Th) : list DeploymentBox :=
  b0 :: visibles (trace th).

(** The terminal states named by [print_summary]. *)
Definition terminal (s : string) : bool :=
  String.eqb s "success" || String.eqb s "failed"
  || String.eqb s "timeout" || String.eqb s "error".

(** ** Text: characters, [str] methods, [int] and [str] *)

(** A character is a code point below 256.  [str.isspace], which is
    also what [str.strip] removes and what the pattern [\s] matches:
    tab to carriage return, the four separators 28 to 31, space, and in
    the upper half NEL (133) and the no-break space (160). *)
Definition isspace (c : ascii) : bool :=
  let n := nat_of_ascii c in
  ((9 <=? n) && (n <=? 13) || (28 <=? n) && (n <=? 32)
   || (n =? 133) || (n =? 160))%nat.

(** What the pattern [\d] matches: the decimal digits; below 256 these
    are ["0"] to ["9"]. *)
Definition isdigit (c : ascii) : bool :=
  let n := nat_of_ascii c in ((48 <=? n) && (n <=? 57))%nat.

(** [\S] *)
Definition nonspace (c : ascii) : bool := negb (isspace c).

(** [.] without [re.DOTALL]: anything but a line feed. *)
Definition dot (c : ascii) : bool := negb (Ascii.eqb c newline).

(** [s.startswith(p)] *)
Fixpoint startswith (s p : string) {struct p} : bool :=
  match p with
  | EmptyString => true
  | String a p' =>
      match s with
      | EmptyString => false
      | String b s' => Ascii.eqb a b && startswith s' p'
      end
  end.

(** [s[n:]] *)
Fixpoint skip_chars (n : nat) (s : string) : string :=
  match n, s with
  | O, _ => s
  | S _, EmptyString => EmptyString
  | S m, String _ rest => skip_chars m rest
  end.

Fixpoint lstrip (s : string) : string :=
  match s with
  | EmptyString => EmptyString
  | String c rest => if isspace c then lstrip rest else s
  end.

Fixpoint rstrip (s : string) : string :=
  match s with
  | EmptyString => EmptyString
  | String c rest =>
      match rstrip rest with
      | EmptyString => if isspace c then EmptyString else String c EmptyString
      | kept => String c kept
      end
  end.

(** [s.strip()] *)
Definition strip (s : string) : string := rstrip (lstrip s).

(** The number that a string of decimal digits spells (leading zeros
    are accepted). *)
Fixpoint int_from (acc : Z) (s : string) : Z :=
  match s with
  | EmptyString => acc
  | String c rest => int_from (10 * acc + (Z.of_nat (nat_of_ascii c) - 48)) rest
  end.

(** [sys.int_info.default_max_str_digits] *)
Definition int_max_str_digits : nat := 4300.

(** [int(s)] for a string of decimal digits, as [\d+] captures them:
    the number they spell, or [None] for the [ValueError] that a string
    of more digits than the interpreter converts raises (leading zeros
    count). *)
Definition py_int (s : string) : option Z :=
  if (String.length s <=? int_max_str_digits)%nat then Some (int_from 0 s) else None.

(** [str(n)] for a natural number: its decimal digits. *)
Definition py_str (n : nat) : string := NilEmpty.string_of_uint (Nat.to_uint n).

(** A line feed, as a string. *)
Definition nl : string := String newline EmptyString.

(** [f.readlines()] on a file opened in text mode: a line ends with its
    line feed; with universal newlines a carriage return, alone or
    before a line feed, ends a line too and is read as a line feed. *)
Fixpoint readlines (content : string) : list string :=
  match content with
  | EmptyString => []
  | String c rest =>
      if Ascii.eqb c newline then String newline EmptyString :: readlines rest
      else if Ascii.eqb c (ascii_of_nat 13) then
        match rest with
        | String c' rest' =>
            if Ascii.eqb c' newline
            then String newline EmptyString :: readlines rest'
            else String newline EmptyString :: readlines rest
        | EmptyString => [String newline EmptyString]
        end
      else
        match readlines rest with
        | [] => [String c EmptyString]
        | line :: lines => String c line :: lines
        end
  end.

(** ** [re.match] for the patterns of the script *)

(** A pattern is a sequence of items: literal text, or a greedy
    repetition [c{n,}] of one character class, in a capturing group or
    not. *)
Inductive Item :=
| Literal (text : string)
| Repeat (class : ascii -> bool) (at_least : nat) (captured : bool).

(** How many characters of the class the string starts with. *)
Fixpoint span (class : ascii -> bool) (s : string) : nat :=
  match s with
  | EmptyString => O
  | String c rest => if class c then S (span class rest) else O
  end.

(** Backtracking: the counts [least + more], ..., [least + 1], [least]
    in this order; the first one after which the rest matches wins. *)
Fixpoint longest_first {A} (try : nat -> option A) (least more : nat) : option A :=
  match try (least + more)%nat with
  | Some r => Some r
  | None => match more with
            | O => None
            | S fewer => longest_first try least fewer
            end
  end.

(** [re.match(pattern, s)]: the pattern must match at the start of [s],
    not necessarily all of it; the result is [match.groups()]. *)
Fixpoint re_match (pattern : list Item) (s : string) : option (list string) :=
  match pattern with
  | [] => Some []
  | Literal text :: pattern' =>
      if startswith s text then re_match pattern' (skip_chars (String.length text) s)
      else None
  | Repeat class at_least captured :: pattern' =>
      let n := span class s in
      if (n <? at_least)%nat then None
      else longest_first
             (fun k => match re_match pattern' (skip_chars k s) with
                       | Some groups =>
                           Some (if captured then prefix_chars k s :: groups else groups)
                       | None => None
                       end)
             at_least (n - at_least)
  end.

(** Line 108: [(\S+)\s+ansible_host=(\S+).*network_id=(\d+)] *)
Definition inventory_line : list Item :=
  [ Repeat nonspace 1 true; Repeat isspace 1 false; Literal "ansible_host=";
    Repeat nonspace 1 true; Repeat dot 0 false; Literal "network_id=";
    Repeat isdigit 1 true ].

(** ** [GOADDeployer.parse_inventory], the text of the file *)

(** Lines 92-111: the loop over the lines, with its state
    [in_deployment_boxes] and [boxes]; a box is kept as the arguments
    that [DeploymentBox] is called with.  The result is [None] when
    [int(network_id)] raises, which ends the loop. *)
Fixpoint parse_lines (lines : list string) (in_deployment_boxes : bool)
                     (boxes : list (string * string * Z))
                     : option (list (string * string * Z)) :=
  match lines with
  | [] => Some boxes
  | raw :: rest =>
      let line := strip raw in
      if startswith line "[deployment_boxes]" then parse_lines rest true boxes
      else if in_deployment_boxes then
        if startswith line "[" || String.eqb line "" || startswith line "#" then
          if startswith line "[deployment_boxes:vars]" then Some boxes
          else parse_lines rest in_deployment_boxes boxes
        else
          match re_match inventory_line line with
          | Some [nm; hst; nid] =>
              match py_int nid with
              | Some n => parse_lines rest in_deployment_boxes (boxes ++ [(nm, hst, n)])
              | None => None
              end
          | _ => parse_lines rest in_deployment_boxes boxes
          end
      else parse_lines rest in_deployment_boxes boxes
  end.

(** What [open(self.inventory_file, 'r')] and [f.readlines()] give. *)
Inductive FileRead :=
| FileText (content : string)
| FileMissing                  (* FileNotFoundError *)
| FileUnreadable.              (* any other Exception *)

(** Lines 86-121, from the file to what [parse_inventory] works on; the
    [ValueError] of [int] is one of the exceptions of line 119. *)
Definition read_inventory (f : FileRead) : InventoryRead :=
  match f with
  | FileText content =>
      match parse_lines (readlines content) false [] with
      | Some boxes => InvParsed boxes
      | None => InvFailure
      end
  | FileMissing => InvNotFound
  | FileUnreadable => InvFailure
  end.

(** ** [generate-inventory.py] *)

(** [str(n)] for an integer. *)
Definition py_str_int (n : Z) : string :=
  if n <? 0 then "-" ++ py_str (Z.to_nat (- n)) else py_str (Z.to_nat n).

(** The outputs of Terraform that [generate_inventory] reads.  A list
    stands for [tf_output.get(key, {}).get('value', [])], so an output
    that is missing is the empty list; an address is a string or
    [None]; [goad_instances] is 0 when it is missing. *)
Record TfOutput := mkTfOutput {
  ubuntu_deploy_floating_ips : list (option string);
  ubuntu_deploy_names : list string;
  kali_floating_ips : list (option string);
  kali_names : list string;
  dc01_floating_ips : list (option string);
  dc01_names : list string;
  dc02_floating_ips : list (option string);
  dc02_names : list string;
  dc03_floating_ips : list (option string);
  dc03_names : list string;
  srv02_floating_ips : list (option string);
  srv02_names : list string;
  srv03_floating_ips : list (option string);
  srv03_names : list string;
  goad_instances : Z
}.

(** [names[idx] if idx < len(names) else f"goad-{idx+1}-{role}"] *)
Definition host_name (role : string) (names : list string) (idx : nat) : string :=
  nth idx names ("goad-" ++ py_str (idx + 1) ++ "-" ++ role).

(** The loop that every group of hosts has (lines 41-44, 58-61, ...):
    one line per address that is not empty, numbered by its position.
    [user] is [" ansible_user=cyberrange"] for the deployment boxes and
    empty for the other groups. *)
Fixpoint host_lines (role user : string) (names : list string) (idx : nat)
                    (ips : list (option string)) : list string :=
  match ips with
  | [] => []
  | ip :: rest =>
      match ip with
      | Some (String _ _ as address) =>
          (host_name role names idx ++ " ansible_host=" ++ address ++ user
           ++ " network_id=" ++ py_str (idx + 1))
          :: host_lines role user names (S idx) rest
      | _ => host_lines role user names (S idx) rest
      end
  end.

(** Lines 32-159. *)
Definition generate_inventory (tf_output : TfOutput) : string :=
  String.concat nl
    (["[deployment_boxes]"]
     ++ host_lines "ubuntu-deploy" " ansible_user=cyberrange"
          (ubuntu_deploy_names tf_output) 0 (ubuntu_deploy_floating_ips tf_output)
     ++ [ "";
          "[deployment_boxes:vars]";
          "ansible_python_interpreter=/usr/bin/python3";
          "ansible_ssh_common_args='-o StrictHostKeyChecking=no -J sshjump@ssh.cyberrange.rit.edu'";
          "ansible_password=Cyberrange123!";
          "";
          "# Kali Pentesting Boxes";
          "[kali_boxes]" ]
     ++ host_lines "kali" "" (kali_names tf_output) 0 (kali_floating_ips tf_output)
     ++ [ "";
          "[kali_boxes:vars]";
          "ansible_python_interpreter=/usr/bin/python3";
          "ansible_ssh_common_args='-o StrictHostKeyChecking=no -J sshjump@ssh.cyberrange.rit.edu'";
          "ansible_user=cyberrange";
          "ansible_password=Cyberrange123!";
          "";
          "# Windows Domain Controllers";
          "[windows_dc01]" ]
     ++ host_lines "dc01" "" (dc01_names tf_output) 0 (dc01_floating_ips tf_output)
     ++ [ ""; "[windows_dc02]" ]
     ++ host_lines "dc02" "" (dc02_names tf_output) 0 (dc02_floating_ips tf_output)
     ++ [ ""; "[windows_dc03]" ]
     ++ host_lines "dc03" "" (dc03_names tf_output) 0 (dc03_floating_ips tf_output)
     ++ [ ""; "# Windows Servers"; "[windows_srv02]" ]
     ++ host_lines "srv02" "" (srv02_names tf_output) 0 (srv02_floating_ips tf_output)
     ++ [ ""; "[windows_srv03]" ]
     ++ host_lines "srv03" "" (srv03_names tf_output) 0 (srv03_floating_ips tf_output)
     ++ [ "";
          "[windows_domain_controllers:children]";
          "windows_dc01";
          "windows_dc02";
          "windows_dc03";
          "";
          "[windows_servers:children]";
          "windows_srv02";
          "windows_srv03";
          "";
          "[windows:children]";
          "windows_domain_controllers";
          "windows_servers";
          "";
          "[windows:vars]";
          "ansible_user=cyberrange";
          "ansible_password=Cyberrange123!";
          "ansible_connection=winrm";
          "ansible_winrm_transport=ntlm";
          "ansible_winrm_server_cert_validation=ignore";
          "ansible_port=5986";
          "ansible_winrm_scheme=https";
          "# WinRM over SOCKS5 proxy";
          "ansible_winrm_proxy=socks5h://ssh.cyberrange.rit.edu:1080";
          "# Disable become - WinRM doesn't support privilege escalation via sudo";
          "become=false";
          "";
          "# Network information from Terraform";
          "# Total GOAD instances: " ++ py_str_int (goad_instances tf_output);
          "# Total deployment boxes: "
            ++ py_str (List.length (ubuntu_deploy_floating_ips tf_output));
          "# Total Kali boxes: " ++ py_str (List.length (kali_floating_ips tf_output));
          "# Total Windows VMs: "
            ++ py_str (List.length (dc01_floating_ips tf_output)
                       + List.length (dc02_floating_ips tf_output)
                       + List.length (dc03_floating_ips tf_output)
                       + List.length (srv02_floating_ips tf_output)
                       + List.length (srv03_floating_ips tf_output)) ]).

(** ** [consolidate-kali-credentials.py] *)

(** A file that [creds_path.glob("*-password.txt")] finds: its name,
    and what [f.read()] returns, or [None] when opening or reading it
    raises. *)
Record PasswordFile := mkPasswordFile {
  file_name : string;
  file_text : option string
}.

(** [a < b] on [str]: the order of the code points, a proper prefix
    first. *)
Fixpoint str_ltb (a b : string) : bool :=
  match a, b with
  | _, EmptyString => false
  | EmptyString, String _ _ => true
  | String x a', String y b' =>
      if (nat_of_ascii x <? nat_of_ascii y)%nat then true
      else if Ascii.eqb x y then str_ltb a' b' else false
  end.

(** [sorted(l, key=key)] and [l.sort(key=key)]: stable, an element
    stays before the later ones with the same key. *)
Fixpoint insert_by {A} (key : A -> string) (x : A) (l : list A) : list A :=
  match l with
  | [] => [x]
  | y :: l' => if str_ltb (key y) (key x) then y :: insert_by key x l' else x :: l
  end.

Definition py_sorted {A} (key : A -> string) (l : list A) : list A :=
  fold_right (insert_by key) [] l.

(** [s.replace(old, "")] for a text [old] that is not empty: its
    occurrences are removed from left to right, and what is left is not
    looked at again.  [skip] counts the characters of an occurrence
    still to remove. *)
Fixpoint remove_from (old : string) (skip : nat) (s : string) : string :=
  match s with
  | EmptyString => EmptyString
  | String c rest =>
      match skip with
      | S fewer => remove_from old fewer rest
      | O => if startswith s old
             then remove_from old (String.length old - 1) rest
             else String c (remove_from old O rest)
      end
  end.

(** Lines 44-45: [pwd_file.stem], the name without its [.txt], and
    then without any [-password]. *)
Definition instance_name (name : string) : string :=
  remove_from "-password" 0 (prefix_chars (String.length name - 4) name).

(** [line.split(':', 1)] when [':' in line], [None] otherwise. *)
Fixpoint split_colon (line : string) : option (string * string) :=
  match line with
  | EmptyString => None
  | String c rest =>
      if Ascii.eqb c ":" then Some (EmptyString, rest)
      else match split_colon rest with
           | Some (user, password) => Some (String c user, password)
           | None => None
           end
  end.

(** A [dict] with [str] keys, as far as [d[k] = v], [k in d] and [d[k]]
    go: the binding made last is the one found. *)
Definition Dict := list (string * string).

Fixpoint dict_get (d : Dict) (k : string) : option string :=
  match d with
  | [] => None
  | (k', v) :: d' => if String.eqb k' k then Some v else dict_get d' k
  end.

(** Lines 49-57: the credentials of one file. *)
Definition cred_dict (text : string) : Dict :=
  fold_left (fun d line => match split_colon line with
                           | Some (user, password) => (user, password) :: d
                           | None => d
                           end)
            (split_lines (strip text)) [].

(** Lines 41-66: one pass of the loop over the files; a file that
    cannot be read is skipped with a warning. *)
Definition read_credentials (f : PasswordFile) : list (string * Dict) :=
  match file_text f with
  | Some text => [(instance_name (file_name f), cred_dict text)]
  | None => []
  end.

(** One constructor per informative line of the document; the fixed
    text, the rules and the date are left out, and the name of an
    instance is kept as it is before [upper()]. *)
Inductive DocLine :=
| DTotal (n : nat)                            (* Total Instances: n *)
| DInstance (idx : nat) (instance : string)   (* idx. INSTANCE *)
| DCredential (user password : string).       (*   user : password *)

(** Line 97 *)
Definition shown_users : list string := ["pentester"; "kali"; "cyberrange"; "root"].

(** Lines 90-101: the lines of one instance. *)
Definition instance_lines (idx : nat) (item : string * Dict) : list DocLine :=
  DInstance idx (fst item)
  :: flat_map (fun user => match dict_get (snd item) user with
                           | Some password => [DCredential user password]
                           | None => []
                           end) shown_users.

(** Lines 89-101: [for idx, item in enumerate(all_credentials, 1)] *)
Fixpoint document_body (idx : nat) (items : list (string * Dict)) : list DocLine :=
  match items with
  | [] => []
  | item :: rest => instance_lines idx item ++ document_body (S idx) rest
  end.

(** What a call that returns has done. *)
Record Consolidated := mkConsolidated {
  found : nat;                                 (* Found n Kali credential files *)
  document : list DocLine;                     (* written to the output file *)
  preview : list (string * option string)      (* first instances, pentester only *)
}.

(** How a call ends: it returns, it leaves through [sys.exit(code)], or
    it raises an exception that nothing in the script catches. *)
Inductive Call (A : Type) :=
| Returns (a : A)
| Exits (code : Z)
| Raises (msg : string).
Arguments Returns {A} a.
Arguments Exits {A} code.
Arguments Raises {A} msg.

(** Lines 13-147.  [dir] is [None] when the directory does not exist,
    and otherwise the files that the glob finds in it.  [output_file]
    is what [open(output_file, 'w')] and [f.write] of lines 126-127 do
    with the path given or made up from the date: [None] when the
    document is written, and the message of the exception when one of
    them raises; nothing is printed after that, and nothing catches
    it. *)
Definition consolidate_credentials (dir : option (list PasswordFile))
                                   (output_file : option string) : Call Consolidated :=
  match dir with
  | None => Exits 1
  | Some files =>
      match py_sorted file_name files with
      | [] => Exits 1
      | password_files =>
          let all_credentials := py_sorted fst (flat_map read_credentials password_files) in
          match output_file with
          | Some msg => Raises msg
          | None =>
              Returns (mkConsolidated
                         (List.length password_files)
                         (DTotal (List.length all_credentials)
                          :: document_body 1 all_credentials)
                         (map (fun item => (fst item, dict_get (snd item) "pentester"))
                              (firstn 3 all_credentials)))
          end
      end
  end.


(** * Properties *)

(** ** Traces *)

Lemma runs_app l1 l2 : runs (l1 ++ l2) = (runs l1 ++ runs l2)%list.
Proof. unfold runs. apply flat_map_app. Qed.

Lemma status_writes_app l1 l2 :
  status_writes (l1 ++ l2) = (status_writes l1 ++ status_writes l2)%list.
Proof. unfold status_writes. apply flat_map_app. Qed.

Lemma visibles_app l1 l2 : visibles (l1 ++ l2) = (visibles l1 ++ visibles l2)%list.
Proof. unfold visibles. apply flat_map_app. Qed.

Lemma visible_box_app b l1 l2 :
  visible_box b (l1 ++ l2) = visible_box (visible_box b l1) l2.
Proof. unfold visible_box. apply fold_left_app. Qed.

Lemma acquired_app l1 l2 : acquired (l1 ++ l2) = (acquired l1 + acquired l2)%nat.
Proof. unfold acquired. rewrite filter_app, length_app. reflexivity. Qed.

Lemma released_app l1 l2 : released (l1 ++ l2) = (released l1 + released l2)%nat.
Proof. unfold released. rewrite filter_app, length_app. reflexivity. Qed.

(** The attempt numbers [1; 2; ...; a]. *)
Definition attempt_numbers (a : Z) : list Z := map Z.of_nat (seq 1 (Z.to_nat a)).

Lemma attempt_numbers_succ a :
  0 <= a -> attempt_numbers (a + 1) = (attempt_numbers a ++ [a + 1])%list.
Proof.
  intros Ha. unfold attempt_numbers.
  replace (Z.to_nat (a + 1)) with (S (Z.to_nat a)) by lia.
  rewrite seq_S, map_app. simpl. do 2 f_equal. lia.
Qed.

Lemma attempt_numbers_length a : List.length (attempt_numbers a) = Z.to_nat a.
Proof. unfold attempt_numbers. rewrite length_map, length_seq. reflexivity. Qed.

Lemma attempt_numbers_In a k : In k (attempt_numbers a) <-> 1 <= k <= a.
Proof.
  unfold attempt_numbers. rewrite in_map_iff. split.
  - intros [n [Hk Hn]]. apply in_seq in Hn. lia.
  - intros Hk. exists (Z.to_nat k). split; [lia|]. apply in_seq. lia.
Qed.

Lemma split_on_nonempty sep s : split_on sep s <> [].
Proof.
  destruct s as [|c rest]; simpl; [discriminate|].
  destruct (Ascii.eqb c sep); [discriminate|].
  destruct (split_on sep rest); discriminate.
Qed.

(** ** The retry loop *)

Section WorkerFacts.

Variable self : GOADDeployer.
Variable w : World.

(** The loop, unfolded once. *)
Lemma while_loop_once attempt success th :
  while_loop self w attempt success th =
  if (attempt <? max_retries self) && negb success then
    match attempt_body self w (attempt + 1) success th with
    | (Normal success', th') => while_loop self w (attempt + 1) success' th'
    | (Raised msg, th') => (Raised msg, th')
    end
  else (Normal success, th).
Proof.
  enough (E : forall c, c = (attempt <? max_retries self) && negb success ->
            while_loop self w attempt success th =
            if c then
              match attempt_body self w (attempt + 1) success th with
              | (Normal success', th') =>
                  while_loop self w (attempt + 1) success' th'
              | (Raised msg, th') => (Raised msg, th')
              end
            else (Normal success, th)) by (apply E; reflexivity).
  intros c Ec.
  rewrite while_loop_equation_1.
  destruct (Logic.inspect ((attempt <? max_retries self) && negb success))
    as [c' Hc].
  rewrite Hc in Ec. subst c.
  destruct c'; simpl; [|reflexivity].
  destruct (attempt_body self w (attempt + 1) success th) as [[s'|msg] th'];
    simpl; reflexivity.
Qed.

(** A Hoare rule for the loop: an invariant of the loop head that every
    normal pass re-establishes holds at the exit, together with the
    negated guard; a pass that raises hands over [Exc]. *)
Section LoopRule.

Variable Inv : Z -> bool -> Th -> Prop.
Variable Exc : Th -> Prop.

Hypothesis body_ok : forall a s th,
  Inv a s th -> a < max_retries self -> s = false ->
  match attempt_body self w (a + 1) s th with
  | (Normal s', th') => Inv (a + 1) s' th'
  | (Raised _, th') => Exc th'
  end.

Lemma while_loop_rule a s th :
  Inv a s th ->
  match while_loop self w a s th with
  | (Normal s', th') =>
      exists a', Inv a' s' th' /\ (max_retries self <= a' \/ s' = true)
  | (Raised _, th') => Exc th'
  end.
Proof.
  remember (Z.to_nat (max_retries self - a)) as n eqn:Hn.
  revert a s th Hn.
  induction n as [n IH] using lt_wf_ind.
  intros a s th Hn HI.
  rewrite while_loop_once.
  destruct (a <? max_retries self) eqn:Hlt; simpl.
  - apply Z.ltb_lt in Hlt. destruct s; simpl.
    + exists a. split; [assumption|]. right; reflexivity.
    + pose proof (body_ok a false th HI Hlt eq_refl) as Hb.
      destruct (attempt_body self w (a + 1) false th) as [[s'|msg] th'].
      * assert (Hdec : (Z.to_nat (max_retries self - (a + 1)) < n)%nat) by lia.
        exact (IH _ Hdec (a + 1) s' th' eq_refl Hb).
      * assumption.
  - apply Z.ltb_ge in Hlt. exists a. split; [assumption|]. left; assumption.
Qed.

End LoopRule.

End WorkerFacts.

(** ** The worker, from the first pass to its return *)

(** What attempt [n] comes to inside the [try]: the outcome of its
    [subprocess.run], unless the command returned or timed out and the
    record of it could not be appended to the log; the exception of
    that append then takes its place. *)
Definition attempt_outcome (w : World) (n : Z) : Outcome :=
  match run_ssh w n with
  | OtherException msg => OtherException msg
  | o => match log_append w n with
         | Some msg => OtherException msg
         | None => o
         end
  end.

(** An outcome after which the loop may go round again. *)
Definition retryable (o : Outcome) : Prop :=
  match o with
  | Completed rc _ _ => rc <> 0
  | TimeoutExpired => True
  | OtherException _ => False
  end.

(** A readable state of a box is coherent when a terminal status comes
    with an end time. *)
Definition obs_ok (b : DeploymentBox) : Prop :=
  terminal (status b) = true -> end_time b <> None.

(** The statuses the script ever assigns. *)
Definition known_status (b : DeploymentBox) : Prop :=
  In (status b) ["pending"; "running"; "success"; "failed"; "timeout"; "error"].

(** The status a box is left with by attempt [a] that did not succeed:
    unchanged (["running"]) when a retry follows, [final] otherwise. *)
Definition status_after_failure (self : GOADDeployer) (a : Z) (final : string) : string :=
  if a <? max_retries self then "running" else final.

(** Attempt [j] returned a non-zero code, was logged, and is followed
    by another attempt. *)
Definition retried (self : GOADDeployer) (w : World) (j : Z) : Prop :=
  j < max_retries self
  /\ log_append w j = None
  /\ exists rc out err, run_ssh w j = Completed rc out err /\ rc <> 0.

(** The box could be read after attempt [j] with status "running" and
    with [end_time] set. *)
Definition seen_running_ended (j : Z) (tr : list Event) : Prop :=
  exists b, In b (visibles tr)
            /\ attempts b = j /\ status b = "running" /\ end_time b <> None.

Section WorkerInvariant.

Variable self : GOADDeployer.
Variable w : World.
Variables bn bh : string.
Variable bid : Z.

Local Abbreviation b0 := (DeploymentBox_init bn bh bid).
Local Abbreviation R := (max_retries self).

Definition log_path : LogPath := DeployLog (log_dir self) bn (clock w 0).

(** The thread when it reaches the [while] for the first time. *)
Definition loop_entry : Th :=
  publish (update (set_log_file (Some log_path))
             (snd (datetime_now w (emit EvAcquire (mkTh b0 0 []))))).

(** The thread when [subprocess.run] is called for attempt [a]. *)
Definition begin_attempt (a : Z) (th : Th) : Th :=
  emit (EvRun a) (mark_running w (publish (update (set_attempts a) th))).

Lemma deploy_goad_on_box_eq :
  deploy_goad_on_box self w b0 =
  emit EvRelease
    (match while_loop self w 0 false loop_entry with
     | (Normal _, th) => th
     | (Raised _, th) => on_exception w th
     end).
Proof.
  unfold deploy_goad_on_box, loop_entry. simpl.
  destruct (while_loop self w 0 false _) as [[s|msg] th]; reflexivity.
Qed.

Lemma attempt_body_eq a s th :
  attempt_body self w a s th =
  match run_ssh w a with
  | Completed rc out err =>
      match log_append w a with
      | Some msg => (Raised msg, begin_attempt a th)
      | None =>
          let (s', th') := on_completed self w a rc out err s (begin_attempt a th) in
          (Normal s', th')
      end
  | TimeoutExpired => on_timeout self w a s (begin_attempt a th)
  | OtherException msg => (Raised msg, begin_attempt a th)
  end.
Proof. reflexivity. Qed.

Lemma attempt_outcome_run a msg :
  run_ssh w a = OtherException msg -> attempt_outcome w a = OtherException msg.
Proof. unfold attempt_outcome. intros ->. reflexivity. Qed.

Lemma attempt_outcome_logged a :
  log_append w a = None -> attempt_outcome w a = run_ssh w a.
Proof. unfold attempt_outcome. intros ->. destruct (run_ssh w a); reflexivity. Qed.

Lemma attempt_outcome_not_logged a msg :
  log_append w a = Some msg ->
  (forall m, run_ssh w a <> OtherException m) ->
  attempt_outcome w a = OtherException msg.
Proof.
  unfold attempt_outcome. intros -> Hrun.
  destruct (run_ssh w a) as [rc out err| |m]; try reflexivity.
  contradiction (Hrun m). reflexivity.
Qed.

(** What the box looks like after attempt [a], by the outcome of that
    attempt. *)
Definition after_attempt (a : Z) (s : bool) (b : DeploymentBox) : Prop :=
  match attempt_outcome w a with
  | Completed rc out err =>
      end_time b <> None /\ output b = split_lines out /\
      if rc =? 0 then s = true /\ status b = "success"
      else s = false /\ error_output b = split_lines err
           /\ status b = status_after_failure self a "failed"
  | TimeoutExpired =>
      s = false /\ status b = status_after_failure self a "timeout"
      /\ (R <= a -> end_time b <> None)
  | OtherException _ => False
  end.

(** The state of the thread at the head of the loop, after [a] passes. *)
Record LoopInv (a : Z) (s : bool) (th : Th) : Prop := {
  inv_range : 0 <= a /\ (a = 0 \/ a <= R);
  inv_attempts : attempts (box th) = a;
  inv_runs : runs (trace th) = attempt_numbers a;
  inv_before : forall k, 1 <= k < a -> retryable (attempt_outcome w k);
  inv_fresh : a = 0 ->
    s = false /\ status (box th) = "pending" /\ start_time (box th) = None
    /\ end_time (box th) = None /\ error_output (box th) = [];
  inv_last : 1 <= a -> after_attempt a s (box th) /\ start_time (box th) <> None;
  inv_writes : status_writes (trace th) =
    (repeat "running" (Z.to_nat a)
     ++ (if terminal (status (box th)) then [status (box th)] else []))%list;
  inv_obs : Forall obs_ok (visibles (trace th));
  inv_known : Forall known_status (visibles (trace th));
  inv_visible : visible_box b0 (trace th) = box th;
  inv_shape : exists mid, trace th = EvAcquire :: mid
                          /\ acquired mid = 0%nat /\ released mid = 0%nat;
  inv_log : log_file (box th) = Some log_path;
  inv_ident : name (box th) = bn /\ host (box th) = bh /\ network_id (box th) = bid
}.

(** The state of the thread when a pass has raised, before the outer
    handler runs. *)
Record LoopExc (th : Th) : Prop := {
  exc_attempt : 1 <= attempts (box th) <= R;
  exc_outcome : exists msg, attempt_outcome w (attempts (box th)) = OtherException msg;
  exc_runs : runs (trace th) = attempt_numbers (attempts (box th));
  exc_before : forall k, 1 <= k < attempts (box th) -> retryable (attempt_outcome w k);
  exc_status : status (box th) = "running";
  exc_writes : status_writes (trace th) = repeat "running" (Z.to_nat (attempts (box th)));
  exc_obs : Forall obs_ok (visibles (trace th));
  exc_known : Forall known_status (visibles (trace th));
  exc_visible : visible_box b0 (trace th) = box th;
  exc_shape : exists mid, trace th = EvAcquire :: mid
                          /\ acquired mid = 0%nat /\ released mid = 0%nat;
  exc_log : log_file (box th) = Some log_path;
  exc_ident : name (box th) = bn /\ host (box th) = bh /\ network_id (box th) = bid;
  exc_start : start_time (box th) <> None
}.

Lemma loop_entry_inv : LoopInv 0 false loop_entry.
Proof.
  constructor; simpl; try reflexivity; try lia; auto.
  - constructor; [|constructor]. unfold obs_ok. simpl. discriminate.
  - constructor; [|constructor]. unfold known_status. simpl. auto.
  - exists [EvVisible (set_log_file (Some log_path) b0)]. repeat split.
Qed.

(** The thread at the call of [subprocess.run]: the box is "running"
    with this attempt's number, everything else is as before. *)
Lemma begin_attempt_spec a th :
  exists t0,
    let b1 := set_start_time (Some t0) (set_status "running" (set_attempts a (box th))) in
    box (begin_attempt a th) = b1
    /\ trace (begin_attempt a th) =
       (trace th ++ [EvVisible (set_attempts a (box th)); EvStatus "running";
                     EvVisible b1; EvRun a])%list
    /\ (start_time (box th) <> None -> Some t0 = start_time (box th)).
Proof.
  unfold begin_attempt, mark_running, with_lock, publish, assign_status,
    emit, update, datetime_now. simpl.
  destruct (start_time (box th)) as [t|] eqn:Hst; simpl.
  - exists t. simpl. repeat split.
    + unfold set_start_time, set_status, set_attempts. simpl. rewrite Hst. reflexivity.
    + rewrite <- ?app_assoc. simpl. do 4 f_equal.
      unfold set_start_time, set_status, set_attempts. simpl. rewrite Hst. reflexivity.
  - exists (clock w (ticks th)). simpl. repeat split.
    + rewrite <- ?app_assoc. reflexivity.
    + intros H; contradiction.
Qed.

Lemma after_failed_attempt a b :
  after_attempt a false b -> retryable (attempt_outcome w a).
Proof.
  unfold after_attempt, retryable.
  destruct (attempt_outcome w a) as [rc out err| |msg]; auto.
  intros [_ [_ H]]. destruct (rc =? 0) eqn:Hrc.
  - destruct H; discriminate.
  - apply Z.eqb_neq. assumption.
Qed.

Lemma after_attempt_obs_ok a s b : after_attempt a s b -> obs_ok b.
Proof.
  unfold after_attempt, obs_ok, status_after_failure.
  destruct (attempt_outcome w a) as [rc out err| |msg]; [| |contradiction].
  - intros [He _] _. assumption.
  - intros [_ [Hs He]] Ht. destruct (a <? R) eqn:Hlt.
    + rewrite Hs in Ht. discriminate.
    + apply He. apply Z.ltb_ge. assumption.
Qed.

Lemma loop_head_status a th :
  LoopInv a false th -> a < R ->
  status (box th) = "pending" \/ status (box th) = "running".
Proof.
  intros HI Hlt. destruct HI as [[Ha0 _] _ _ _ Hfresh Hlast _ _ _ _ _ _ _].
  destruct (Z.eq_dec a 0) as [Hz|Hnz].
  - left. apply Hfresh. assumption.
  - right. destruct Hlast as [Hlast _]; [lia|].
    unfold after_attempt, status_after_failure in Hlast.
    replace (a <? R) with true in Hlast by (symmetry; apply Z.ltb_lt; assumption).
    destruct (attempt_outcome w a) as [rc out err| |msg].
    + destruct Hlast as [_ [_ Hlast]]. destruct (rc =? 0).
      * destruct Hlast; discriminate.
      * apply Hlast.
    + apply Hlast.
    + contradiction.
Qed.

Lemma shape_snoc (tr : list Event) (l : list Event) :
  (exists mid, tr = EvAcquire :: mid /\ acquired mid = 0%nat /\ released mid = 0%nat) ->
  acquired l = 0%nat -> released l = 0%nat ->
  exists mid, (tr ++ l)%list = EvAcquire :: mid
              /\ acquired mid = 0%nat /\ released mid = 0%nat.
Proof.
  intros [mid [Htr [Ha Hr]]] Hla Hlr. exists (mid ++ l)%list.
  rewrite Htr, acquired_app, released_app, Ha, Hr, Hla, Hlr. repeat split.
Qed.

Lemma writes_step tr n l fin :
  status_writes tr = repeat "running" n ->
  status_writes l = "running" :: fin ->
  status_writes (tr ++ l) = (repeat "running" (S n) ++ fin)%list.
Proof.
  intros Htr Hl. rewrite status_writes_app, Htr, Hl.
  change (repeat "running" (S n)) with ("running" :: repeat "running" n).
  rewrite repeat_cons, <- app_assoc. reflexivity.
Qed.

Ltac inv_fields :=
  match goal with
  | Hb : forall k, 1 <= k < ?a + 1 -> retryable (attempt_outcome _ k),
    Hruns : runs (trace ?th) = attempt_numbers ?a,
    Hwrites : status_writes (trace ?th) = _,
    Hobs : Forall obs_ok (visibles (trace ?th)),
    Hknown : Forall known_status (visibles (trace ?th)),
    Hhead : status (box ?th) = "pending" \/ status (box ?th) = "running",
    Hvis : visible_box _ (trace ?th) = box ?th,
    Hshape : exists mid, trace ?th = EvAcquire :: mid /\ _,
    Hlog : log_file (box ?th) = _,
    Hid : name (box ?th) = _ /\ _ |- _ =>
      try exact Hb; try exact Hlog; try exact Hid; try reflexivity;
      try discriminate; try lia; try (eexists; eassumption);
      try (split; [lia | right; lia]);
      try (intros ?; exfalso; lia);
      try (rewrite <- ?app_assoc, runs_app, Hruns, attempt_numbers_succ by lia;
           reflexivity);
      try (rewrite <- ?app_assoc, visible_box_app, Hvis; reflexivity);
      try (rewrite <- ?app_assoc; apply shape_snoc;
           [exact Hshape | reflexivity | reflexivity]);
      try (rewrite <- ?app_assoc, visibles_app; apply Forall_app;
           split; [exact Hobs|]; simpl; repeat constructor;
           unfold obs_ok; simpl; intros ?; first [discriminate | congruence]);
      try (rewrite <- ?app_assoc, visibles_app; apply Forall_app;
           split; [exact Hknown|]; simpl;
           repeat first [apply Forall_cons | apply Forall_nil];
           unfold known_status; simpl;
           first [tauto | destruct Hhead as [E|E]; rewrite E; tauto]);
      try (rewrite <- ?app_assoc;
           replace (Z.to_nat (a + 1)) with (S (Z.to_nat a)) by lia;
           first [ apply writes_step; [exact Hwrites | reflexivity]
                 | rewrite <- (app_nil_r (repeat _ _));
                   apply writes_step; [exact Hwrites | reflexivity] ]);
      try (intros _)
  end.

Lemma attempt_body_inv a s th :
  LoopInv a s th -> a < R -> s = false ->
  match attempt_body self w (a + 1) s th with
  | (Normal s', th') => LoopInv (a + 1) s' th'
  | (Raised _, th') => LoopExc th'
  end.
Proof.
  intros HI Hlt Hs. subst s.
  pose proof (loop_head_status a th HI Hlt) as Hhead.
  destruct HI as [[Ha0 Hrange] Hatt Hruns Hbefore Hfresh Hlast Hwrites Hobs Hknown Hvis Hshape Hlog Hid].
  assert (Hnt : terminal (status (box th)) = false)
    by (destruct Hhead as [E|E]; rewrite E; reflexivity).
  rewrite Hnt, app_nil_r in Hwrites.
  rewrite attempt_body_eq.
  destruct (begin_attempt_spec (a + 1) th) as [t0 [Hb1 [Htr1 Hst1]]].
  destruct (begin_attempt (a + 1) th) as [b1 k1 tr1].
  cbv zeta in Hb1, Htr1. simpl in Hb1, Htr1. subst b1 tr1.
  assert (Hbefore' : forall k, 1 <= k < a + 1 -> retryable (attempt_outcome w k)).
  { intros k Hk. destruct (Z.eq_dec k a) as [->|Hne].
    - destruct Hlast as [Hlast _]; [lia|]. revert Hlast. apply after_failed_attempt.
    - apply Hbefore. lia. }
  destruct (run_ssh w (a + 1)) as [rc out err| |msg] eqn:Hrun;
    [destruct (log_append w (a + 1)) as [lmsg|] eqn:Happ
    |destruct (log_append w (a + 1)) as [lmsg|] eqn:Happ|].
  - (* the command returned, its output could not be logged *)
    assert (Hout : attempt_outcome w (a + 1) = OtherException lmsg)
      by (apply attempt_outcome_not_logged; [exact Happ | rewrite Hrun; discriminate]).
    constructor; simpl; inv_fields.
  - (* the command returned *)
    assert (Hout : attempt_outcome w (a + 1) = Completed rc out err)
      by (rewrite attempt_outcome_logged; assumption).
    unfold on_completed, datetime_now, publish, assign_status, emit, update.
    simpl.
    destruct (rc =? 0) eqn:Hrc; [|destruct (a + 1 <? R) eqn:Hmore]; simpl.
    all: constructor; simpl; inv_fields.
    all: split; [|discriminate].
    all: unfold after_attempt, status_after_failure; rewrite Hout, Hrc; simpl.
    all: rewrite ?Hmore; repeat split; discriminate.
  - (* the command timed out, the timeout could not be logged *)
    assert (Hout : attempt_outcome w (a + 1) = OtherException lmsg)
      by (apply attempt_outcome_not_logged; [exact Happ | rewrite Hrun; discriminate]).
    unfold on_timeout. rewrite Happ. unfold publish, emit. simpl.
    constructor; simpl; inv_fields.
  - (* the command timed out *)
    assert (Hout : attempt_outcome w (a + 1) = TimeoutExpired)
      by (rewrite attempt_outcome_logged; assumption).
    unfold on_timeout. rewrite Happ.
    unfold with_lock, datetime_now, publish, assign_status, emit, update.
    simpl.
    destruct (a + 1 <? R) eqn:Hmore; simpl.
    all: constructor; simpl; inv_fields.
    all: split; [|discriminate].
    all: unfold after_attempt, status_after_failure; rewrite Hout; simpl.
    all: rewrite ?Hmore; repeat split; try discriminate.
    intros Hge. apply Z.ltb_lt in Hmore. lia.
  - (* the command could not be run *)
    assert (Hout : attempt_outcome w (a + 1) = OtherException msg)
      by (apply attempt_outcome_run; exact Hrun).
    constructor; simpl; inv_fields.
Qed.

Lemma while_loop_inv :
  match while_loop self w 0 false loop_entry with
  | (Normal s, th) =>
      exists a, LoopInv a s th /\ (R <= a \/ s = true)
  | (Raised _, th) => LoopExc th
  end.
Proof.
  apply (while_loop_rule self w LoopInv LoopExc).
  - intros a s th. apply attempt_body_inv.
  - apply loop_entry_inv.
Qed.

(** What attempt [a], the last one, leaves as status. *)
Definition final_status (a : Z) (b : DeploymentBox) : Prop :=
  match attempt_outcome w a with
  | Completed rc _ err =>
      if rc =? 0 then status b = "success"
      else a = R /\ status b = "failed" /\ error_output b = split_lines err
  | TimeoutExpired => a = R /\ status b = "timeout"
  | OtherException _ => status b = "error"
  end.

(** The worker when [deploy_goad_on_box] returns. *)
Record WorkerDone (th : Th) : Prop := {
  done_range : 0 <= attempts (box th)
               /\ (attempts (box th) = 0 \/ attempts (box th) <= R);
  done_runs : runs (trace th) = attempt_numbers (attempts (box th));
  done_before : forall k, 1 <= k < attempts (box th) -> retryable (attempt_outcome w k);
  done_status :
    (attempts (box th) = 0 /\ R <= 0 /\ status (box th) = "pending")
    \/ (1 <= attempts (box th) /\ final_status (attempts (box th)) (box th)
        /\ start_time (box th) <> None);
  done_end : obs_ok (box th);
  done_writes : status_writes (trace th) =
    (repeat "running" (Z.to_nat (attempts (box th)))
     ++ (if terminal (status (box th)) then [status (box th)] else []))%list;
  done_obs : Forall obs_ok (visibles (trace th));
  done_known : Forall known_status (visibles (trace th));
  done_visible : visible_box b0 (trace th) = box th;
  done_shape : exists mid, trace th = (EvAcquire :: mid ++ [EvRelease])%list
                           /\ acquired mid = 0%nat /\ released mid = 0%nat;
  done_log : log_file (box th) = Some log_path;
  done_ident : name (box th) = bn /\ host (box th) = bh /\ network_id (box th) = bid
}.

Lemma deploy_goad_on_box_done : WorkerDone (deploy_goad_on_box self w b0).
Proof.
  rewrite deploy_goad_on_box_eq.
  pose proof while_loop_inv as Hloop.
  destruct (while_loop self w 0 false loop_entry) as [[s|msg] th].
  - destruct Hloop as [a [HI Hexit]].
    destruct HI as [[Ha0 Hrange] Hatt Hruns Hbefore Hfresh Hlast Hwrites Hobs Hknown Hvis Hshape Hlog Hid].
    unfold emit.
    assert (Hst : (a = 0 /\ R <= 0 /\ status (box th) = "pending")
                  \/ (1 <= a /\ final_status a (box th)
                      /\ start_time (box th) <> None)).
    { destruct (Z.eq_dec a 0) as [Hz|Hnz].
      - left. destruct (Hfresh Hz) as [Hs [Hp _]]. subst s.
        destruct Hexit as [Hexit|Hexit]; [|discriminate]. repeat split; [assumption|lia|assumption].
      - right. destruct Hlast as [Hlast Hstart]; [lia|].
        split; [lia|]. split; [|assumption].
        unfold after_attempt, status_after_failure in Hlast. unfold final_status.
        destruct (attempt_outcome w a) as [rc out err| |msg]; [| |contradiction].
        + destruct Hlast as [_ [_ Hlast]]. destruct (rc =? 0); [apply Hlast|].
          destruct Hlast as [Hs [Herr Hstat]]. subst s.
          destruct Hexit as [Hexit|Hexit]; [|discriminate].
          assert (a = R) by lia.
          replace (a <? R) with false in Hstat by (symmetry; apply Z.ltb_ge; lia).
          auto.
        + destruct Hlast as [Hs [Hstat _]]. subst s.
          destruct Hexit as [Hexit|Hexit]; [|discriminate].
          assert (a = R) by lia.
          replace (a <? R) with false in Hstat by (symmetry; apply Z.ltb_ge; lia).
          auto. }
    assert (Hok : obs_ok (box th)).
    { destruct (Z.eq_dec a 0) as [Hz|Hnz].
      - destruct (Hfresh Hz) as [_ [Hp _]]. unfold obs_ok. rewrite Hp. discriminate.
      - destruct Hlast as [Hlast _]; [lia|]. revert Hlast. apply after_attempt_obs_ok. }
    unfold emit.
    constructor; simpl; rewrite ?Hatt; auto;
      rewrite ?runs_app, ?status_writes_app, ?visibles_app, ?visible_box_app,
        ?Hruns, ?Hwrites, ?Hvis; simpl; rewrite ?app_nil_r; auto.
    destruct Hshape as [mid [Htr Hmid]]. exists mid. rewrite Htr. auto.
  - destruct Hloop as [Hatt [msg' Hout] Hruns Hbefore Hstat Hwrites Hobs Hknown Hvis Hshape Hlog Hid Hstart].
    unfold on_exception, with_lock, publish, assign_status, datetime_now, emit, update.
    constructor; simpl; auto.
    + lia.
    + rewrite <- !app_assoc, runs_app, Hruns. apply app_nil_r.
    + right. split; [lia|]. split; [|assumption]. unfold final_status. rewrite Hout. reflexivity.
    + unfold obs_ok. simpl. discriminate.
    + rewrite <- !app_assoc, status_writes_app, Hwrites. reflexivity.
    + rewrite <- !app_assoc, visibles_app. apply Forall_app. split; [assumption|].
      simpl. constructor; [|constructor]. unfold obs_ok. simpl. discriminate.
    + rewrite <- !app_assoc, visibles_app. apply Forall_app. split; [assumption|].
      simpl. constructor; [|constructor]. unfold known_status. simpl. tauto.
    + rewrite <- !app_assoc, visible_box_app, Hvis. reflexivity.
    + destruct Hshape as [mid [Htr [Hma Hmr]]].
      eexists (mid ++ [_; _])%list. rewrite Htr, <- !app_assoc.
      split; [reflexivity|]. rewrite acquired_app, released_app, Hma, Hmr. split; reflexivity.
Qed.

End WorkerInvariant.

(** ** One worker thread *)

(** The worker that [deploy_all] starts for the inventory entry
    [(bn, bh, bid)]. *)
Definition worker (self : GOADDeployer) (w : World) (bn bh : string) (bid : Z) : Th :=
  deploy_goad_on_box self w (DeploymentBox_init bn bh bid).

Lemma worker_done self w bn bh bid :
  WorkerDone self w bn bh bid (worker self w bn bh bid).
Proof. apply deploy_goad_on_box_done. Qed.

(** With at least one attempt allowed, the worker returns with the box
    in one of the four states counted by [print_summary]. *)
Lemma worker_terminal self w bn bh bid :
  1 <= max_retries self ->
  terminal (status (box (worker self w bn bh bid))) = true.
Proof.
  intros HR. destruct (worker_done self w bn bh bid) as [_ _ _ Hst _ _ _ _ _ _ _ _].
  destruct Hst as [[_ [H0 _]]|[_ [Hfin _]]]; [lia|].
  unfold final_status in Hfin.
  destruct (attempt_outcome w _) as [rc out err| |msg].
  - destruct (rc =? 0).
    + rewrite Hfin. reflexivity.
    + destruct Hfin as [_ [-> _]]. reflexivity.
  - destruct Hfin as [_ ->]. reflexivity.
  - rewrite Hfin. reflexivity.
Qed.

(** Sample worlds: the remote job always exits with 1, always times
    out, or cannot be invoked at all; the log can be written. *)
Definition always_exit_1 : World :=
  mkWorld (fun _ => Completed 1 "" "fatal: provisioning failed") (fun _ => None)
          (fun k => Z.of_nat k).

Definition always_timeout : World :=
  mkWorld (fun _ => TimeoutExpired) (fun _ => None) (fun k => Z.of_nat k).

Definition no_sshpass : World :=
  mkWorld (fun _ => OtherException "No such file or directory: 'sshpass'")
          (fun _ => None) (fun k => Z.of_nat k).

(** The same jobs for a box whose log file cannot be opened: its name
    has a slash, and the directory that the path then names does not
    exist. *)
Definition no_log (w : World) : World :=
  mkWorld (run_ssh w) (fun _ => Some "No such file or directory") (clock w).

Definition deployer (threads : nat) (retries : Z) : GOADDeployer :=
  mkDeployer threads retries "./logs".

(** C3, as amended: when at least one attempt is allowed, the remote
    job exits with a non-zero code on every attempt and the output of
    every attempt can be appended to the log of the box, the box is
    attempted exactly [max_retries] times (attempts 1, 2, ...,
    [max_retries]) and ends in status "failed". *)
Theorem always_failing_box_fails_after_max_retries self w bn bh bid :
  1 <= max_retries self ->
  (forall k, 1 <= k <= max_retries self ->
     exists rc out err, run_ssh w k = Completed rc out err /\ rc <> 0) ->
  (forall k, 1 <= k <= max_retries self -> log_append w k = None) ->
  runs (trace (worker self w bn bh bid)) = attempt_numbers (max_retries self)
  /\ attempts (box (worker self w bn bh bid)) = max_retries self
  /\ status (box (worker self w bn bh bid)) = "failed".
Proof.
  intros HR Hfail Hlogged.
  destruct (worker_done self w bn bh bid) as [[_ Hrange] Hruns _ Hst _ _ _ _ _ _ _ _].
  destruct Hst as [[_ [H0 _]]|[H1 [Hfin _]]]; [lia|].
  assert (Ha : 1 <= attempts (box (worker self w bn bh bid)) <= max_retries self) by lia.
  destruct (Hfail _ Ha) as [rc [out [err [Hout Hrc]]]].
  unfold final_status in Hfin.
  rewrite (attempt_outcome_logged w _ (Hlogged _ Ha)), Hout in Hfin.
  apply Z.eqb_neq in Hrc. rewrite Hrc in Hfin.
  destruct Hfin as [Heq [Hstat _]].
  rewrite Hruns, Heq. auto.
Qed.

Lemma always_failing_box_fails_after_max_retries_witness :
  runs (trace (worker (deployer 2 3) always_exit_1 "goad-1" "10.0.1.5" 1)) = [1; 2; 3]
  /\ attempts (box (worker (deployer 2 3) always_exit_1 "goad-1" "10.0.1.5" 1)) = 3
  /\ status (box (worker (deployer 2 3) always_exit_1 "goad-1" "10.0.1.5" 1)) = "failed".
Proof.
  apply (always_failing_box_fails_after_max_retries
           (deployer 2 3) always_exit_1 "goad-1" "10.0.1.5" 1).
  - simpl. lia.
  - intros k _. exists 1, "", "fatal: provisioning failed".
    split; [reflexivity | discriminate].
  - intros k _. reflexivity.
Defined.

(** C3, as stated, fails for [--retries 0]: the job would exit with 1 on
    every attempt, yet the box is never attempted and is left "pending",
    not "failed". *)
Lemma always_failing_box_zero_retries_stays_pending :
  (forall k, exists rc out err,
      run_ssh always_exit_1 k = Completed rc out err /\ rc <> 0)
  /\ runs (trace (worker (deployer 2 0) always_exit_1 "goad-1" "10.0.1.5" 1)) = []
  /\ status (box (worker (deployer 2 0) always_exit_1 "goad-1" "10.0.1.5" 1)) = "pending"
  /\ status (box (worker (deployer 2 0) always_exit_1 "goad-1" "10.0.1.5" 1)) <> "failed".
Proof.
  split.
  - intros k. exists 1, "", "fatal: provisioning failed".
    split; [reflexivity | discriminate].
  - vm_compute. repeat split. discriminate.
Qed.

(** C3, as stated, fails as well for a box whose log file cannot be
    opened, whatever [--retries] is: the first attempt exits with 1, the
    append of its output raises, the outer handler sets "error", and no
    second attempt is made. *)
Lemma always_failing_box_without_log_ends_error :
  (forall k, exists rc out err,
      run_ssh (no_log always_exit_1) k = Completed rc out err /\ rc <> 0)
  /\ runs (trace (worker (deployer 2 3) (no_log always_exit_1) "lab/goad-1" "10.0.1.5" 1))
     = [1]
  /\ status (box (worker (deployer 2 3) (no_log always_exit_1) "lab/goad-1" "10.0.1.5" 1))
     = "error".
Proof.
  split.
  - intros k. exists 1, "", "fatal: provisioning failed".
    split; [reflexivity | discriminate].
  - vm_compute. split; reflexivity.
Qed.

(** C4, as amended: when at least one attempt is allowed, the remote
    job raises [TimeoutExpired] on every attempt and every timeout can
    be recorded in the log of the box, the box is attempted exactly
    [max_retries] times and ends in status "timeout", not "failed". *)
Theorem always_timing_out_box_times_out_after_max_retries self w bn bh bid :
  1 <= max_retries self ->
  (forall k, 1 <= k <= max_retries self -> run_ssh w k = TimeoutExpired) ->
  (forall k, 1 <= k <= max_retries self -> log_append w k = None) ->
  runs (trace (worker self w bn bh bid)) = attempt_numbers (max_retries self)
  /\ attempts (box (worker self w bn bh bid)) = max_retries self
  /\ status (box (worker self w bn bh bid)) = "timeout"
  /\ status (box (worker self w bn bh bid)) <> "failed".
Proof.
  intros HR Hto Hlogged.
  destruct (worker_done self w bn bh bid) as [[_ Hrange] Hruns _ Hst _ _ _ _ _ _ _ _].
  destruct Hst as [[_ [H0 _]]|[H1 [Hfin _]]]; [lia|].
  assert (Ha : 1 <= attempts (box (worker self w bn bh bid)) <= max_retries self) by lia.
  unfold final_status in Hfin.
  rewrite (attempt_outcome_logged w _ (Hlogged _ Ha)), (Hto _ Ha) in Hfin.
  destruct Hfin as [Heq Hstat].
  rewrite Hruns, Heq, Hstat. repeat split. discriminate.
Qed.

Lemma always_timing_out_box_times_out_after_max_retries_witness :
  runs (trace (worker (deployer 2 3) always_timeout "goad-1" "10.0.1.5" 1)) = [1; 2; 3]
  /\ attempts (box (worker (deployer 2 3) always_timeout "goad-1" "10.0.1.5" 1)) = 3
  /\ status (box (worker (deployer 2 3) always_timeout "goad-1" "10.0.1.5" 1)) = "timeout"
  /\ status (box (worker (deployer 2 3) always_timeout "goad-1" "10.0.1.5" 1)) <> "failed".
Proof.
  apply (always_timing_out_box_times_out_after_max_retries
           (deployer 2 3) always_timeout "goad-1" "10.0.1.5" 1).
  - simpl. lia.
  - intros k _. reflexivity.
  - intros k _. reflexivity.
Defined.

(** C4, as stated, fails for [--retries 0]: the job would time out on
    every attempt, yet the box is never attempted and is left "pending",
    not "timeout". *)
Lemma always_timing_out_box_zero_retries_stays_pending :
  (forall k, run_ssh always_timeout k = TimeoutExpired)
  /\ runs (trace (worker (deployer 2 0) always_timeout "goad-1" "10.0.1.5" 1)) = []
  /\ status (box (worker (deployer 2 0) always_timeout "goad-1" "10.0.1.5" 1)) = "pending"
  /\ status (box (worker (deployer 2 0) always_timeout "goad-1" "10.0.1.5" 1)) <> "timeout".
Proof.
  split; [intros k; reflexivity|].
  vm_compute. repeat split. discriminate.
Qed.

(** C4, as stated, fails as well for a box whose log file cannot be
    opened: the first attempt times out, recording the timeout raises
    inside the handler, the outer handler sets "error", and no second
    attempt is made. *)
Lemma always_timing_out_box_without_log_ends_error :
  (forall k, run_ssh (no_log always_timeout) k = TimeoutExpired)
  /\ runs (trace (worker (deployer 2 3) (no_log always_timeout) "lab/goad-1" "10.0.1.5" 1))
     = [1]
  /\ status (box (worker (deployer 2 3) (no_log always_timeout) "lab/goad-1" "10.0.1.5" 1))
     = "error".
Proof.
  split; [intros k; reflexivity|].
  vm_compute. split; reflexivity.
Qed.

(** C5, as amended: when at least one attempt is allowed and the first
    [subprocess.run] of a box raises an exception other than
    [TimeoutExpired], that attempt is the only one: the box is not
    retried and ends in status "error", however many attempts
    [max_retries] allows. *)
Theorem invocation_error_is_not_retried self w bn bh bid msg :
  1 <= max_retries self ->
  run_ssh w 1 = OtherException msg ->
  runs (trace (worker self w bn bh bid)) = [1]
  /\ attempts (box (worker self w bn bh bid)) = 1
  /\ status (box (worker self w bn bh bid)) = "error".
Proof.
  intros HR Hexc.
  pose proof (attempt_outcome_run w 1 msg Hexc) as Hout.
  destruct (worker_done self w bn bh bid) as [_ Hruns Hbefore Hst _ _ _ _ _ _ _ _].
  destruct Hst as [[_ [H0 _]]|[H1 [Hfin _]]]; [lia|].
  assert (Ha : attempts (box (worker self w bn bh bid)) = 1).
  { destruct (Z.eq_dec (attempts (box (worker self w bn bh bid))) 1) as [E|E]; [exact E|].
    exfalso. assert (H2 : 1 <= 1 < attempts (box (worker self w bn bh bid))) by lia.
    pose proof (Hbefore 1 H2) as Hr. rewrite Hout in Hr. exact Hr. }
  rewrite Hruns, Ha. repeat split.
  unfold final_status in Hfin. rewrite Ha, Hout in Hfin. exact Hfin.
Qed.

Lemma invocation_error_is_not_retried_witness :
  runs (trace (worker (deployer 2 3) no_sshpass "goad-1" "10.0.1.5" 1)) = [1]
  /\ attempts (box (worker (deployer 2 3) no_sshpass "goad-1" "10.0.1.5" 1)) = 1
  /\ status (box (worker (deployer 2 3) no_sshpass "goad-1" "10.0.1.5" 1)) = "error".
Proof.
  apply (invocation_error_is_not_retried (deployer 2 3) no_sshpass
           "goad-1" "10.0.1.5" 1 "No such file or directory: 'sshpass'").
  - simpl. lia.
  - reflexivity.
Defined.

(** C5, as stated, fails for [--retries 0]: the invocation would raise,
    yet the box is never attempted and is left "pending", not
    "error". *)
Lemma invocation_error_zero_retries_stays_pending :
  run_ssh no_sshpass 1 = OtherException "No such file or directory: 'sshpass'"
  /\ runs (trace (worker (deployer 2 0) no_sshpass "goad-1" "10.0.1.5" 1)) = []
  /\ attempts (box (worker (deployer 2 0) no_sshpass "goad-1" "10.0.1.5" 1)) = 0
  /\ status (box (worker (deployer 2 0) no_sshpass "goad-1" "10.0.1.5" 1)) = "pending"
  /\ status (box (worker (deployer 2 0) no_sshpass "goad-1" "10.0.1.5" 1)) <> "error".
Proof.
  split; [reflexivity|].
  vm_compute. repeat split. discriminate.
Qed.

(** A pass whose command exits with a non-zero code and is logged,
    while another attempt is allowed, sleeps and goes round again; the
    status it leaves is the "running" assigned at its start, the only
    status it assigns is that "running", and when it releases the lock
    the box can be read with that status and with [end_time] set. *)
Lemma failed_attempt_leaves_running self w a s th rc out err :
  run_ssh w a = Completed rc out err -> rc <> 0 -> log_append w a = None ->
  a < max_retries self ->
  exists th',
    attempt_body self w a s th = (Normal s, th')
    /\ status (box th') = "running"
    /\ status_writes (trace th') = (status_writes (trace th) ++ ["running"])%list
    /\ attempts (box th') = a
    /\ end_time (box th') <> None
    /\ In (box th') (visibles (trace th')).
Proof.
  intros Hout Hrc Happ Hlt.
  apply Z.eqb_neq in Hrc. apply Z.ltb_lt in Hlt.
  rewrite attempt_body_eq, Hout, Happ.
  destruct (begin_attempt_spec w a th) as [t0 [Hb1 [Htr1 _]]].
  destruct (begin_attempt w a th) as [b1 k1 tr1].
  cbv zeta in Hb1, Htr1. simpl in Hb1, Htr1. subst b1 tr1.
  unfold on_completed, datetime_now, publish, assign_status, emit, update.
  cbn [box ticks trace]. rewrite Hrc, Hlt. cbn [box ticks trace].
  eexists. split; [reflexivity|]. cbn [box trace]. split; [reflexivity|].
  split; [rewrite <- !app_assoc, status_writes_app; reflexivity|].
  split; [reflexivity|]. split; [discriminate|].
  rewrite visibles_app. apply in_or_app. right. left. reflexivity.
Qed.

(** C6, as amended: the statuses a worker assigns are "running", once
    per attempt, followed by at most one terminal status.  The status
    "retrying" is never assigned: after a non-zero exit with attempts
    left the box stays "running" until the next attempt assigns
    "running" again, and every state of the box that can be read is
    "pending", "running", "success", "failed", "timeout" or "error". *)
Theorem retry_keeps_status_running self w bn bh bid :
  status_writes (trace (worker self w bn bh bid)) =
    (repeat "running" (List.length (runs (trace (worker self w bn bh bid))))
     ++ (if terminal (status (box (worker self w bn bh bid)))
         then [status (box (worker self w bn bh bid))] else []))%list
  /\ ~ In "retrying" (status_writes (trace (worker self w bn bh bid)))
  /\ Forall known_status
       (observations (DeploymentBox_init bn bh bid) (worker self w bn bh bid)).
Proof.
  destruct (worker_done self w bn bh bid) as [_ Hruns _ _ _ Hwrites _ Hknown _ _ _ _].
  assert (Hw : status_writes (trace (worker self w bn bh bid)) =
    (repeat "running" (List.length (runs (trace (worker self w bn bh bid))))
     ++ (if terminal (status (box (worker self w bn bh bid)))
         then [status (box (worker self w bn bh bid))] else []))%list).
  { rewrite Hwrites, Hruns, attempt_numbers_length. reflexivity. }
  split; [exact Hw|]. split.
  - rewrite Hw. intros Hin. apply in_app_or in Hin. destruct Hin as [Hin|Hin].
    + apply repeat_spec in Hin. discriminate.
    + destruct (terminal (status (box (worker self w bn bh bid)))) eqn:Ht;
        [|contradiction].
      destruct Hin as [E|[]]. rewrite E in Ht. discriminate.
  - unfold observations. constructor; [|exact Hknown].
    unfold known_status. simpl. auto.
Qed.

(** C6, as stated, fails: with two attempts allowed and a job that exits
    with 1, the first attempt ends with a non-zero code while
    [attempt < max_retries], and the status goes "running", "running",
    "failed"; no readable state of the box is ever "retrying". *)
Lemma failed_attempt_never_sets_retrying :
  run_ssh always_exit_1 1 = Completed 1 "" "fatal: provisioning failed"
  /\ 1 < max_retries (deployer 2 2)
  /\ status_writes (trace (worker (deployer 2 2) always_exit_1 "goad-1" "10.0.1.5" 1))
     = ["running"; "running"; "failed"]
  /\ ~ In "retrying"
        (map status (observations (DeploymentBox_init "goad-1" "10.0.1.5" 1)
                       (worker (deployer 2 2) always_exit_1 "goad-1" "10.0.1.5" 1))).
Proof.
  split; [reflexivity|]. split; [reflexivity|]. split; [reflexivity|].
  vm_compute. intros H.
  repeat (destruct H as [H|H]; [discriminate H|]). exact H.
Qed.

(** *** Retried attempts

    What can be read of the box after an attempt that is retried. *)

Section RetriedAttempts.

Variable self : GOADDeployer.
Variable w : World.

(** A pass only adds to the trace, and leaves [attempts] at its
    number. *)
Lemma attempt_body_extends a s th :
  (exists l, trace (snd (attempt_body self w a s th)) = (trace th ++ l)%list)
  /\ attempts (box (snd (attempt_body self w a s th))) = a.
Proof.
  rewrite attempt_body_eq.
  destruct (begin_attempt_spec w a th) as [t0 [Hb1 [Htr1 _]]].
  destruct (begin_attempt w a th) as [b1 k1 tr1].
  cbv zeta in Hb1, Htr1. simpl in Hb1, Htr1. subst b1 tr1.
  unfold on_completed, on_timeout, with_lock, datetime_now, publish,
    assign_status, emit, update.
  destruct (run_ssh w a) as [rc out err| |msg];
    [destruct (log_append w a)|destruct (log_append w a)|];
    cbn [box ticks trace snd];
    try destruct (rc =? 0); try destruct (a <? max_retries self);
    cbn [box ticks trace snd fst];
    (split; [rewrite <- ?app_assoc; eexists; reflexivity | reflexivity]).
Qed.

Lemma seen_running_ended_app j tr l :
  seen_running_ended j tr -> seen_running_ended j (tr ++ l).
Proof.
  intros [b [Hin Hb]]. exists b. split; [|exact Hb].
  rewrite visibles_app. apply in_or_app. left. exact Hin.
Qed.

(** The thread at the head of the loop after [a] passes: every retried
    attempt so far has left its trace. *)
Definition RetriedSeen (a : Z) (s : bool) (th : Th) : Prop :=
  attempts (box th) = a
  /\ forall j, 1 <= j <= a -> retried self w j -> seen_running_ended j (trace th).

Definition RetriedSeenExc (th : Th) : Prop :=
  forall j, 1 <= j <= attempts (box th) -> retried self w j ->
            seen_running_ended j (trace th).

Lemma attempt_body_retried_seen a s th :
  RetriedSeen a s th -> a < max_retries self -> s = false ->
  match attempt_body self w (a + 1) s th with
  | (Normal s', th') => RetriedSeen (a + 1) s' th'
  | (Raised _, th') => RetriedSeenExc th'
  end.
Proof.
  intros [Hatt Hseen] Hlt ->.
  destruct (attempt_body_extends (a + 1) false th) as [[l Hl] Hatt'].
  assert (Hold : forall j, 1 <= j <= a -> retried self w j ->
            seen_running_ended j (trace (snd (attempt_body self w (a + 1) false th)))).
  { intros j Hj Hr. rewrite Hl. apply seen_running_ended_app. exact (Hseen j Hj Hr). }
  assert (Hnew : retried self w (a + 1) ->
            exists th', attempt_body self w (a + 1) false th = (Normal false, th')
                        /\ seen_running_ended (a + 1) (trace th')).
  { intros [Hmore [Happ [rc [out [err [Hrun Hrc]]]]]].
    destruct (failed_attempt_leaves_running self w (a + 1) false th rc out err
                Hrun Hrc Happ Hmore)
      as [th' [Hbody [Hst [_ [Ha [Hend Hin]]]]]].
    exists th'. split; [exact Hbody|]. exists (box th'). auto. }
  destruct (attempt_body self w (a + 1) false th) as [[s'|msg] th'] eqn:Hbody;
    cbn [snd] in *.
  - split; [exact Hatt'|]. intros j Hj Hr.
    destruct (Z.eq_dec j (a + 1)) as [->|Hne]; [|apply Hold; [lia | exact Hr]].
    destruct (Hnew Hr) as [th'' [E Hs]]. injection E as _ <-. exact Hs.
  - intros j Hj Hr. rewrite Hatt' in Hj.
    destruct (Z.eq_dec j (a + 1)) as [->|Hne]; [|apply Hold; [lia | exact Hr]].
    destruct (Hnew Hr) as [th'' [E _]]. discriminate E.
Qed.

End RetriedAttempts.

(** Every retried attempt of a worker leaves a state of the box that
    can be read with status "running" and [end_time] set. *)
Lemma retried_attempts_seen self w bn bh bid j :
  1 <= j <= attempts (box (worker self w bn bh bid)) ->
  retried self w j ->
  seen_running_ended j (trace (worker self w bn bh bid)).
Proof.
  unfold worker. rewrite deploy_goad_on_box_eq.
  assert (Hentry : RetriedSeen self w 0 false (loop_entry self w bn bh bid))
    by (split; [reflexivity | intros k Hk; lia]).
  pose proof (while_loop_rule self w (RetriedSeen self w) (RetriedSeenExc self w)
                (attempt_body_retried_seen self w) 0 false
                (loop_entry self w bn bh bid) Hentry) as Hloop.
  destruct (while_loop self w 0 false (loop_entry self w bn bh bid)) as [[s|msg] th].
  - destruct Hloop as [a [[Hatt Hseen] _]].
    unfold emit. cbn [box trace]. intros Hj Hr.
    apply seen_running_ended_app. apply Hseen; [lia | exact Hr].
  - unfold on_exception, with_lock, publish, assign_status, datetime_now, emit, update.
    cbn [box trace attempts set_end_time set_status]. intros Hj Hr.
    rewrite <- !app_assoc. apply seen_running_ended_app.
    exact (Hloop j Hj Hr).
Qed.

(** C7, as amended: in every state of the box that can be read with the
    lock free, a terminal status comes with [end_time] set.  The
    converse fails after every attempt that is retried because its
    command returned a non-zero code (and was logged): when that
    attempt releases the lock, the box can be read with the status
    "running", which is not terminal, and with [end_time] set. *)
Theorem terminal_status_has_end_time self w bn bh bid :
  (forall b,
     In b (observations (DeploymentBox_init bn bh bid) (worker self w bn bh bid)) ->
     terminal (status b) = true -> end_time b <> None)
  /\ (forall j rc out err,
        1 <= j <= attempts (box (worker self w bn bh bid)) ->
        j < max_retries self ->
        run_ssh w j = Completed rc out err -> rc <> 0 ->
        log_append w j = None ->
        exists b,
          In b (observations (DeploymentBox_init bn bh bid) (worker self w bn bh bid))
          /\ attempts b = j
          /\ status b = "running" /\ terminal (status b) = false
          /\ end_time b <> None).
Proof.
  split.
  - intros b Hin.
    destruct (worker_done self w bn bh bid) as [_ _ _ _ _ _ Hobs _ _ _ _ _].
    unfold observations in Hin. destruct Hin as [<-|Hin].
    + simpl. discriminate.
    + rewrite Forall_forall in Hobs. exact (Hobs b Hin).
  - intros j rc out err Hj Hmore Hrun Hrc Happ.
    destruct (retried_attempts_seen self w bn bh bid j Hj) as [b [Hin [Ha [Hs He]]]].
    + split; [exact Hmore|]. split; [exact Happ|]. exists rc, out, err. auto.
    + exists b. split; [right; exact Hin|]. rewrite Hs. auto.
Qed.

Lemma terminal_status_has_end_time_witness :
  end_time (box (worker (deployer 2 2) always_exit_1 "goad-1" "10.0.1.5" 1)) <> None
  /\ exists b,
       In b (observations (DeploymentBox_init "goad-1" "10.0.1.5" 1)
               (worker (deployer 2 2) always_exit_1 "goad-1" "10.0.1.5" 1))
       /\ attempts b = 1
       /\ status b = "running" /\ terminal (status b) = false
       /\ end_time b <> None.
Proof.
  destruct (terminal_status_has_end_time (deployer 2 2) always_exit_1
              "goad-1" "10.0.1.5" 1) as [Hterminal Hretried].
  split.
  - apply Hterminal.
    + vm_compute. do 7 right. left. reflexivity.
    + reflexivity.
  - apply (Hretried 1 1 "" "fatal: provisioning failed").
    + vm_compute. split; discriminate.
    + reflexivity.
    + reflexivity.
    + discriminate.
    + reflexivity.
Defined.

(** C7, as stated, fails: after a first attempt that exits with 1 and
    will be retried, the box can be read with status "running", which is
    not terminal, and with [end_time] set. *)
Lemma end_time_set_while_running :
  exists b,
    In b (observations (DeploymentBox_init "goad-1" "10.0.1.5" 1)
            (worker (deployer 2 2) always_exit_1 "goad-1" "10.0.1.5" 1))
    /\ status b = "running"
    /\ terminal (status b) = false
    /\ end_time b = Some 2.
Proof.
  eexists. split.
  - vm_compute. do 4 right. left. reflexivity.
  - repeat split.
Qed.

(** ** Counting statuses *)

Lemma py_sum_cons x l : py_sum (x :: l) = x + py_sum l.
Proof.
  unfold py_sum. simpl.
  enough (H : forall l a b, fold_left Z.add l (a + b) = a + fold_left Z.add l b)
    by (rewrite <- H; f_equal; lia).
  clear. induction l as [|y l IH]; intros a b; simpl; [reflexivity|].
  rewrite <- IH. f_equal. lia.
Qed.

Lemma count_status_nil s : count_status s [] = 0.
Proof. reflexivity. Qed.

Lemma count_status_cons s b l :
  count_status s (b :: l) =
  (if String.eqb (status b) s then 1 else 0) + count_status s l.
Proof.
  unfold count_status. simpl.
  destruct (String.eqb (status b) s); simpl; [apply py_sum_cons | reflexivity].
Qed.

Lemma count_status_nonneg s l : 0 <= count_status s l.
Proof.
  induction l as [|b l IH]; [rewrite count_status_nil; lia|].
  rewrite count_status_cons. destruct (String.eqb (status b) s); lia.
Qed.

Lemma count_status_pos s b l :
  In b l -> status b = s -> 0 < count_status s l.
Proof.
  intros Hin Hs. induction l as [|b' l IH]; [contradiction|].
  rewrite count_status_cons. pose proof (count_status_nonneg s l) as Hn.
  destruct Hin as [->|Hin].
  - rewrite Hs, String.eqb_refl. lia.
  - specialize (IH Hin). destruct (String.eqb (status b') s); lia.
Qed.

(** The four counts of [print_summary] partition a list of boxes whose
    statuses are all terminal. *)
Lemma counts_partition l :
  Forall (fun b => terminal (status b) = true) l ->
  success_count l + failed_count l + timeout_count l + error_count l
  = Z.of_nat (List.length l).
Proof.
  unfold success_count, failed_count, timeout_count, error_count.
  induction 1 as [|b l Hb _ IH]; [reflexivity|].
  rewrite !count_status_cons.
  change (List.length (b :: l)) with (S (List.length l)).
  rewrite Nat2Z.inj_succ, <- IH.
  unfold terminal in Hb.
  destruct (String.eqb (status b) "success") eqn:E1,
           (String.eqb (status b) "failed") eqn:E2,
           (String.eqb (status b) "timeout") eqn:E3,
           (String.eqb (status b) "error") eqn:E4;
    try discriminate Hb; try lia;
    rewrite ?String.eqb_eq in *; congruence.
Qed.

(** ** The run as a whole *)

(** A pre-stage failed: its command returned a non-zero code, timed
    out, or could not be run. *)
Definition stage_failed (o : StageOutcome) : Prop :=
  match o with
  | StageReturned rc => rc <> 0
  | StageTimeout | StageNotFound | StageException => True
  end.

Definition box_of_entry (e : string * string * Z) : DeploymentBox :=
  DeploymentBox_init (fst (fst e)) (snd (fst e)) (snd e).

(** The three pre-stages with their outcomes, in the order of
    [deploy_all]. *)
Definition stages_of (env : RunEnv) : list (Stage * StageOutcome) :=
  [ (ActivateWindows, stage_outcome env ActivateWindows);
    (PrepareKali, stage_outcome env PrepareKali);
    (PrepareDeployment, stage_outcome env PrepareDeployment) ].

Lemma activate_windows_hosts_returns o : activate_windows_hosts o = Return true.
Proof. destruct o as [rc| | |]; simpl; [destruct (rc =? 0)|..]; reflexivity. Qed.

Lemma prepare_kali_boxes_returns o : prepare_kali_boxes o = Return true.
Proof. destruct o as [rc| | |]; simpl; [destruct (rc =? 0)|..]; reflexivity. Qed.

Lemma prepare_deployment_boxes_spec o :
  (o = StageReturned 0 /\ prepare_deployment_boxes o = Return true)
  \/ (stage_failed o /\ prepare_deployment_boxes o = SysExit 1).
Proof.
  destruct o as [rc| | |]; simpl; auto.
  destruct (rc =? 0) eqn:Hrc.
  - left. apply Z.eqb_eq in Hrc. subst rc. auto.
  - right. apply Z.eqb_neq in Hrc. auto.
Qed.

(** The five ways a run can go. *)
Inductive RunShape (self : GOADDeployer) (env : RunEnv) : Run -> Prop :=
| shape_no_inventory :
    inventory env = InvNotFound \/ inventory env = InvFailure ->
    RunShape self env (mkRun [] [] None [] (Some 1))
| shape_no_boxes :
    inventory env = InvParsed [] ->
    RunShape self env (mkRun [] [] None [] (Some 0))
| shape_aborted : forall entries,
    inventory env = InvParsed entries -> entries <> [] ->
    stage_failed (stage_outcome env PrepareDeployment) ->
    RunShape self env (mkRun (stages_of env) [] None [] (Some 1))
| shape_blocked : forall entries,
    inventory env = InvParsed entries -> entries <> [] ->
    stage_outcome env PrepareDeployment = StageReturned 0 ->
    max_threads self = 0%nat ->
    RunShape self env (mkRun (stages_of env) (map box_of_entry entries) None [] None)
| shape_joined : forall entries,
    inventory env = InvParsed entries -> entries <> [] ->
    stage_outcome env PrepareDeployment = StageReturned 0 ->
    max_threads self <> 0%nat ->
    RunShape self env
      (mkRun (stages_of env) (map box_of_entry entries)
             (Some (fan_out self env 0 (map box_of_entry entries)))
             (print_summary self
                (map box (fan_out self env 0 (map box_of_entry entries)))
                (wall_clock env))
             (Some 0)).

Lemma deploy_all_shape self env : RunShape self env (deploy_all self env).
Proof.
  unfold deploy_all.
  destruct (inventory env) as [entries| |] eqn:Hinv; simpl;
    [|apply shape_no_inventory; auto..].
  destruct entries as [|e entries]; simpl; [apply shape_no_boxes; assumption|].
  rewrite activate_windows_hosts_returns, prepare_kali_boxes_returns.
  destruct (prepare_deployment_boxes_spec (stage_outcome env PrepareDeployment))
    as [[Hok ->]|[Hfail ->]].
  - destruct (max_threads self) eqn:HK.
    + apply (shape_blocked self env (e :: entries)); auto. discriminate.
    + apply (shape_joined self env (e :: entries)); auto. discriminate.
      rewrite HK. discriminate.
  - apply (shape_aborted self env (e :: entries)); auto. discriminate.
Qed.

Lemma fan_out_length self env i boxes :
  List.length (fan_out self env i boxes) = List.length boxes.
Proof.
  revert i. induction boxes as [|b boxes IH]; intros i; simpl; [reflexivity|].
  rewrite IH. reflexivity.
Qed.

(** Every worker of the fan-out is the worker of some inventory entry
    in some world. *)
Lemma fan_out_workers self env entries i th :
  In th (fan_out self env i (map box_of_entry entries)) ->
  exists j bn bh bid, th = worker self (world_of env j) bn bh bid.
Proof.
  revert i. induction entries as [|[[bn bh] bid] entries IH]; intros i Hin;
    simpl in Hin; [contradiction|].
  destruct Hin as [<-|Hin].
  - exists i, bn, bh, bid. reflexivity.
  - exact (IH (S i) Hin).
Qed.

(** A sample environment: the given inventory and outcome of the
    critical stage, every other stage succeeding, every box in world
    [w]. *)
Definition sample_env (inv : InventoryRead) (prep : StageOutcome) (w : World) : RunEnv :=
  mkRunEnv inv
           (fun st => match st with
                      | PrepareDeployment => prep
                      | _ => StageReturned 0
                      end)
           (fun _ => w) 60.

Definition one_box : InventoryRead := InvParsed [("goad-1", "10.0.1.5", 1)].

(** C2, as amended: when at least one attempt is allowed, after the
    joins of a completed run every box has status "success", "failed",
    "timeout" or "error", there is one worker per box, and the four
    counts of the summary add up to the number of boxes. *)
Theorem completed_run_counts_are_exhaustive self env workers :
  1 <= max_retries self ->
  joined (deploy_all self env) = Some workers ->
  Forall (fun th => terminal (status (box th)) = true) workers
  /\ List.length workers = List.length (started (deploy_all self env))
  /\ success_count (map box workers) + failed_count (map box workers)
     + timeout_count (map box workers) + error_count (map box workers)
     = Z.of_nat (List.length (started (deploy_all self env))).
Proof.
  intros HR Hj.
  destruct (deploy_all_shape self env) as [ | | | |entries Hinv Hne Hok HK];
    simpl in Hj; try discriminate Hj.
  injection Hj as <-. simpl.
  assert (Hterm : Forall (fun th => terminal (status (box th)) = true)
                    (fan_out self env 0 (map box_of_entry entries))).
  { apply Forall_forall. intros th Hin.
    destruct (fan_out_workers self env entries 0 th Hin) as [j [bn [bh [bid ->]]]].
    apply worker_terminal. assumption. }
  split; [exact Hterm|]. split; [apply fan_out_length|].
  rewrite counts_partition.
  - rewrite length_map, fan_out_length. reflexivity.
  - apply Forall_map. exact Hterm.
Qed.

Lemma completed_run_counts_are_exhaustive_witness :
  exists workers,
    joined (deploy_all (deployer 2 3) (sample_env one_box (StageReturned 0) always_exit_1))
      = Some workers
    /\ Forall (fun th => terminal (status (box th)) = true) workers
    /\ success_count (map box workers) + failed_count (map box workers)
       + timeout_count (map box workers) + error_count (map box workers) = 1.
Proof.
  eexists. split; [reflexivity|].
  pose proof (completed_run_counts_are_exhaustive
                (deployer 2 3) (sample_env one_box (StageReturned 0) always_exit_1)
                _ ltac:(simpl; lia) eq_refl) as [Hterm [_ Hsum]].
  split; [exact Hterm | exact Hsum].
Defined.

(** C2, as stated, fails for [--retries 0]: the run completes, the one
    box is still "pending" after the joins, and the four counts add up
    to 0, not to 1. *)
Lemma completed_run_zero_retries_leaves_pending :
  exists th,
    joined (deploy_all (deployer 2 0) (sample_env one_box (StageReturned 0) always_exit_1))
      = Some [th]
    /\ exit_code (deploy_all (deployer 2 0)
                    (sample_env one_box (StageReturned 0) always_exit_1)) = Some 0
    /\ status (box th) = "pending"
    /\ success_count [box th] + failed_count [box th]
       + timeout_count [box th] + error_count [box th] = 0.
Proof.
  eexists. split; [reflexivity|]. vm_compute. repeat split.
Qed.

(** C8: if the critical stage [prepare_deployment_boxes] is run and its
    playbook returns a non-zero code, times out or cannot be run, then
    no worker thread is started and the process exits with code 1. *)
Theorem critical_stage_failure_aborts_run self env o :
  In (PrepareDeployment, o) (stages_run (deploy_all self env)) ->
  stage_failed o ->
  started (deploy_all self env) = []
  /\ joined (deploy_all self env) = None
  /\ exit_code (deploy_all self env) = Some 1.
Proof.
  intros Hin Hfail.
  assert (Ho : In (PrepareDeployment, o) (stages_of env) ->
               o = stage_outcome env PrepareDeployment).
  { intros H. unfold stages_of in H.
    destruct H as [H|[H|[H|[]]]]; try discriminate H.
    injection H as <-. reflexivity. }
  destruct (deploy_all_shape self env) as [ | | |entries Hinv Hne Hok HK|entries Hinv Hne Hok HK];
    simpl in *; try contradiction.
  - repeat split.
  - rewrite (Ho Hin), Hok in Hfail. simpl in Hfail. contradiction.
  - rewrite (Ho Hin), Hok in Hfail. simpl in Hfail. contradiction.
Qed.

Lemma critical_stage_failure_aborts_run_witness :
  started (deploy_all (deployer 2 3) (sample_env one_box (StageReturned 2) always_exit_1)) = []
  /\ joined (deploy_all (deployer 2 3) (sample_env one_box (StageReturned 2) always_exit_1)) = None
  /\ exit_code (deploy_all (deployer 2 3) (sample_env one_box (StageReturned 2) always_exit_1)) = Some 1.
Proof.
  apply (critical_stage_failure_aborts_run (deployer 2 3)
           (sample_env one_box (StageReturned 2) always_exit_1) (StageReturned 2)).
  - vm_compute. right. right. left. reflexivity.
  - simpl. discriminate.
Defined.

(** The exit code once [deploy_all] is reached: 0 or 1, and 1 exactly
    when the inventory file is missing or cannot be parsed, or the
    critical stage was run and failed. *)
Lemma exit_code_of_deploy_all self env c :
  exit_code (deploy_all self env) = Some c ->
  (c = 0 \/ c = 1)
  /\ (c = 1 <->
        inventory env = InvNotFound \/ inventory env = InvFailure
        \/ exists o, In (PrepareDeployment, o) (stages_run (deploy_all self env))
                     /\ stage_failed o)
  /\ (forall workers, joined (deploy_all self env) = Some workers -> c = 0).
Proof.
  intros Hc.
  assert (Hprep : forall o, In (PrepareDeployment, o) (stages_of env) ->
                            o = stage_outcome env PrepareDeployment).
  { intros o H. unfold stages_of in H.
    destruct H as [H|[H|[H|[]]]]; try discriminate H.
    injection H as <-. reflexivity. }
  destruct (deploy_all_shape self env)
    as [Hinv|Hinv|entries Hinv Hne Hfail|entries Hinv Hne Hok HK|entries Hinv Hne Hok HK];
    simpl in *; try discriminate Hc; injection Hc as <-.
  - split; [auto|]. split; [|intros workers H; discriminate H].
    split; [intros _; tauto | intros _; reflexivity].
  - split; [auto|]. split; [|reflexivity].
    split; [intros H; discriminate H|].
    rewrite Hinv. intros [H|[H|[o [[] _]]]]; discriminate H.
  - split; [auto|]. split; [|intros workers H; discriminate H].
    split; [|intros _; reflexivity].
    intros _. right. right. exists (stage_outcome env PrepareDeployment).
    split; [|assumption]. unfold stages_of. simpl. auto.
  - split; [auto|]. split; [|reflexivity].
    split; [intros H; discriminate H|].
    rewrite Hinv. intros [H|[H|[o [Hin Hfail]]]]; try discriminate H.
    rewrite (Hprep o Hin), Hok in Hfail. simpl in Hfail. contradiction.
Qed.

(** The constructor raises exactly when [--threads] is negative, or the
    log directory or the log file of the run cannot be created. *)
Lemma GOADDeployer_init_spec threads retries dir os :
  (GOADDeployer_init threads retries dir os
     = Fine (mkDeployer (Z.to_nat threads) retries dir)
   /\ 0 <= threads /\ mkdir_log_dir os = None /\ open_run_log os = None)
  \/ ((exists msg, GOADDeployer_init threads retries dir os = Uncaught msg)
      /\ (threads < 0 \/ mkdir_log_dir os <> None \/ open_run_log os <> None)).
Proof.
  unfold GOADDeployer_init.
  destruct (threads <? 0) eqn:Hneg.
  - right. apply Z.ltb_lt in Hneg. split; [eexists; reflexivity | auto].
  - apply Z.ltb_ge in Hneg.
    destruct (mkdir_log_dir os) as [m|].
    + right. split; [eexists; reflexivity|]. right. left. discriminate.
    + destruct (open_run_log os) as [m|].
      * right. split; [eexists; reflexivity|]. right. right. discriminate.
      * left. auto.
Qed.

(** Sample command lines and start-ups: the defaults, and a start-up in
    which the log directory and the log file can be created. *)
Definition default_options : CommandLine := Options 10 3 "./logs".

Definition fine_startup : Startup := mkStartup None None.

(** C9, as amended: a process that exits does so with code 0, 1 or 2.
    The code is 2 exactly when [argparse] rejects the command line.  It
    is 1 exactly when the command line is accepted and the deployer
    cannot be constructed ([--threads] is negative, or the log
    directory or the log file of the run cannot be created), or the
    inventory file is missing or cannot be parsed, or the critical
    stage [prepare_deployment_boxes] was run and failed.  A run whose
    workers were all joined exits with 0, whatever became of the
    boxes. *)
Theorem exit_code_of_run cl os env c :
  exit_code (main cl os env) = Some c ->
  (c = 0 \/ c = 1 \/ c = 2)
  /\ (c = 2 <-> cl = Usage)
  /\ (c = 1 <->
        exists threads retries dir,
          cl = Options threads retries dir
          /\ (threads < 0 \/ mkdir_log_dir os <> None \/ open_run_log os <> None
              \/ inventory env = InvNotFound \/ inventory env = InvFailure
              \/ exists o, In (PrepareDeployment, o) (stages_run (main cl os env))
                           /\ stage_failed o))
  /\ (forall workers, joined (main cl os env) = Some workers -> c = 0).
Proof.
  intros Hc. destruct cl as [threads retries dir| |]; cbn [main] in *.
  - destruct (GOADDeployer_init_spec threads retries dir os)
      as [[E [H0 [Hmk Hop]]]|[[msg E] Hraise]]; rewrite E in *; cbn iota in *.
    + destruct (exit_code_of_deploy_all _ env c Hc) as [Hcode [Hone Hjoined]].
      split; [tauto|]. split; [split; [lia | discriminate]|].
      split; [|exact Hjoined].
      rewrite Hone. split.
      * intros H. exists threads, retries, dir. split; [reflexivity|]. tauto.
      * intros [t [r [d [Heq [H|[H|[H|H]]]]]]];
          [injection Heq as <- _ _; lia | contradiction | contradiction | exact H].
    + injection Hc as <-.
      split; [auto|]. split; [split; [lia | discriminate]|].
      split; [|intros workers H; discriminate H].
      split; [|reflexivity]. intros _.
      exists threads, retries, dir. split; [reflexivity|]. tauto.
  - injection Hc as <-.
    split; [auto|]. split; [split; [lia | discriminate]|].
    split; [|reflexivity].
    split; [lia | intros [t [r [d [H _]]]]; discriminate H].
  - injection Hc as <-.
    split; [auto|]. split; [split; reflexivity|].
    split; [|intros workers H; discriminate H].
    split; [lia | intros [t [r [d [H _]]]]; discriminate H].
Qed.

Lemma exit_code_of_run_witness :
  (1 = 0 \/ 1 = 1 \/ 1 = 2)
  /\ (1 = 2 <-> default_options = Usage)
  /\ (1 = 1 <->
        exists threads retries dir,
          default_options = Options threads retries dir
          /\ (threads < 0 \/ mkdir_log_dir fine_startup <> None
              \/ open_run_log fine_startup <> None
              \/ inventory (sample_env one_box StageTimeout always_exit_1) = InvNotFound
              \/ inventory (sample_env one_box StageTimeout always_exit_1) = InvFailure
              \/ exists o,
                   In (PrepareDeployment, o)
                      (stages_run (main default_options fine_startup
                                     (sample_env one_box StageTimeout always_exit_1)))
                   /\ stage_failed o))
  /\ (forall workers,
        joined (main default_options fine_startup
                  (sample_env one_box StageTimeout always_exit_1)) = Some workers ->
        1 = 0).
Proof.
  apply (exit_code_of_run default_options fine_startup
           (sample_env one_box StageTimeout always_exit_1) 1).
  reflexivity.
Defined.

(** C9, as stated, fails when the inventory file is missing: the process
    exits with code 1 although no pre-stage was run at all, so none
    failed, timed out or could not be invoked. *)
Lemma missing_inventory_exits_nonzero :
  exit_code (main default_options fine_startup
               (sample_env InvNotFound (StageReturned 0) always_exit_1)) = Some 1
  /\ stages_run (main default_options fine_startup
                   (sample_env InvNotFound (StageReturned 0) always_exit_1)) = []
  /\ (forall st, stage_outcome (sample_env InvNotFound (StageReturned 0) always_exit_1) st
                 = StageReturned 0).
Proof.
  split; [reflexivity|]. split; [reflexivity|]. intros [| |]; reflexivity.
Qed.

(** C9, as stated, fails as well for [--threads -1]: the constructor
    raises before the inventory is read, and the process exits with
    code 1 without any pre-stage. *)
Lemma negative_threads_exit_nonzero :
  exit_code (main (Options (-1) 3 "./logs") fine_startup
               (sample_env one_box (StageReturned 0) always_exit_1)) = Some 1
  /\ stages_run (main (Options (-1) 3 "./logs") fine_startup
                   (sample_env one_box (StageReturned 0) always_exit_1)) = [].
Proof. split; reflexivity. Qed.

Lemma flat_map_split {A B} (f : A -> list B) (l : list A) (a : A) :
  In a l -> exists pre post, flat_map f l = (pre ++ f a ++ post)%list.
Proof.
  intros Hin. apply in_split in Hin. destruct Hin as [l1 [l2 ->]].
  exists (flat_map f l1), (flat_map f l2).
  rewrite flat_map_app. reflexivity.
Qed.

(** The list of failures is printed as soon as one box is "failed",
    "timeout" or "error". *)
Lemma failures_header_printed b boxes :
  In b boxes -> not_success b = true ->
  (0 <? failed_count boxes) || (0 <? timeout_count boxes)
  || (0 <? error_count boxes) = true.
Proof.
  intros Hin Hns. unfold not_success in Hns.
  unfold failed_count, timeout_count, error_count.
  apply orb_true_iff in Hns. destruct Hns as [Hns|Hns];
    [apply orb_true_iff in Hns; destruct Hns as [Hns|Hns]|];
    apply String.eqb_eq in Hns;
    pose proof (count_status_pos _ b boxes Hin Hns) as Hpos;
    apply Z.ltb_lt in Hpos; rewrite Hpos;
    rewrite ?orb_true_r; reflexivity.
Qed.

(** What a returned worker leaves for the summary: the path of its log
    file and, when it failed, the split standard error of its last
    attempt, which has at least one line. *)
Lemma worker_report self w bn bh bid :
  log_file (box (worker self w bn bh bid))
    = Some (DeployLog (log_dir self) bn (clock w 0))
  /\ (status (box (worker self w bn bh bid)) = "failed" ->
      error_output (box (worker self w bn bh bid)) <> []).
Proof.
  destruct (worker_done self w bn bh bid) as [_ _ _ Hst _ _ _ _ _ _ Hlog _].
  split; [exact Hlog|]. intros Hfailed.
  destruct Hst as [[_ [_ Hp]]|[_ [Hfin _]]].
  - rewrite Hp in Hfailed. discriminate.
  - unfold final_status in Hfin.
    destruct (attempt_outcome w _) as [rc out err| |msg].
    + destruct (rc =? 0).
      * rewrite Hfin in Hfailed. discriminate.
      * destruct Hfin as [_ [_ ->]]. apply split_on_nonempty.
    + destruct Hfin as [_ Hs]. rewrite Hs in Hfailed. discriminate.
    + rewrite Hfin in Hfailed. discriminate.
Qed.

(** C10, as amended: at the end of a completed run the summary has, for
    every box that is "failed", "timeout" or "error", a line with its
    status, duration and attempt count, followed by the first 100
    characters of the first line of its stored error output if it has
    any, followed by the path of its log file.  A "failed" box always has
    stored error output; a box that only timed out or hit an invocation
    error has none, and no preview is printed for it. *)
Theorem summary_lists_non_success_boxes self env workers th :
  joined (deploy_all self env) = Some workers ->
  In th workers ->
  not_success (box th) = true ->
  exists pre post p,
    log_file (box th) = Some p
    /\ printed (deploy_all self env) =
       (pre
        ++ [LBox (network_id (box th)) (name (box th)) (host (box th))
                 (status (box th)) (duration_of (box th)) (attempts (box th))]
        ++ match error_output (box th) with
           | [] => []
           | first :: _ => [LErrorPreview (prefix_chars 100 first)]
           end
        ++ [LLogFile p] ++ post)%list
    /\ (status (box th) = "failed" -> error_output (box th) <> []).
Proof.
  intros Hj Hin Hns.
  destruct (deploy_all_shape self env) as [ | | | |entries Hinv Hne Hok HK];
    simpl in Hj; try discriminate Hj.
  injection Hj as <-. simpl.
  destruct (fan_out_workers self env entries 0 th Hin) as [j [bn [bh [bid Hth]]]].
  destruct (worker_report self (world_of env j) bn bh bid) as [Hlog Herr].
  rewrite <- Hth in Hlog, Herr.
  assert (Hinb : In (box th) (map box (fan_out self env 0 (map box_of_entry entries))))
    by (apply in_map; assumption).
  destruct (flat_map_split failure_lines _ _ Hinb) as [pre [post Hsplit]].
  unfold print_summary.
  rewrite (failures_header_printed _ _ Hinb Hns), Hsplit.
  unfold failure_lines. rewrite Hns, Hlog.
  match goal with
  | |- context [(?totals ++ LFailuresHeader :: _)%list] =>
      exists (totals ++ LFailuresHeader :: pre)%list, post,
             (DeployLog (log_dir self) bn (clock (world_of env j) 0))
  end.
  split; [reflexivity|]. split; [|exact Herr].
  rewrite <- !app_assoc. reflexivity.
Qed.

Lemma summary_lists_non_success_boxes_witness :
  exists pre post p,
    log_file (box (worker (deployer 2 1) always_exit_1 "goad-1" "10.0.1.5" 1)) = Some p
    /\ printed (deploy_all (deployer 2 1)
                  (sample_env one_box (StageReturned 0) always_exit_1)) =
       (pre
        ++ [LBox 1 "goad-1" "10.0.1.5" "failed" 1 1]
        ++ [LErrorPreview "fatal: provisioning failed"]
        ++ [LLogFile p] ++ post)%list
    /\ (status (box (worker (deployer 2 1) always_exit_1 "goad-1" "10.0.1.5" 1)) = "failed" ->
        error_output (box (worker (deployer 2 1) always_exit_1 "goad-1" "10.0.1.5" 1)) <> []).
Proof.
  apply (summary_lists_non_success_boxes (deployer 2 1)
           (sample_env one_box (StageReturned 0) always_exit_1)
           [worker (deployer 2 1) always_exit_1 "goad-1" "10.0.1.5" 1]
           (worker (deployer 2 1) always_exit_1 "goad-1" "10.0.1.5" 1)).
  - reflexivity.
  - left. reflexivity.
  - reflexivity.
Defined.

(** C10, as stated, fails for a box that only timed out: the run
    completes, the box is "timeout" after its single attempt, it has no
    stored error output, and the summary prints no error preview at
    all. *)
Lemma timed_out_box_has_no_error_preview :
  exists th,
    joined (deploy_all (deployer 2 1)
              (sample_env one_box (StageReturned 0) always_timeout)) = Some [th]
    /\ status (box th) = "timeout"
    /\ not_success (box th) = true
    /\ error_output (box th) = []
    /\ forall s, ~ In (LErrorPreview s)
                     (printed (deploy_all (deployer 2 1)
                                 (sample_env one_box (StageReturned 0) always_timeout))).
Proof.
  eexists. split; [reflexivity|]. split; [reflexivity|]. split; [reflexivity|].
  split; [reflexivity|].
  intros s H. vm_compute in H.
  repeat (destruct H as [H|H]; [discriminate H|]). exact H.
Qed.

(** ** The admission semaphore *)

(** A trace that acquires first, releases last, and touches the
    semaphore nowhere in between. *)
Definition well_bracketed (tr : list Event) : Prop :=
  exists mid, tr = (EvAcquire :: mid ++ [EvRelease])%list
              /\ acquired mid = 0%nat /\ released mid = 0%nat.

Lemma worker_well_bracketed self w bn bh bid :
  well_bracketed (trace (worker self w bn bh bid)).
Proof.
  destruct (worker_done self w bn bh bid) as [_ _ _ _ _ _ _ _ _ Hshape _ _].
  exact Hshape.
Qed.

Lemma released_none_not_In l : released l = 0%nat -> ~ In EvRelease l.
Proof.
  induction l as [|e l IH]; intros H Hin; [contradiction|].
  unfold released in *. simpl in H.
  destruct Hin as [->|Hin]; [discriminate H|].
  destruct e; simpl in H; try discriminate H; apply IH; assumption.
Qed.

(** Where a thread can be on a well-bracketed trace: before its
    [acquire], between [acquire] and [release], or after its
    [release]. *)
Inductive Position (d t : list Event) : Prop :=
| pos_waiting : d = [] -> (exists rest, t = EvAcquire :: rest) -> Position d t
| pos_admitted : forall m1 m2,
    d = EvAcquire :: m1 -> t = (m2 ++ [EvRelease])%list ->
    acquired m1 = 0%nat -> released m1 = 0%nat ->
    acquired m2 = 0%nat -> released m2 = 0%nat -> Position d t
| pos_finished : t = [] -> acquired d = 1%nat -> released d = 1%nat ->
    In EvRelease d -> Position d t.

Lemma position_of_split d t tr :
  well_bracketed tr -> (d ++ t)%list = tr -> Position d t.
Proof.
  intros [mid [Htr [Ha Hr]]] Hsplit. subst tr.
  destruct d as [|x d].
  - apply pos_waiting; [reflexivity|]. simpl in Hsplit. eauto.
  - simpl in Hsplit. injection Hsplit as -> Hrest.
    assert (Ht : t = [] \/ exists t' y, t = (t' ++ [y])%list)
      by (clear; induction t using rev_ind; eauto).
    destruct Ht as [->|[t' [y ->]]].
    + rewrite app_nil_r in Hrest. subst d.
      apply pos_finished; [reflexivity| | |].
      * change (EvAcquire :: mid ++ [EvRelease])%list
          with ([EvAcquire] ++ mid ++ [EvRelease])%list.
        rewrite !acquired_app, Ha. reflexivity.
      * change (EvAcquire :: mid ++ [EvRelease])%list
          with ([EvAcquire] ++ mid ++ [EvRelease])%list.
        rewrite !released_app, Hr. reflexivity.
      * right. apply in_or_app. right. left. reflexivity.
    + rewrite app_assoc in Hrest. apply app_inj_tail in Hrest.
      destruct Hrest as [Hmid ->]. subst mid.
      rewrite acquired_app in Ha. rewrite released_app in Hr.
      apply (pos_admitted _ _ d t'); auto; lia.
Qed.

(** Totals over the threads of a pool. *)
Definition total (f : list Event -> nat) (ts : list Task) : nat :=
  list_sum (map (fun t => f (done t)) ts).

Lemma total_app f ts1 ts2 : total f (ts1 ++ ts2) = (total f ts1 + total f ts2)%nat.
Proof. unfold total. rewrite map_app, list_sum_app. reflexivity. Qed.

Lemma total_cons f t ts : total f (t :: ts) = (f (done t) + total f ts)%nat.
Proof. reflexivity. Qed.

(** Every thread is somewhere on its own trace. *)
Definition on_traces (trs : list (list Event)) (ts : list Task) : Prop :=
  Forall2 (fun t tr => (done t ++ todo t)%list = tr) ts trs.

(** The semaphore's value accounts for every acquire and release made
    so far. *)
Definition balanced (K : nat) (s : Pool) : Prop :=
  (permits s + total acquired (tasks s) = K + total released (tasks s))%nat.

Lemma step_on_traces trs s s' :
  on_traces trs (tasks s) -> step s s' -> on_traces trs (tasks s').
Proof.
  intros Hon Hstep. destruct Hstep as [p p' before t after e rest Htodo Hsem].
  simpl in *. unfold on_traces in *.
  apply Forall2_app_inv_l in Hon.
  destruct Hon as [trs1 [trs2 [H1 [H2 ->]]]].
  inversion H2 as [|t0 tr ts0 trs0 Ht Hafter]; subst.
  apply Forall2_app; [exact H1|]. constructor; [|exact Hafter].
  simpl. rewrite Htodo, <- app_assoc. reflexivity.
Qed.

Lemma step_balanced K s s' : balanced K s -> step s s' -> balanced K s'.
Proof.
  unfold balanced. intros Hbal Hstep.
  destruct Hstep as [p p' before t after e rest Htodo Hsem].
  simpl in *.
  rewrite !total_app, !total_cons in *. simpl.
  rewrite acquired_app, released_app.
  destruct e; simpl in Hsem;
    match goal with
    | |- context [acquired [?e]] =>
        change (acquired [e]) with (Nat.b2n match e with EvAcquire => true | _ => false end);
        change (released [e]) with (Nat.b2n match e with EvRelease => true | _ => false end)
    end; cbn [Nat.b2n];
    try (injection Hsem as <-; lia).
  destruct p as [|p0]; [discriminate Hsem|].
  injection Hsem as <-. lia.
Qed.

Lemma reachable_invariant self workers s :
  reachable (start_pool self workers) s ->
  on_traces (map trace workers) (tasks s) /\ balanced (max_threads self) s.
Proof.
  induction 1 as [|s1 s2 _ [IHon IHbal] Hstep].
  - split.
    + unfold on_traces, start_pool. simpl.
      induction workers as [|th workers IH]; simpl; constructor; auto.
    + unfold balanced, start_pool. simpl.
      assert (H0 : forall f, f [] = 0%nat ->
                 total f (map (fun th => mkTask [] (trace th)) workers) = 0%nat).
      { intros f Hf. induction workers as [|th workers IH]; [reflexivity|].
        simpl. rewrite total_cons, IH. simpl. rewrite Hf. reflexivity. }
      rewrite !H0 by reflexivity. reflexivity.
  - split.
    + exact (step_on_traces _ _ _ IHon Hstep).
    + exact (step_balanced _ _ _ IHbal Hstep).
Qed.

(** On well-bracketed traces a thread holds at most one slot, and the
    holders are the acquires not yet released. *)
Lemma holders_count trs ts :
  Forall well_bracketed trs -> on_traces trs ts ->
  (List.length (filter holds ts) + total released ts = total acquired ts)%nat.
Proof.
  intros Hwb Hon. revert Hwb.
  induction Hon as [|t tr ts trs Ht _ IH]; intros Hwb; [reflexivity|].
  inversion Hwb as [|tr0 trs0 Hwb1 Hwb2]; subst.
  specialize (IH Hwb2). rewrite !total_cons. simpl.
  unfold holds at 1.
  destruct (position_of_split _ _ _ Hwb1 eq_refl)
    as [Hd _|m1 m2 Hd _ Ha1 Hr1 _ _|_ Ha Hr _].
  - rewrite Hd. simpl. lia.
  - rewrite Hd.
    change (EvAcquire :: m1) with ([EvAcquire] ++ m1)%list.
    rewrite acquired_app, released_app, Ha1, Hr1. simpl. lia.
  - rewrite Ha, Hr. simpl. lia.
Qed.

Lemma on_traces_In trs ts t :
  on_traces trs ts -> In t ts -> exists tr, In tr trs /\ (done t ++ todo t)%list = tr.
Proof.
  induction 1 as [|t0 tr ts trs Ht _ IH]; intros Hin; [contradiction|].
  destruct Hin as [->|Hin].
  - exists tr. split; [left; reflexivity | exact Ht].
  - destruct (IH Hin) as [tr' [Hin' Htr']]. exists tr'. split; [right|]; assumption.
Qed.

(** The threads that [deploy_all] starts for an inventory. *)
Definition workers_of (self : GOADDeployer) (env : RunEnv)
                      (entries : list (string * string * Z)) : list Th :=
  fan_out self env 0 (map box_of_entry entries).

Lemma workers_well_bracketed self env entries :
  Forall well_bracketed (map trace (workers_of self env entries)).
Proof.
  apply Forall_forall. intros tr Hin. apply in_map_iff in Hin.
  destruct Hin as [th [<- Hin]].
  destruct (fan_out_workers self env entries 0 th Hin) as [j [bn [bh [bid ->]]]].
  apply worker_well_bracketed.
Qed.

(** C1: in every state that the worker threads of a run can reach, the
    threads holding an admission slot are exactly the permits taken from
    the semaphore, so there are never more than [max_threads] of them;
    a thread performs every event after its [acquire] (each
    [subprocess.run], each backoff sleep, each status change, and the
    [release] itself) while it holds its slot; and once it has released
    the slot it has nothing left to do. *)
Theorem admission_slots_are_bounded self env entries s :
  reachable (start_pool self (workers_of self env entries)) s ->
  (permits s + List.length (filter holds (tasks s)) = max_threads self)%nat
  /\ (List.length (filter holds (tasks s)) <= max_threads self)%nat
  /\ (forall t, In t (tasks s) ->
        (forall e rest, todo t = e :: rest -> e <> EvAcquire -> holds t = true)
        /\ (In EvRelease (done t) -> todo t = [])).
Proof.
  intros Hreach.
  destruct (reachable_invariant _ _ _ Hreach) as [Hon Hbal].
  pose proof (workers_well_bracketed self env entries) as Hwb.
  pose proof (holders_count _ _ Hwb Hon) as Hcount.
  unfold balanced in Hbal.
  split; [lia|]. split; [lia|].
  intros t Hin.
  destruct (on_traces_In _ _ _ Hon Hin) as [tr [Htr Hsplit]].
  rewrite Forall_forall in Hwb.
  destruct (position_of_split _ _ _ (Hwb tr Htr) Hsplit)
    as [Hd [rest0 Ht]|m1 m2 Hd Ht Ha1 Hr1 _ _|Ht _ _ _].
  - split.
    + intros e rest He Hne. rewrite Ht in He. injection He as <- _.
      contradiction Hne. reflexivity.
    + rewrite Hd. intros [].
  - split.
    + intros _ _ _ _. unfold holds. rewrite Hd.
      change (EvAcquire :: m1) with ([EvAcquire] ++ m1)%list.
      rewrite acquired_app, released_app, Ha1, Hr1. reflexivity.
    + rewrite Hd. intros [H|H]; [discriminate H|].
      exfalso. exact (released_none_not_In _ Hr1 H).
  - split.
    + intros e rest He. rewrite Ht in He. discriminate He.
    + intros _. exact Ht.
Qed.

Definition two_boxes : list (string * string * Z) :=
  [("goad-1", "10.0.1.5", 1); ("goad-2", "10.0.2.5", 2)].

(** Two workers and one permit, right after the first worker's
    [acquire]. *)
Definition first_admitted : Pool :=
  mkPool 0
    [ mkTask [EvAcquire]
             (tl (trace (worker (deployer 1 3) always_exit_1 "goad-1" "10.0.1.5" 1)));
      mkTask [] (trace (worker (deployer 1 3) always_exit_1 "goad-2" "10.0.2.5" 2)) ].

Lemma first_admitted_reachable :
  reachable (start_pool (deployer 1 3)
               (workers_of (deployer 1 3)
                  (sample_env (InvParsed two_boxes) (StageReturned 0) always_exit_1)
                  two_boxes))
            first_admitted.
Proof.
  eapply reach_step; [apply reach_refl|].
  vm_compute.
  eapply (step_task 1 0 [] (mkTask [] _) [_] EvAcquire); reflexivity.
Defined.

Lemma admission_slots_are_bounded_witness :
  (permits first_admitted + List.length (filter holds (tasks first_admitted)) = 1)%nat
  /\ (List.length (filter holds (tasks first_admitted)) <= 1)%nat
  /\ (forall t, In t (tasks first_admitted) ->
        (forall e rest, todo t = e :: rest -> e <> EvAcquire -> holds t = true)
        /\ (In EvRelease (done t) -> todo t = [])).
Proof.
  exact (admission_slots_are_bounded (deployer 1 3)
           (sample_env (InvParsed two_boxes) (StageReturned 0) always_exit_1)
           two_boxes first_admitted first_admitted_reachable).
Defined.

(** *** Why [deploy_all] blocks, or joins with the workers' boxes

    The three lemmas below relate the pool to the two branches that
    [deploy_all] takes after the pre-stages: with no permit nothing ever
    moves; with at least one permit some thread can always move until
    all are finished, every move consumes one event, and when all
    threads are finished each has performed exactly its worker's
    trace, whose last readable box is the worker's box. *)

Lemma semaphore_zero_blocks self env entries s :
  max_threads self = 0%nat ->
  reachable (start_pool self (workers_of self env entries)) s ->
  s = start_pool self (workers_of self env entries).
Proof.
  intros HK. induction 1 as [|s1 s2 _ IH Hstep]; [reflexivity|].
  exfalso. subst s1.
  pose proof (workers_well_bracketed self env entries) as Hwb.
  rewrite Forall_forall in Hwb.
  inversion Hstep as [p p' before t after e rest Htodo Hsem Hp Hs'].
  rewrite HK in Hsem.
  assert (Hin : In t (map (fun th => mkTask [] (trace th)) (workers_of self env entries))).
  { match goal with
    | Htasks : (before ++ t :: after)%list = _ |- _ => rewrite <- Htasks
    end.
    apply in_or_app. right. left. reflexivity. }
  apply in_map_iff in Hin. destruct Hin as [th [<- Hin]]. simpl in Htodo.
  destruct (Hwb (trace th) (in_map trace _ _ Hin)) as [mid [Htr _]].
  rewrite Htr in Htodo. injection Htodo as <- _. discriminate Hsem.
Qed.

Lemma admitted_thread_can_step s t m2 :
  In t (tasks s) -> todo t = (m2 ++ [EvRelease])%list -> acquired m2 = 0%nat ->
  exists s', step s s'.
Proof.
  intros Hin Htodo Hacq. destruct s as [p ts]. simpl in Hin.
  apply in_split in Hin. destruct Hin as [before [after ->]].
  destruct m2 as [|e m2]; simpl in Htodo.
  - eexists. exact (step_task p (S p) before t after EvRelease [] Htodo eq_refl).
  - assert (Hsem : exists p', semaphore_after e p = Some p').
    { destruct e; simpl; eauto.
      unfold acquired in Hacq. simpl in Hacq. discriminate Hacq. }
    destruct Hsem as [p' Hsem].
    eexists. exact (step_task p p' before t after e _ Htodo Hsem).
Qed.

Lemma pool_progress self env entries s :
  (0 < max_threads self)%nat ->
  reachable (start_pool self (workers_of self env entries)) s ->
  (exists t, In t (tasks s) /\ todo t <> []) ->
  exists s', step s s'.
Proof.
  intros HK Hreach [t [Hin Htodo]].
  destruct (reachable_invariant _ _ _ Hreach) as [Hon Hbal].
  pose proof (workers_well_bracketed self env entries) as Hwb.
  pose proof (holders_count _ _ Hwb Hon) as Hcount.
  unfold balanced in Hbal. rewrite Forall_forall in Hwb.
  assert (Hpos : forall t', In t' (tasks s) -> Position (done t') (todo t')).
  { intros t' Hin'. destruct (on_traces_In _ _ _ Hon Hin') as [tr [Htr Hsplit]].
    exact (position_of_split _ _ _ (Hwb tr Htr) Hsplit). }
  destruct (Hpos t Hin) as [Hd [rest Ht]|m1 m2 _ Ht _ _ Ha2 _|Ht _ _ _];
    [| exact (admitted_thread_can_step s t m2 Hin Ht Ha2) | contradiction].
  destruct (permits s) as [|p] eqn:Hp.
  - (* no permit left: some thread holds one and can go on *)
    destruct (filter holds (tasks s)) as [|t' hs] eqn:Hf; [simpl in Hcount; lia|].
    assert (Hin' : In t' (filter holds (tasks s))) by (rewrite Hf; left; reflexivity).
    apply filter_In in Hin'. destruct Hin' as [Hin' Hholds].
    destruct (Hpos t' Hin') as [Hd' _|m1 m2 _ Ht' _ _ Ha2 _|_ Ha Hr _].
    + unfold holds in Hholds. rewrite Hd' in Hholds. discriminate Hholds.
    + exact (admitted_thread_can_step s t' m2 Hin' Ht' Ha2).
    + unfold holds in Hholds. rewrite Ha, Hr in Hholds. discriminate Hholds.
  - (* a permit is free: the waiting thread acquires it *)
    destruct s as [p0 ts]. simpl in *. subst p0.
    apply in_split in Hin. destruct Hin as [before [after ->]].
    eexists. exact (step_task (S p) p before t after EvAcquire rest Ht eq_refl).
Qed.

(** The events still to perform, over all threads. *)
Definition remaining (s : Pool) : nat :=
  list_sum (map (fun t => List.length (todo t)) (tasks s)).

Lemma step_consumes_one_event s s' : step s s' -> remaining s = S (remaining s').
Proof.
  intros [p p' before t after e rest Htodo Hsem]. unfold remaining. simpl.
  rewrite !map_app, !list_sum_app. simpl. rewrite Htodo. simpl. lia.
Qed.

Lemma joined_pool_traces self env entries s :
  reachable (start_pool self (workers_of self env entries)) s ->
  Forall (fun t => todo t = []) (tasks s) ->
  map done (tasks s) = map trace (workers_of self env entries).
Proof.
  intros Hreach Hall.
  destruct (reachable_invariant _ _ _ Hreach) as [Hon _].
  unfold on_traces in Hon.
  induction Hon as [|t tr ts trs Ht _ IH]; [reflexivity|].
  inversion Hall as [|t0 ts0 Htodo Hall']; subst.
  simpl. rewrite (IH Hall'). rewrite Htodo, app_nil_r. reflexivity.
Qed.

Lemma worker_visible_box self w bn bh bid :
  visible_box (DeploymentBox_init bn bh bid) (trace (worker self w bn bh bid))
  = box (worker self w bn bh bid).
Proof.
  destruct (worker_done self w bn bh bid) as [_ _ _ _ _ _ _ _ Hvis _ _ _].
  exact Hvis.
Qed.

(** * Further properties *)

(** ** Vocabulary *)

(** The attempts and the backoff sleeps of a trace, in order. *)
Definition pace (l : list Event) : list Event :=
  filter (fun e => match e with EvRun _ | EvSleep => true | _ => false end) l.

(** Attempts [1] to [a] with one sleep between two consecutive ones. *)
Definition paced (a : Z) : list Event :=
  match attempt_numbers a with
  | [] => []
  | k :: later => EvRun k :: flat_map (fun j => [EvSleep; EvRun j]) later
  end.

(** The standard error kept in [box.error_output] after [n] attempts:
    that of the latest attempt that returned a non-zero code and was
    logged. *)
Fixpoint stderr_kept (w : World) (n : nat) : list string :=
  match n with
  | O => []
  | S m =>
      match attempt_outcome w (Z.of_nat (S m)) with
      | Completed rc _ err => if rc =? 0 then stderr_kept w m else split_lines err
      | _ => stderr_kept w m
      end
  end.

(** Whether the command of an attempt returned a non-zero code. *)
Definition returned_nonzero (o : Outcome) : bool :=
  match o with
  | Completed rc _ _ => negb (rc =? 0)
  | _ => false
  end.

(** What identifies a box: the three fields read from the inventory. *)
Definition identity (b : DeploymentBox) : string * string * Z :=
  (name b, host b, network_id b).

(** The line that [print_summary] prints first for a listed box. *)
Definition box_line (b : DeploymentBox) : Line :=
  LBox (network_id b) (name b) (host b) (status b) (duration_of b) (attempts b).

Definition is_box_line (l : Line) : bool :=
  match l with LBox _ _ _ _ _ _ => true | _ => false end.

(** ** Vocabulary of the inventory *)

(** Every character of the string is in the class. *)
Fixpoint all_chars (class : ascii -> bool) (s : string) : bool :=
  match s with
  | EmptyString => true
  | String c rest => class c && all_chars class rest
  end.

(** A word: not empty, no whitespace. *)
Definition is_word (s : string) : bool :=
  negb (String.eqb s "") && all_chars nonspace s.

(** The string starts with a whitespace character. *)
Definition starts_with_space (s : string) : bool :=
  match s with
  | EmptyString => false
  | String c _ => isspace c
  end.

(** The line opens the section of the deployment boxes (line 96). *)
Definition opens_section (raw : string) : bool :=
  startswith (strip raw) "[deployment_boxes]".

(** The line ends the reading (lines 102-104). *)
Definition closes_section (raw : string) : bool :=
  startswith (strip raw) "[deployment_boxes:vars]".

(** A blank line, a comment or a section header other than the two
    above. *)
Definition passed_over (raw : string) : bool :=
  negb (opens_section raw) && negb (closes_section raw)
  && (startswith (strip raw) "[" || String.eqb (strip raw) ""
      || startswith (strip raw) "#").

(** What every box read from an inventory satisfies. *)
Definition well_formed_entry (e : string * string * Z) : Prop :=
  is_word (fst (fst e)) = true
  /\ startswith (fst (fst e)) "[" = false
  /\ startswith (fst (fst e)) "#" = false
  /\ is_word (snd (fst e)) = true
  /\ 0 <= snd e.

(** The network id is written with no more digits than [int]
    converts. *)
Definition id_within_limit (e : string * string * Z) : Prop :=
  (String.length (py_str_int (snd e)) <= int_max_str_digits)%nat.

(** A file with hosts but no [[deployment_boxes]] header. *)
Definition headerless_inventory : string :=
  "[kali_boxes]" ++ nl ++ "kali-1 ansible_host=10.0.9.5 network_id=1" ++ nl.

(** Neither a line feed nor a carriage return. *)
Definition within_line (c : ascii) : bool :=
  negb (Ascii.eqb c newline) && negb (Ascii.eqb c (ascii_of_nat 13)).

(** The lines joined by line feeds, with more text after them. *)
Definition lines_then (lines : list string) (rest : string) : string :=
  fold_right (fun line text => line ++ nl ++ text) rest lines.

(** The line written for a deployment box (line 44). *)
Definition deployment_line (nm address : string) (idx : nat) : string :=
  nm ++ " ansible_host=" ++ address ++ " ansible_user=cyberrange"
     ++ " network_id=" ++ py_str (idx + 1).

(** The deployment boxes that an inventory is generated for: the
    addresses that are not empty, each with its name and its position,
    counted from 1, as network id. *)
Fixpoint deployment_entries (names : list string) (idx : nat)
                            (ips : list (option string)) : list (string * string * Z) :=
  match ips with
  | [] => []
  | ip :: rest =>
      match ip with
      | Some (String _ _ as address) =>
          (host_name "ubuntu-deploy" names idx, address, Z.of_nat (idx + 1))
          :: deployment_entries names (S idx) rest
      | _ => deployment_entries names (S idx) rest
      end
  end.

(** The deployment boxes of a Terraform output. *)
Definition deployment_boxes_of (tf_output : TfOutput) : list (string * string * Z) :=
  deployment_entries (ubuntu_deploy_names tf_output) 0
                     (ubuntu_deploy_floating_ips tf_output).

(** ** Vocabulary of the credentials document *)

(** Not a colon. *)
Definition not_colon (c : ascii) : bool := negb (Ascii.eqb c ":").

(** The numbered instances of a document, in order. *)
Definition instances_of (doc : list DocLine) : list (nat * string) :=
  flat_map (fun l => match l with DInstance idx nm => [(idx, nm)] | _ => [] end) doc.

(** The file could be read. *)
Definition readable (f : PasswordFile) : bool :=
  match file_text f with Some _ => true | None => false end.

(** [a <= b] on [str]. *)
Definition str_le (a b : string) : Prop := str_ltb b a = false.

(** One pass of the loop of lines 54-57. *)
Definition add_credential (d : Dict) (line : string) : Dict :=
  match split_colon line with
  | Some (user, password) => (user, password) :: d
  | None => d
  end.

(** All the credentials read, in the order of the document. *)
Definition all_credentials_of (files : list PasswordFile) : list (string * Dict) :=
  py_sorted fst (flat_map read_credentials (py_sorted file_name files)).

(** Three files; the second cannot be read, and the names of the
    other two are not in the order of their instance names. *)
Definition sample_files : list PasswordFile :=
  [ mkPasswordFile "goad-2-kali-password.txt" (Some ("pentester:p2" ++ nl ++ "kali:k2" ++ nl));
    mkPasswordFile "goad-3-kali-password.txt" None;
    mkPasswordFile "goad-10-kali-password.txt" (Some ("root:r10:x" ++ nl ++ "guest:g" ++ nl)) ].

(** [old in s] *)
Fixpoint contains (old s : string) : bool :=
  startswith s old
  || match s with
     | EmptyString => false
     | String _ rest => contains old rest
     end.

(** ** Sample worlds and environments *)

(** A world in which the first attempt exits with 1 and the second
    with 0. *)
Definition fails_then_succeeds : World :=
  mkWorld (fun k => if k =? 1 then Completed 1 "" "fatal: not ready"
                    else Completed 0 "done" "")
          (fun _ => None) (fun k => Z.of_nat k).

(** A world in which the first attempt times out and the second cannot
    be run. *)
Definition times_out_then_breaks : World :=
  mkWorld (fun k => if k =? 1 then TimeoutExpired
                    else OtherException "Connection reset by peer")
          (fun _ => None) (fun k => Z.of_nat k).

(** A world in which the attempts fail except the third, which times
    out. *)
Definition fails_then_times_out : World :=
  mkWorld (fun k => if k =? 3 then TimeoutExpired
                    else Completed 1 "" "fatal: not ready")
          (fun _ => None) (fun k => Z.of_nat k).

(** An environment in which the Windows activation times out and the
    playbook of the Kali preparation is missing. *)
Definition optional_stages_fail : RunEnv :=
  mkRunEnv one_box
           (fun st => match st with
                      | ActivateWindows => StageTimeout
                      | PrepareKali => StageNotFound
                      | PrepareDeployment => StageReturned 0
                      end)
           (fun _ => always_exit_1) 60.

(** ** What a worker keeps from one attempt to the next *)

Lemma pace_app l1 l2 : pace (l1 ++ l2) = (pace l1 ++ pace l2)%list.
Proof. unfold pace. apply filter_app. Qed.

Lemma paced_succ a :
  0 <= a ->
  paced (a + 1) =
  (paced a ++ (if 0 <? a then [EvSleep; EvRun (a + 1)] else [EvRun (a + 1)]))%list.
Proof.
  intros Ha. unfold paced. rewrite attempt_numbers_succ by assumption.
  destruct (0 <? a) eqn:Hpos.
  - apply Z.ltb_lt in Hpos.
    destruct (attempt_numbers a) as [|k later] eqn:Hnum.
    + pose proof (attempt_numbers_length a) as Hlen. rewrite Hnum in Hlen.
      simpl in Hlen. lia.
    + simpl. rewrite flat_map_app. reflexivity.
  - apply Z.ltb_ge in Hpos. assert (a = 0) by lia. subst a. reflexivity.
Qed.

Section WorkerBookkeeping.

Variable self : GOADDeployer.
Variable w : World.
Variables bn bh : string.
Variable bid : Z.

Local Abbreviation R := (max_retries self).

(** The thread at the head of the loop after [a] passes, beyond
    [LoopInv]: the pacing of its attempts and what it has kept. *)
Record Kept (a : Z) (s : bool) (th : Th) : Prop := {
  kept_inv : LoopInv self w bn bh bid a s th;
  kept_pace : pace (trace th) =
    (paced a ++ (if (0 <? a) && (a <? R) && negb s then [EvSleep] else []))%list;
  kept_ticks : a = 0 -> ticks th = 1%nat;
  kept_ticked : (1 <= ticks th)%nat;
  kept_end : end_time (box th) = None
             \/ exists k, (1 <= k)%nat /\ end_time (box th) = Some (clock w k);
  kept_start : start_time (box th) = if 0 <? a then Some (clock w 1) else None;
  kept_stderr : error_output (box th) = stderr_kept w (Z.to_nat a);
  kept_starts : Forall (fun b => start_time b = None \/ start_time b = Some (clock w 1))
                       (visibles (trace th))
}.

(** The thread when a pass has raised, beyond [LoopExc]. *)
Record KeptExc (th : Th) : Prop := {
  keptx_exc : LoopExc self w bn bh bid th;
  keptx_pace : pace (trace th) = paced (attempts (box th));
  keptx_start : start_time (box th) = Some (clock w 1);
  keptx_ticked : (1 <= ticks th)%nat;
  keptx_stderr : error_output (box th) = stderr_kept w (Z.to_nat (attempts (box th)));
  keptx_starts : Forall (fun b => start_time b = None \/ start_time b = Some (clock w 1))
                        (visibles (trace th))
}.

Lemma loop_entry_kept : Kept 0 false (loop_entry self w bn bh bid).
Proof.
  constructor; try reflexivity.
  - apply loop_entry_inv.
  - left. reflexivity.
  - simpl. constructor; [left; reflexivity | constructor].
Qed.

(** [begin_attempt] in full: the box, the clock and the trace. *)
Lemma begin_attempt_full a th :
  let t0 := match start_time (box th) with
            | Some t => t
            | None => clock w (ticks th)
            end in
  let b1 := set_start_time (Some t0) (set_status "running" (set_attempts a (box th))) in
  box (begin_attempt w a th) = b1
  /\ ticks (begin_attempt w a th) =
     match start_time (box th) with Some _ => ticks th | None => S (ticks th) end
  /\ trace (begin_attempt w a th) =
     (trace th ++ [EvVisible (set_attempts a (box th)); EvStatus "running";
                   EvVisible b1; EvRun a])%list.
Proof.
  unfold begin_attempt, mark_running, with_lock, publish, assign_status,
    emit, update, datetime_now. simpl.
  destruct (start_time (box th)) as [t|] eqn:Hst; simpl.
  - repeat split.
    + unfold set_start_time, set_status, set_attempts. simpl. rewrite Hst. reflexivity.
    + rewrite <- ?app_assoc. simpl. do 4 f_equal.
      unfold set_start_time, set_status, set_attempts. simpl. rewrite Hst. reflexivity.
  - repeat split. rewrite <- ?app_assoc. reflexivity.
Qed.

Lemma stderr_kept_succ a :
  0 <= a ->
  stderr_kept w (Z.to_nat (a + 1)) =
  match attempt_outcome w (a + 1) with
  | Completed rc _ err =>
      if rc =? 0 then stderr_kept w (Z.to_nat a) else split_lines err
  | _ => stderr_kept w (Z.to_nat a)
  end.
Proof.
  intros Ha. replace (Z.to_nat (a + 1)) with (S (Z.to_nat a)) by lia.
  cbn [stderr_kept]. replace (Z.of_nat (S (Z.to_nat a))) with (a + 1) by lia.
  reflexivity.
Qed.

Lemma attempt_body_kept a s th :
  Kept a s th -> a < R -> s = false ->
  match attempt_body self w (a + 1) s th with
  | (Normal s', th') => Kept (a + 1) s' th'
  | (Raised _, th') => KeptExc th'
  end.
Proof.
  intros [HI Hpace Hticks Hticked Hend Hstart Herr Hstarts] Hlt Hs.
  pose proof (attempt_body_inv self w bn bh bid a s th HI Hlt Hs) as Hnext.
  subst s.
  assert (Ha0 : 0 <= a) by (destruct HI as [[H _] _ _ _ _ _ _ _ _ _ _ _ _]; exact H).
  assert (Hpace1 : pace (trace (begin_attempt w (a + 1) th)) = paced (a + 1)).
  { destruct (begin_attempt_full (a + 1) th) as [_ [_ Htr]].
    rewrite Htr, pace_app, Hpace, paced_succ by assumption.
    replace (a <? R) with true by (symmetry; apply Z.ltb_lt; assumption).
    destruct (0 <? a); simpl; rewrite <- ?app_assoc; reflexivity. }
  assert (Hstart1 : start_time (box (begin_attempt w (a + 1) th)) = Some (clock w 1)).
  { destruct (begin_attempt_full (a + 1) th) as [Hb _]. rewrite Hb. simpl.
    rewrite Hstart. destruct (0 <? a) eqn:Hpos; [reflexivity|].
    apply Z.ltb_ge in Hpos. rewrite Hticks by lia. reflexivity. }
  assert (Herr1 : error_output (box (begin_attempt w (a + 1) th))
                  = stderr_kept w (Z.to_nat a)).
  { destruct (begin_attempt_full (a + 1) th) as [Hb _]. rewrite Hb. exact Herr. }
  assert (Hticked1 : (1 <= ticks (begin_attempt w (a + 1) th))%nat).
  { destruct (begin_attempt_full (a + 1) th) as [_ [Htk _]]. rewrite Htk.
    destruct (start_time (box th)); lia. }
  assert (Hend1 : end_time (box (begin_attempt w (a + 1) th)) = None
                  \/ exists k, (1 <= k)%nat
                       /\ end_time (box (begin_attempt w (a + 1) th)) = Some (clock w k)).
  { destruct (begin_attempt_full (a + 1) th) as [Hb _]. rewrite Hb. exact Hend. }
  assert (Hatt1 : attempts (box (begin_attempt w (a + 1) th)) = a + 1).
  { destruct (begin_attempt_full (a + 1) th) as [Hb _]. rewrite Hb. reflexivity. }
  assert (Hstarts1 : Forall (fun b => start_time b = None \/ start_time b = Some (clock w 1))
                       (visibles (trace (begin_attempt w (a + 1) th)))).
  { pose proof Hstart1 as Hs1.
    destruct (begin_attempt_full (a + 1) th) as [Hb [_ Htr]].
    rewrite Htr, visibles_app. apply Forall_app. split; [exact Hstarts|].
    rewrite Hb in Hs1. simpl. constructor; [|constructor; [|constructor]].
    - simpl. rewrite Hstart. destruct (0 <? a); auto.
    - right. exact Hs1. }
  rewrite attempt_body_eq in Hnext. rewrite attempt_body_eq.
  pose proof (stderr_kept_succ a Ha0) as Hse.
  destruct (begin_attempt w (a + 1) th) as [b1 k1 tr1].
  cbn [box ticks trace] in *.
  destruct (run_ssh w (a + 1)) as [rc out err| |msg] eqn:Hrun;
    [destruct (log_append w (a + 1)) as [lmsg|] eqn:Happ
    |destruct (log_append w (a + 1)) as [lmsg|] eqn:Happ|].
  - rewrite (attempt_outcome_not_logged w _ lmsg Happ) in Hse
      by (rewrite Hrun; discriminate).
    constructor; cbn [box ticks trace]; try exact Hnext; try assumption.
    + rewrite Hatt1. exact Hpace1.
    + rewrite Hatt1, Hse. exact Herr1.
  - rewrite (attempt_outcome_logged w _ Happ), Hrun in Hse.
    unfold on_completed, datetime_now, publish, assign_status, emit, update in *.
    cbn [box ticks trace] in *.
    destruct (rc =? 0) eqn:Hrc; [|destruct (a + 1 <? R) eqn:Hmore];
      cbn [box ticks trace] in *.
    all: constructor; cbn [box ticks trace]; try exact Hnext; try (intros; lia).
    all: rewrite ?pace_app, ?visibles_app, ?Hpace1, ?Hse, ?Hrc; simpl;
         rewrite ?app_nil_r, ?Hmore; try reflexivity; try assumption.
    all: try (replace (0 <? a + 1) with true by (symmetry; apply Z.ltb_lt; lia);
              first [reflexivity | assumption]).
    all: try (apply Forall_app; split; [assumption|];
              constructor; [right; assumption | constructor]).
    all: rewrite ?andb_true_r, ?andb_false_r, ?app_nil_r; try reflexivity.
    all: try lia.
    all: try (right; exists k1; split; [assumption | reflexivity]).
  - rewrite (attempt_outcome_not_logged w _ lmsg Happ) in Hse
      by (rewrite Hrun; discriminate).
    unfold on_timeout in *. rewrite Happ in *.
    unfold publish, emit in *. cbn [box ticks trace] in *.
    constructor; cbn [box ticks trace]; try exact Hnext; try assumption.
    + rewrite pace_app, Hatt1. simpl. rewrite app_nil_r. exact Hpace1.
    + rewrite Hatt1, Hse. exact Herr1.
    + rewrite visibles_app. apply Forall_app. split; [exact Hstarts1|].
      simpl. constructor; [right; exact Hstart1 | constructor].
  - rewrite (attempt_outcome_logged w _ Happ), Hrun in Hse.
    unfold on_timeout in *. rewrite Happ in *.
    unfold with_lock, datetime_now, publish, assign_status, emit, update in *.
    cbn [box ticks trace] in *.
    destruct (a + 1 <? R) eqn:Hmore; cbn [box ticks trace] in *.
    all: constructor; cbn [box ticks trace]; try exact Hnext; try (intros; lia).
    all: rewrite ?pace_app, ?visibles_app, ?Hpace1, ?Hse; simpl;
         rewrite ?app_nil_r, ?Hmore; try reflexivity; try assumption.
    all: try (replace (0 <? a + 1) with true by (symmetry; apply Z.ltb_lt; lia);
              first [reflexivity | assumption]).
    all: try (apply Forall_app; split; [assumption|];
              constructor; [right; assumption | constructor]).
    all: rewrite ?andb_true_r, ?andb_false_r, ?app_nil_r; try reflexivity.
    all: try lia.
    all: try (right; exists k1; split; [assumption | reflexivity]).
  - rewrite (attempt_outcome_run w _ msg Hrun) in Hse.
    constructor; cbn [box ticks trace]; try exact Hnext; try assumption.
    + rewrite Hatt1. exact Hpace1.
    + rewrite Hatt1, Hse. exact Herr1.
Qed.

Lemma while_loop_kept :
  match while_loop self w 0 false (loop_entry self w bn bh bid) with
  | (Normal s, th) => exists a, Kept a s th /\ (R <= a \/ s = true)
  | (Raised _, th) => KeptExc th
  end.
Proof.
  apply (while_loop_rule self w Kept KeptExc).
  - intros a s th. apply attempt_body_kept.
  - apply loop_entry_kept.
Qed.

(** The worker when [deploy_goad_on_box] returns, beyond [WorkerDone]. *)
Record WorkerKept (th : Th) : Prop := {
  wk_pace : pace (trace th) = paced (attempts (box th));
  wk_start : start_time (box th) =
             if 0 <? attempts (box th) then Some (clock w 1) else None;
  wk_end : end_time (box th) = None
           \/ exists k, (1 <= k)%nat /\ end_time (box th) = Some (clock w k);
  wk_stderr : error_output (box th) = stderr_kept w (Z.to_nat (attempts (box th)));
  wk_starts : Forall (fun b => start_time b = None \/ start_time b = Some (clock w 1))
                     (visibles (trace th))
}.

Lemma deploy_goad_on_box_kept :
  WorkerKept (deploy_goad_on_box self w (DeploymentBox_init bn bh bid)).
Proof.
  rewrite deploy_goad_on_box_eq.
  pose proof while_loop_kept as Hloop.
  destruct (while_loop self w 0 false (loop_entry self w bn bh bid)) as [[s|msg] th].
  - destruct Hloop as [a [[HI Hpace Hticks Hticked Hend Hstart Herr Hstarts] Hexit]].
    destruct HI as [[Ha0 Hrange] Hatt _ _ _ _ _ _ _ _ _ _ _].
    unfold emit. constructor; cbn [box ticks trace]; rewrite ?Hatt.
    + rewrite pace_app, Hpace. simpl. rewrite app_nil_r.
      replace ((0 <? a) && (a <? R) && negb s) with false; [apply app_nil_r|].
      symmetry. destruct Hexit as [Hexit| ->].
      * replace (a <? R) with false by (symmetry; apply Z.ltb_ge; assumption).
        apply andb_false_iff. left. apply andb_false_r.
      * apply andb_false_r.
    + exact Hstart.
    + exact Hend.
    + exact Herr.
    + rewrite visibles_app. simpl. rewrite app_nil_r. exact Hstarts.
  - destruct Hloop as [Hexc Hpace Hstart Hticked Herr Hstarts].
    unfold on_exception, with_lock, publish, assign_status, datetime_now, emit, update.
    constructor; cbn [box ticks trace].
    + rewrite <- !app_assoc, pace_app, Hpace. simpl. apply app_nil_r.
    + simpl. rewrite Hstart.
      destruct Hexc as [Hatt _ _ _ _ _ _ _ _ _ _ _ _].
      replace (0 <? attempts (box th)) with true by (symmetry; apply Z.ltb_lt; lia).
      reflexivity.
    + right. exists (ticks th). split; [exact Hticked | reflexivity].
    + exact Herr.
    + rewrite <- !app_assoc, visibles_app. apply Forall_app. split; [exact Hstarts|].
      simpl. constructor; [|constructor]. right. exact Hstart.
Qed.

End WorkerBookkeeping.

Lemma worker_kept self w bn bh bid :
  WorkerKept w (worker self w bn bh bid).
Proof. apply deploy_goad_on_box_kept. Qed.

Lemma stderr_kept_latest w n j rc out err :
  (1 <= j <= n)%nat ->
  attempt_outcome w (Z.of_nat j) = Completed rc out err -> rc <> 0 ->
  (forall i, (j < i <= n)%nat ->
     returned_nonzero (attempt_outcome w (Z.of_nat i)) = false) ->
  stderr_kept w n = split_lines err.
Proof.
  intros Hj Hrun Hrc Hlater. induction n as [|n IH]; [lia|].
  cbn [stderr_kept].
  destruct (Nat.eq_dec j (S n)) as [->|Hne].
  - rewrite Hrun. apply Z.eqb_neq in Hrc. rewrite Hrc. reflexivity.
  - assert (Hlast : returned_nonzero (attempt_outcome w (Z.of_nat (S n))) = false)
      by (apply Hlater; lia).
    assert (IH' : stderr_kept w n = split_lines err)
      by (apply IH; [lia | intros i Hi; apply Hlater; lia]).
    destruct (attempt_outcome w (Z.of_nat (S n))) as [rc' out' err'| |msg];
      try exact IH'.
    simpl in Hlast. apply negb_false_iff in Hlast. rewrite Hlast. exact IH'.
Qed.

Lemma stderr_kept_none w n :
  (forall i, (1 <= i <= n)%nat ->
     returned_nonzero (attempt_outcome w (Z.of_nat i)) = false) ->
  stderr_kept w n = [].
Proof.
  intros Hnone. induction n as [|n IH]; [reflexivity|].
  cbn [stderr_kept].
  assert (Hlast : returned_nonzero (attempt_outcome w (Z.of_nat (S n))) = false)
    by (apply Hnone; lia).
  assert (IH' : stderr_kept w n = []) by (apply IH; intros i Hi; apply Hnone; lia).
  destruct (attempt_outcome w (Z.of_nat (S n))) as [rc' out' err'| |msg];
    try exact IH'.
  simpl in Hlast. apply negb_false_iff in Hlast. rewrite Hlast. exact IH'.
Qed.

(** An append that fails does not turn an attempt into one that
    returned. *)
Lemma returned_nonzero_outcome w i :
  returned_nonzero (run_ssh w i) = false ->
  returned_nonzero (attempt_outcome w i) = false.
Proof.
  unfold attempt_outcome.
  destruct (run_ssh w i) as [rc out err| |msg], (log_append w i); auto.
Qed.

Lemma retryable_outcome w j :
  retryable (run_ssh w j) -> log_append w j = None ->
  retryable (attempt_outcome w j).
Proof. intros Hr Happ. rewrite (attempt_outcome_logged w j Happ). exact Hr. Qed.

(** ** How a worker ends *)

(** The worker stops at the first attempt after which the loop cannot
    go round again: one whose outcome is not retryable, or the last one
    allowed. *)
Lemma worker_attempts_decided self w bn bh bid k :
  1 <= k <= max_retries self ->
  (forall j, 1 <= j < k -> retryable (attempt_outcome w j)) ->
  ~ retryable (attempt_outcome w k) \/ k = max_retries self ->
  attempts (box (worker self w bn bh bid)) = k.
Proof.
  intros Hk Hbefore Hstop.
  destruct (worker_done self w bn bh bid) as [[Ha0 Hrange] _ Hdone Hst _ _ _ _ _ _ _ _].
  set (a := attempts (box (worker self w bn bh bid))) in *.
  destruct (Z.lt_trichotomy a k) as [Hlt|[Heq|Hgt]]; [exfalso|exact Heq|exfalso].
  - destruct Hst as [[_ [HR _]]|[Ha1 [Hfin _]]]; [lia|].
    assert (Hretry : retryable (attempt_outcome w a)) by (apply Hbefore; lia).
    unfold final_status in Hfin. unfold retryable in Hretry.
    destruct (attempt_outcome w a) as [rc out err| |msg].
    + apply Z.eqb_neq in Hretry. rewrite Hretry in Hfin. lia.
    + lia.
    + contradiction.
  - destruct Hstop as [Hstop|Hstop]; [|lia].
    apply Hstop. apply Hdone. lia.
Qed.

(** X1: the attempts of a worker are numbered 1, 2, ... without gaps,
    [box.attempts] is their number, and there are never more of them
    than [max_retries] (none at all when [max_retries] is not
    positive). *)
Theorem attempts_never_exceed_max_retries self w bn bh bid :
  runs (trace (worker self w bn bh bid))
    = attempt_numbers (attempts (box (worker self w bn bh bid)))
  /\ attempts (box (worker self w bn bh bid))
     = Z.of_nat (List.length (runs (trace (worker self w bn bh bid))))
  /\ 0 <= attempts (box (worker self w bn bh bid)) <= Z.max 0 (max_retries self).
Proof.
  destruct (worker_done self w bn bh bid) as [[Ha0 Hrange] Hruns _ _ _ _ _ _ _ _ _ _].
  split; [exact Hruns|]. split; [|lia].
  rewrite Hruns, attempt_numbers_length. lia.
Qed.

(** X2: the attempts and the backoff sleeps of a worker alternate:
    attempt 1, sleep, attempt 2, sleep, ..., attempt [box.attempts].
    The worker sleeps exactly once between two consecutive attempts,
    never before the first one and never after the last one. *)
Theorem backoff_sleeps_separate_attempts self w bn bh bid :
  pace (trace (worker self w bn bh bid))
  = paced (attempts (box (worker self w bn bh bid))).
Proof. destruct (worker_kept self w bn bh bid) as [Hpace _ _ _ _]. exact Hpace. Qed.

(** X3: if attempt [k] is the first whose command returns code 0, every
    earlier attempt having failed or timed out, and the records of the
    attempts 1 to [k] can be appended to the log of the box, then the
    worker makes exactly the attempts 1 to [k], and the box ends
    "success" with [attempts = k]: a success ends the retries. *)
Theorem first_success_ends_retries self w bn bh bid k out err :
  1 <= k <= max_retries self ->
  (forall j, 1 <= j < k -> retryable (run_ssh w j)) ->
  (forall j, 1 <= j <= k -> log_append w j = None) ->
  run_ssh w k = Completed 0 out err ->
  runs (trace (worker self w bn bh bid)) = attempt_numbers k
  /\ attempts (box (worker self w bn bh bid)) = k
  /\ status (box (worker self w bn bh bid)) = "success".
Proof.
  intros Hk Hbefore Hlogged Hrun.
  assert (Hout : attempt_outcome w k = Completed 0 out err)
    by (rewrite attempt_outcome_logged; [exact Hrun | apply Hlogged; lia]).
  assert (Ha : attempts (box (worker self w bn bh bid)) = k).
  { apply worker_attempts_decided; [assumption| |].
    - intros j Hj. apply retryable_outcome; [apply Hbefore | apply Hlogged]; lia.
    - left. rewrite Hout. simpl. intros H. apply H. reflexivity. }
  destruct (worker_done self w bn bh bid) as [_ Hruns _ Hst _ _ _ _ _ _ _ _].
  rewrite Hruns, Ha. repeat split.
  destruct Hst as [[H0 _]|[_ [Hfin _]]]; [lia|].
  unfold final_status in Hfin. rewrite Ha, Hout in Hfin. exact Hfin.
Qed.

Lemma first_success_ends_retries_witness :
  runs (trace (worker (deployer 2 3) fails_then_succeeds "goad-1" "10.0.1.5" 1)) = [1; 2]
  /\ attempts (box (worker (deployer 2 3) fails_then_succeeds "goad-1" "10.0.1.5" 1)) = 2
  /\ status (box (worker (deployer 2 3) fails_then_succeeds "goad-1" "10.0.1.5" 1))
     = "success".
Proof.
  apply (first_success_ends_retries (deployer 2 3) fails_then_succeeds
           "goad-1" "10.0.1.5" 1 2 "done" "").
  - simpl. lia.
  - intros j Hj. assert (j = 1) by lia. subst j. simpl. discriminate.
  - intros j _. reflexivity.
  - reflexivity.
Defined.

(** X4: if attempt [k] is the first in which an exception other than
    [TimeoutExpired] is raised inside the [try], by [subprocess.run] or
    by the append of the attempt's record to the log, every earlier
    attempt having failed or timed out and having been logged, then the
    worker makes exactly the attempts 1 to [k] and the box ends "error"
    with [attempts = k] and [end_time] set: such an exception ends the
    retries at whatever attempt it occurs. *)
Theorem exception_ends_retries_at_any_attempt self w bn bh bid k msg :
  1 <= k <= max_retries self ->
  (forall j, 1 <= j < k -> retryable (run_ssh w j)) ->
  (forall j, 1 <= j < k -> log_append w j = None) ->
  run_ssh w k = OtherException msg
  \/ (log_append w k = Some msg /\ forall m, run_ssh w k <> OtherException m) ->
  runs (trace (worker self w bn bh bid)) = attempt_numbers k
  /\ attempts (box (worker self w bn bh bid)) = k
  /\ status (box (worker self w bn bh bid)) = "error"
  /\ end_time (box (worker self w bn bh bid)) <> None.
Proof.
  intros Hk Hbefore Hlogged Hrun.
  assert (Hout : attempt_outcome w k = OtherException msg).
  { destruct Hrun as [Hrun|[Happ Hrun]].
    - apply attempt_outcome_run. exact Hrun.
    - apply attempt_outcome_not_logged; assumption. }
  assert (Ha : attempts (box (worker self w bn bh bid)) = k).
  { apply worker_attempts_decided; [assumption| |].
    - intros j Hj. apply retryable_outcome; [apply Hbefore | apply Hlogged]; lia.
    - left. rewrite Hout. simpl. auto. }
  destruct (worker_done self w bn bh bid) as [_ Hruns _ Hst Hend _ _ _ _ _ _ _].
  assert (Hs : status (box (worker self w bn bh bid)) = "error").
  { destruct Hst as [[H0 _]|[_ [Hfin _]]]; [lia|].
    unfold final_status in Hfin. rewrite Ha, Hout in Hfin. exact Hfin. }
  rewrite Hruns, Ha. repeat split; [exact Hs|].
  apply Hend. rewrite Hs. reflexivity.
Qed.

Lemma exception_ends_retries_at_any_attempt_witness :
  runs (trace (worker (deployer 2 3) times_out_then_breaks "goad-1" "10.0.1.5" 1)) = [1; 2]
  /\ attempts (box (worker (deployer 2 3) times_out_then_breaks "goad-1" "10.0.1.5" 1)) = 2
  /\ status (box (worker (deployer 2 3) times_out_then_breaks "goad-1" "10.0.1.5" 1))
     = "error"
  /\ end_time (box (worker (deployer 2 3) times_out_then_breaks "goad-1" "10.0.1.5" 1))
     <> None.
Proof.
  apply (exception_ends_retries_at_any_attempt (deployer 2 3) times_out_then_breaks
           "goad-1" "10.0.1.5" 1 2 "Connection reset by peer").
  - simpl. lia.
  - intros j Hj. assert (j = 1) by lia. subst j. simpl. exact I.
  - intros j _. reflexivity.
  - left. reflexivity.
Defined.

(** X5: when every allowed attempt fails or times out, in any mix, and
    the record of each can be appended to the log of the box, the box
    is attempted [max_retries] times and its final status is given by
    the last attempt alone: "failed" if its command returned, and
    "timeout" if it timed out. *)
Theorem last_attempt_decides_status self w bn bh bid :
  1 <= max_retries self ->
  (forall j, 1 <= j <= max_retries self -> retryable (run_ssh w j)) ->
  (forall j, 1 <= j <= max_retries self -> log_append w j = None) ->
  attempts (box (worker self w bn bh bid)) = max_retries self
  /\ status (box (worker self w bn bh bid))
     = match run_ssh w (max_retries self) with
       | Completed _ _ _ => "failed"
       | TimeoutExpired => "timeout"
       | OtherException _ => "error"
       end.
Proof.
  intros HR Hall Hlogged.
  assert (Ha : attempts (box (worker self w bn bh bid)) = max_retries self).
  { apply worker_attempts_decided; [lia | | right; reflexivity].
    intros j Hj. apply retryable_outcome; [apply Hall | apply Hlogged]; lia. }
  split; [exact Ha|].
  destruct (worker_done self w bn bh bid) as [_ _ _ Hst _ _ _ _ _ _ _ _].
  destruct Hst as [[H0 _]|[_ [Hfin _]]]; [lia|].
  unfold final_status in Hfin. rewrite Ha in Hfin.
  rewrite attempt_outcome_logged in Hfin by (apply Hlogged; lia).
  assert (Hlast : retryable (run_ssh w (max_retries self))) by (apply Hall; lia).
  destruct (run_ssh w (max_retries self)) as [rc out err| |msg].
  - simpl in Hlast. apply Z.eqb_neq in Hlast. rewrite Hlast in Hfin.
    destruct Hfin as [_ [Hs _]]. exact Hs.
  - destruct Hfin as [_ Hs]. exact Hs.
  - exact Hfin.
Qed.

Lemma last_attempt_decides_status_witness :
  attempts (box (worker (deployer 2 3) fails_then_times_out "goad-1" "10.0.1.5" 1)) = 3
  /\ status (box (worker (deployer 2 3) fails_then_times_out "goad-1" "10.0.1.5" 1))
     = "timeout".
Proof.
  apply (last_attempt_decides_status (deployer 2 3) fails_then_times_out
           "goad-1" "10.0.1.5" 1).
  - simpl. lia.
  - intros j Hj. simpl in Hj. unfold fails_then_times_out. simpl.
    destruct (j =? 3); simpl; [exact I | discriminate].
  - intros j _. reflexivity.
Defined.

(** X6: [box.start_time] is read from the clock once, when the first
    attempt begins (the second reading of the thread, after the
    timestamp of its log file), and no retry changes it: every state of
    the box that can be read has no start time or that one, and the box
    is returned with it as soon as one attempt was made. *)
Theorem start_time_is_taken_once self w bn bh bid :
  start_time (box (worker self w bn bh bid))
  = (if 0 <? attempts (box (worker self w bn bh bid))
     then Some (clock w 1) else None)
  /\ Forall (fun b => start_time b = None \/ start_time b = Some (clock w 1))
       (observations (DeploymentBox_init bn bh bid) (worker self w bn bh bid)).
Proof.
  destruct (worker_kept self w bn bh bid) as [_ Hstart _ _ Hstarts].
  split; [exact Hstart|].
  unfold observations. constructor; [left; reflexivity | exact Hstarts].
Qed.

(** X7: [box.error_output] is never cleared.  If attempt [j] returned a
    non-zero code, its output was appended to the log, and no later
    attempt returned a non-zero code, the box is returned with the
    standard error of attempt [j], split into lines, whatever the later
    attempts did: a later timeout, exception or success keeps it. *)
Theorem error_output_is_from_latest_failure self w bn bh bid j rc out err :
  1 <= j <= attempts (box (worker self w bn bh bid)) ->
  run_ssh w j = Completed rc out err -> rc <> 0 ->
  log_append w j = None ->
  (forall i, j < i <= attempts (box (worker self w bn bh bid)) ->
     returned_nonzero (run_ssh w i) = false) ->
  error_output (box (worker self w bn bh bid)) = split_lines err.
Proof.
  intros Hj Hrun Hrc Happ Hlater.
  destruct (worker_kept self w bn bh bid) as [_ _ _ Herr _].
  rewrite Herr.
  apply (stderr_kept_latest w _ (Z.to_nat j) rc out err).
  - lia.
  - replace (Z.of_nat (Z.to_nat j)) with j by lia.
    rewrite (attempt_outcome_logged w j Happ). exact Hrun.
  - exact Hrc.
  - intros i Hi. apply returned_nonzero_outcome. apply Hlater. lia.
Qed.

Lemma error_output_is_from_latest_failure_witness :
  error_output (box (worker (deployer 2 3) fails_then_succeeds "goad-1" "10.0.1.5" 1))
  = ["fatal: not ready"].
Proof.
  apply (error_output_is_from_latest_failure (deployer 2 3) fails_then_succeeds
           "goad-1" "10.0.1.5" 1 1 1 "" "fatal: not ready").
  - vm_compute. split; discriminate.
  - reflexivity.
  - discriminate.
  - reflexivity.
  - intros i Hi. unfold fails_then_succeeds. simpl.
    replace (i =? 1) with false by (symmetry; apply Z.eqb_neq; lia).
    reflexivity.
Defined.

(** X8: if the clock of a worker never goes back, the duration that the
    summary computes for its box, [end_time - start_time] when both are
    set and 0 otherwise, is not negative. *)
Theorem duration_is_not_negative self w bn bh bid :
  (forall i j, (i <= j)%nat -> clock w i <= clock w j) ->
  0 <= duration_of (box (worker self w bn bh bid)).
Proof.
  intros Hmono.
  destruct (worker_kept self w bn bh bid) as [_ Hstart Hend _ _].
  unfold duration_of. rewrite Hstart.
  destruct (0 <? attempts (box (worker self w bn bh bid))); [|lia].
  destruct Hend as [->|[k [Hk ->]]]; [lia|].
  specialize (Hmono 1%nat k Hk). lia.
Qed.

Lemma duration_is_not_negative_witness :
  0 <= duration_of (box (worker (deployer 2 3) always_exit_1 "goad-1" "10.0.1.5" 1)).
Proof.
  apply (duration_is_not_negative (deployer 2 3) always_exit_1 "goad-1" "10.0.1.5" 1).
  intros i j Hij. simpl. lia.
Defined.

(** ** The run, continued *)

Lemma fan_out_identities self env i entries :
  map identity (map box (fan_out self env i (map box_of_entry entries))) = entries.
Proof.
  revert i. induction entries as [|[[bn bh] bid] entries IH]; intros i; [reflexivity|].
  simpl. rewrite IH. f_equal.
  destruct (worker_done self (world_of env i) bn bh bid)
    as [_ _ _ _ _ _ _ _ _ _ _ [Hn [Hh Hi]]].
  unfold worker in Hn, Hh, Hi. unfold identity, box_of_entry. simpl.
  rewrite Hn, Hh, Hi. reflexivity.
Qed.

(** X9: in a run that joins its workers there is one worker per
    inventory entry, in inventory order, and each returns its box with
    the name, host and network id of its entry: [deploy_goad_on_box]
    never touches these fields. *)
Theorem joined_boxes_are_the_inventory self env entries workers :
  inventory env = InvParsed entries ->
  joined (deploy_all self env) = Some workers ->
  map identity (map box workers) = entries
  /\ map identity (started (deploy_all self env)) = entries.
Proof.
  intros Hinv Hj.
  destruct (deploy_all_shape self env) as [ | | | |entries' Hinv' Hne Hok HK];
    simpl in Hj; try discriminate Hj.
  injection Hj as <-. rewrite Hinv in Hinv'. injection Hinv' as <-.
  split; [apply fan_out_identities|]. simpl.
  clear. induction entries as [|[[bn bh] bid] entries IH]; [reflexivity|].
  simpl. rewrite IH. reflexivity.
Qed.

Lemma joined_boxes_are_the_inventory_witness :
  map identity
      (map box [worker (deployer 2 3) always_exit_1 "goad-1" "10.0.1.5" 1;
                worker (deployer 2 3) always_exit_1 "goad-2" "10.0.2.5" 2])
  = two_boxes
  /\ map identity
       (started (deploy_all (deployer 2 3)
                   (sample_env (InvParsed two_boxes) (StageReturned 0) always_exit_1)))
     = two_boxes.
Proof.
  apply (joined_boxes_are_the_inventory (deployer 2 3)
           (sample_env (InvParsed two_boxes) (StageReturned 0) always_exit_1)).
  - reflexivity.
  - reflexivity.
Defined.

(** X10: the outcomes of the Windows activation and of the Kali
    preparation never matter.  As soon as the inventory lists a box and
    the playbook of [prepare_deployment_boxes] returns 0, all three
    pre-stages have run, in order, and a thread is started for every
    box; with at least one permit the process then exits with code 0. *)
Theorem optional_stages_never_abort self env entries :
  inventory env = InvParsed entries -> entries <> [] ->
  stage_outcome env PrepareDeployment = StageReturned 0 ->
  stages_run (deploy_all self env) = stages_of env
  /\ started (deploy_all self env) = map box_of_entry entries
  /\ (max_threads self <> 0%nat ->
      joined (deploy_all self env) = Some (workers_of self env entries)
      /\ exit_code (deploy_all self env) = Some 0).
Proof.
  intros Hinv Hne Hok.
  destruct (deploy_all_shape self env)
    as [[H|H]|H|entries' H _ Hfail|entries' H _ _ HK|entries' H _ _ HK];
    rewrite Hinv in H; try discriminate H.
  - injection H as ->. contradiction Hne. reflexivity.
  - rewrite Hok in Hfail. simpl in Hfail. contradiction Hfail. reflexivity.
  - injection H as <-. simpl. split; [reflexivity|]. split; [reflexivity|].
    intros HK'. contradiction.
  - injection H as <-. simpl. split; [reflexivity|]. split; [reflexivity|].
    intros _. split; reflexivity.
Qed.

Lemma optional_stages_never_abort_witness :
  stages_run (deploy_all (deployer 2 3) optional_stages_fail)
  = [(ActivateWindows, StageTimeout); (PrepareKali, StageNotFound);
     (PrepareDeployment, StageReturned 0)]
  /\ started (deploy_all (deployer 2 3) optional_stages_fail)
     = [DeploymentBox_init "goad-1" "10.0.1.5" 1]
  /\ (max_threads (deployer 2 3) <> 0%nat ->
      joined (deploy_all (deployer 2 3) optional_stages_fail)
      = Some (workers_of (deployer 2 3) optional_stages_fail [("goad-1", "10.0.1.5", 1)])
      /\ exit_code (deploy_all (deployer 2 3) optional_stages_fail) = Some 0).
Proof.
  apply (optional_stages_never_abort (deployer 2 3) optional_stages_fail
           [("goad-1", "10.0.1.5", 1)]).
  - reflexivity.
  - discriminate.
  - reflexivity.
Defined.

(** X11: the pre-stages run in one fixed order, Windows activation,
    Kali preparation, preparation of the deployment boxes, and either
    none of them runs or all three do; a thread is only ever started
    after all three. *)
Theorem stages_run_in_order_before_any_thread self env :
  (map fst (stages_run (deploy_all self env)) = []
   \/ map fst (stages_run (deploy_all self env))
      = [ActivateWindows; PrepareKali; PrepareDeployment])
  /\ (started (deploy_all self env) <> [] ->
      map fst (stages_run (deploy_all self env))
      = [ActivateWindows; PrepareKali; PrepareDeployment]).
Proof.
  destruct (deploy_all_shape self env); simpl; (split; [auto|]);
    intros Hstarted; try reflexivity; contradiction Hstarted; reflexivity.
Qed.

(** ** The summary, continued *)

Lemma count_status_zero s l :
  count_status s l <= 0 -> Forall (fun b => String.eqb (status b) s = false) l.
Proof.
  induction l as [|b l IH]; intros Hc; [constructor|].
  rewrite count_status_cons in Hc. pose proof (count_status_nonneg s l) as Hn.
  destruct (String.eqb (status b) s) eqn:E; [lia|].
  constructor; [exact E | apply IH; lia].
Qed.

Lemma box_lines_of_failures boxes :
  filter is_box_line (flat_map failure_lines boxes)
  = map box_line (filter not_success boxes).
Proof.
  induction boxes as [|b boxes IH]; [reflexivity|].
  simpl. rewrite filter_app, IH. unfold failure_lines.
  destruct (not_success b); [|reflexivity].
  simpl. f_equal.
  destruct (error_output b), (log_file b); reflexivity.
Qed.

(** X12: whatever the boxes are, the box lines of the summary are those
    of the boxes whose status is "failed", "timeout" or "error", one
    line each, in the order of the inventory; a box in any other status
    (for instance "success", or "pending") is never listed, and the
    heading of the list is printed exactly when it has an entry. *)
Theorem summary_lists_exactly_the_failures self boxes total_duration :
  filter is_box_line (print_summary self boxes total_duration)
  = map box_line (filter not_success boxes)
  /\ (In LFailuresHeader (print_summary self boxes total_duration)
      <-> filter not_success boxes <> []).
Proof.
  unfold print_summary.
  destruct ((0 <? failed_count boxes) || (0 <? timeout_count boxes)
            || (0 <? error_count boxes)) eqn:Hany.
  - rewrite filter_app. simpl. rewrite box_lines_of_failures. split; [reflexivity|].
    split.
    + intros _ Hnone.
      assert (Hall : Forall (fun b => not_success b = false) boxes).
      { apply Forall_forall. intros b Hin.
        destruct (not_success b) eqn:Hns; [|reflexivity].
        assert (Hf : In b (filter not_success boxes))
          by (apply filter_In; split; assumption).
        rewrite Hnone in Hf. contradiction. }
      assert (Hzero : forall s, In s ["failed"; "timeout"; "error"] ->
                                count_status s boxes = 0).
      { intros s Hs. clear Hany Hnone.
        induction Hall as [|b l Hb _ IH]; [reflexivity|].
        rewrite count_status_cons, IH. unfold not_success in Hb.
        apply orb_false_iff in Hb. destruct Hb as [Hb H3].
        apply orb_false_iff in Hb. destruct Hb as [H1 H2].
        destruct Hs as [<-|[<-|[<-|[]]]]; rewrite ?H1, ?H2, ?H3; reflexivity. }
      unfold failed_count, timeout_count, error_count in Hany.
      rewrite !Hzero in Hany by (simpl; auto). discriminate Hany.
    + intros _. do 9 right. left. reflexivity.
  - rewrite app_nil_r. simpl.
    apply orb_false_iff in Hany. destruct Hany as [Hany H3].
    apply orb_false_iff in Hany. destruct Hany as [H1 H2].
    apply Z.ltb_ge in H1, H2, H3.
    apply count_status_zero in H1, H2, H3.
    assert (Hnone : filter not_success boxes = []).
    { clear - H1 H2 H3.
      induction boxes as [|b boxes IH]; [reflexivity|].
      inversion H1 as [|? ? E1 H1']; inversion H2 as [|? ? E2 H2'];
        inversion H3 as [|? ? E3 H3']; subst.
      simpl. unfold not_success at 1. rewrite E1, E2, E3. simpl.
      apply IH; assumption. }
    rewrite Hnone. split; [reflexivity|].
    split.
    + intros Hin. repeat (destruct Hin as [Hin|Hin]; [discriminate Hin|]).
      contradiction.
    + intros H. contradiction H. reflexivity.
Qed.

Lemma total_attempts_cons b l : total_attempts (b :: l) = attempts b + total_attempts l.
Proof. unfold total_attempts. simpl map. apply py_sum_cons. Qed.

Lemma retried_count_cons b l :
  retried_count (b :: l) = (if 1 <? attempts b then 1 else 0) + retried_count l.
Proof.
  unfold retried_count. simpl.
  destruct (1 <? attempts b); simpl; [apply py_sum_cons | reflexivity].
Qed.

Lemma worker_attempts_range self w bn bh bid :
  1 <= max_retries self ->
  1 <= attempts (box (worker self w bn bh bid)) <= max_retries self.
Proof.
  intros HR.
  destruct (worker_done self w bn bh bid) as [[Ha0 Hrange] _ _ Hst _ _ _ _ _ _ _ _].
  destruct Hst as [[_ [H0 _]]|[H1 _]]; lia.
Qed.

(** X13: when at least one attempt is allowed, the totals of a completed
    run are consistent with the number [N] of boxes: the total number of
    attempts lies between [N] and [N * max_retries], and the number of
    retried boxes between 0 and [N]; with [max_retries = 1] no box is
    counted as retried. *)
Theorem summary_totals_are_bounded self env workers :
  1 <= max_retries self ->
  joined (deploy_all self env) = Some workers ->
  Z.of_nat (List.length workers) <= total_attempts (map box workers)
    <= Z.of_nat (List.length workers) * max_retries self
  /\ 0 <= retried_count (map box workers) <= Z.of_nat (List.length workers)
  /\ (max_retries self = 1 -> retried_count (map box workers) = 0).
Proof.
  intros HR Hj.
  destruct (deploy_all_shape self env) as [ | | | |entries Hinv Hne Hok HK];
    simpl in Hj; try discriminate Hj.
  injection Hj as <-.
  assert (Hall : Forall (fun th => 1 <= attempts (box th) <= max_retries self)
                   (fan_out self env 0 (map box_of_entry entries))).
  { apply Forall_forall. intros th Hin.
    destruct (fan_out_workers self env entries 0 th Hin) as [j [bn [bh [bid ->]]]].
    apply worker_attempts_range. assumption. }
  set (l := fan_out self env 0 (map box_of_entry entries)) in *. clearbody l.
  clear Hinv Hne Hok HK entries.
  induction Hall as [|th l Hth _ IH]; [cbn; split; [lia|]; split; [lia | reflexivity]|].
  simpl map. rewrite total_attempts_cons, retried_count_cons.
  change (List.length (th :: l)) with (S (List.length l)).
  rewrite Nat2Z.inj_succ.
  destruct IH as [IH1 [IH2 IH3]].
  split; [nia|]. split.
  - destruct (1 <? attempts (box th)); lia.
  - intros H1. rewrite (IH3 H1).
    replace (1 <? attempts (box th)) with false; [reflexivity|].
    symmetry. apply Z.ltb_ge. lia.
Qed.

Lemma summary_totals_are_bounded_witness :
  1 <= total_attempts
         (map box [worker (deployer 2 3) always_exit_1 "goad-1" "10.0.1.5" 1]) <= 1 * 3
  /\ 0 <= retried_count
            (map box [worker (deployer 2 3) always_exit_1 "goad-1" "10.0.1.5" 1]) <= 1
  /\ (3 = 1 -> retried_count
                 (map box [worker (deployer 2 3) always_exit_1 "goad-1" "10.0.1.5" 1]) = 0).
Proof.
  apply (summary_totals_are_bounded (deployer 2 3)
           (sample_env one_box (StageReturned 0) always_exit_1)
           [worker (deployer 2 3) always_exit_1 "goad-1" "10.0.1.5" 1]).
  - simpl. lia.
  - reflexivity.
Defined.

(** ** The admission semaphore, continued *)

Lemma reachable_trans s1 s2 s3 : reachable s1 s2 -> reachable s2 s3 -> reachable s1 s3.
Proof.
  intros H12 H23. induction H23 as [|s3 s4 _ IH Hstep]; [exact H12|].
  exact (reach_step s1 s3 s4 IH Hstep).
Qed.

(** Threads that have finished their well-bracketed traces have
    released every permit they acquired. *)
Lemma finished_threads_hold_nothing trs ts :
  Forall well_bracketed trs -> on_traces trs ts ->
  Forall (fun t => todo t = []) ts ->
  total acquired ts = total released ts.
Proof.
  intros Hwb Hon. revert Hwb.
  induction Hon as [|t tr ts trs Ht _ IH]; intros Hwb Hfin; [reflexivity|].
  inversion Hwb as [|tr0 trs0 Hwb1 Hwb2]; subst.
  inversion Hfin as [|t0 ts0 Htodo Hfin']; subst.
  rewrite !total_cons, (IH Hwb2 Hfin'). f_equal.
  destruct (position_of_split _ _ _ Hwb1 eq_refl)
    as [_ [rest Hrest]|m1 m2 _ Hrest _ _ _ _|_ Ha Hr _].
  - rewrite Htodo in Hrest. discriminate Hrest.
  - rewrite Htodo in Hrest. destruct m2; discriminate Hrest.
  - rewrite Ha, Hr. reflexivity.
Qed.

Lemma all_finished_dec (ts : list Task) :
  Forall (fun t => todo t = []) ts \/ exists t, In t ts /\ todo t <> [].
Proof.
  induction ts as [|t ts [IH|[t' [Hin Hne]]]].
  - left. constructor.
  - destruct (todo t) as [|e rest] eqn:Htodo.
    + left. constructor; assumption.
    + right. exists t. split; [left; reflexivity|]. rewrite Htodo. discriminate.
  - right. exists t'. split; [right; assumption | assumption].
Qed.

(** X14: with at least one permit the worker threads cannot get stuck.
    From every state that they can reach, they can go on until every
    thread has finished; then every permit is back in the semaphore and
    each thread has performed exactly the events of its own
    [deploy_goad_on_box], so the joins of [deploy_all] return. *)
Theorem pool_runs_to_completion self env entries s :
  (0 < max_threads self)%nat ->
  reachable (start_pool self (workers_of self env entries)) s ->
  exists s',
    reachable s s'
    /\ Forall (fun t => todo t = []) (tasks s')
    /\ permits s' = max_threads self
    /\ map done (tasks s') = map trace (workers_of self env entries).
Proof.
  intros HK.
  remember (remaining s) as n eqn:Hn. revert s Hn.
  induction n as [n IH] using lt_wf_ind. intros s Hn Hreach.
  destruct (all_finished_dec (tasks s)) as [Hfin|Hbusy].
  - exists s. split; [apply reach_refl|]. split; [exact Hfin|]. split.
    + destruct (reachable_invariant _ _ _ Hreach) as [Hon Hbal].
      pose proof (workers_well_bracketed self env entries) as Hwb.
      pose proof (finished_threads_hold_nothing _ _ Hwb Hon Hfin) as Heq.
      unfold balanced in Hbal. lia.
    + apply (joined_pool_traces self env entries s Hreach Hfin).
  - destruct (pool_progress self env entries s HK Hreach Hbusy) as [s1 Hstep].
    pose proof (step_consumes_one_event s s1 Hstep) as Hdec.
    assert (Hreach1 : reachable (start_pool self (workers_of self env entries)) s1)
      by exact (reach_step _ s s1 Hreach Hstep).
    assert (Hlt : (remaining s1 < n)%nat) by lia.
    destruct (IH _ Hlt s1 eq_refl Hreach1) as [s' [Hpath Hrest]].
    exists s'. split; [|exact Hrest].
    apply (reachable_trans s s1 s'); [|exact Hpath].
    exact (reach_step s s s1 (reach_refl s) Hstep).
Qed.

Lemma pool_runs_to_completion_witness :
  exists s',
    reachable first_admitted s'
    /\ Forall (fun t => todo t = []) (tasks s')
    /\ permits s' = 1%nat
    /\ map done (tasks s')
       = map trace (workers_of (deployer 1 3)
                      (sample_env (InvParsed two_boxes) (StageReturned 0) always_exit_1)
                      two_boxes).
Proof.
  apply (pool_runs_to_completion (deployer 1 3)
           (sample_env (InvParsed two_boxes) (StageReturned 0) always_exit_1)
           two_boxes first_admitted).
  - simpl. lia.
  - exact first_admitted_reachable.
Defined.

(** ** The admission semaphore, at its limits *)

Lemma filter_length_lt {A} (f : A -> bool) (l : list A) (x : A) :
  In x l -> f x = false -> (List.length (filter f l) < List.length l)%nat.
Proof.
  induction l as [|y l IH]; intros Hin Hx; [contradiction|].
  simpl. pose proof (filter_length_le f l) as Hle.
  destruct Hin as [->|Hin].
  - rewrite Hx. lia.
  - specialize (IH Hin Hx). destruct (f y); simpl; lia.
Qed.

Lemma on_traces_length trs ts : on_traces trs ts -> List.length ts = List.length trs.
Proof. induction 1; simpl; congruence. Qed.

Lemma workers_of_length self env entries :
  List.length (workers_of self env entries) = List.length entries.
Proof. unfold workers_of. rewrite fan_out_length, length_map. reflexivity. Qed.

(** A thread whose next event is its [acquire] holds no slot. *)
Lemma waiting_thread_holds_nothing d t rest :
  Position d t -> t = EvAcquire :: rest -> d = [].
Proof.
  intros [Hd _|m1 m2 _ Ht _ _ Ha2 _|Ht _ _ _] Hnext.
  - exact Hd.
  - exfalso. rewrite Ht in Hnext. destruct m2 as [|e m2]; [discriminate Hnext|].
    injection Hnext as -> _. unfold acquired in Ha2. simpl in Ha2. discriminate Ha2.
  - rewrite Ht in Hnext. discriminate Hnext.
Qed.

(** X25: with at least as many permits as boxes no worker ever waits
    for the semaphore: in every state that the threads can reach, a
    thread that has come to its [acquire] finds a permit and goes
    on. *)
Theorem enough_permits_mean_no_waiting self env entries s before t after rest :
  (List.length entries <= max_threads self)%nat ->
  reachable (start_pool self (workers_of self env entries)) s ->
  tasks s = (before ++ t :: after)%list ->
  todo t = EvAcquire :: rest ->
  (1 <= permits s)%nat
  /\ step s (mkPool (permits s - 1)
                    (before ++ mkTask (done t ++ [EvAcquire]) rest :: after)).
Proof.
  intros HK Hreach Htasks Hnext.
  destruct (reachable_invariant _ _ _ Hreach) as [Hon Hbal].
  pose proof (workers_well_bracketed self env entries) as Hwb.
  pose proof (holders_count _ _ Hwb Hon) as Hcount.
  pose proof (on_traces_length _ _ Hon) as Hlen.
  rewrite length_map, workers_of_length in Hlen.
  assert (Hin : In t (tasks s))
    by (rewrite Htasks; apply in_or_app; right; left; reflexivity).
  assert (Hfree : holds t = false).
  { destruct (on_traces_In _ _ _ Hon Hin) as [tr [Htr Hsplit]].
    rewrite Forall_forall in Hwb.
    pose proof (position_of_split _ _ _ (Hwb tr Htr) Hsplit) as Hpos.
    unfold holds. rewrite (waiting_thread_holds_nothing _ _ _ Hpos Hnext). reflexivity. }
  pose proof (filter_length_lt holds (tasks s) t Hin Hfree) as Hlt.
  unfold balanced in Hbal.
  assert (Hp : (1 <= permits s)%nat) by lia.
  split; [exact Hp|].
  destruct s as [p ts]. simpl in *. subst ts.
  destruct p as [|p]; [lia|].
  replace (S p - 1)%nat with p by lia.
  exact (step_task (S p) p before t after EvAcquire rest Hnext eq_refl).
Qed.

Lemma enough_permits_mean_no_waiting_witness :
  (1 <= permits (start_pool (deployer 2 3)
                   (workers_of (deployer 2 3)
                      (sample_env (InvParsed two_boxes) (StageReturned 0) always_exit_1)
                      two_boxes)))%nat
  /\ step (start_pool (deployer 2 3)
             (workers_of (deployer 2 3)
                (sample_env (InvParsed two_boxes) (StageReturned 0) always_exit_1)
                two_boxes))
          (mkPool 1
             ([] ++ mkTask ([] ++ [EvAcquire])
                      (tl (trace (worker (deployer 2 3) always_exit_1
                                    "goad-1" "10.0.1.5" 1)))
                 :: [mkTask [] (trace (worker (deployer 2 3) always_exit_1
                                         "goad-2" "10.0.2.5" 2))])).
Proof.
  apply (enough_permits_mean_no_waiting (deployer 2 3)
           (sample_env (InvParsed two_boxes) (StageReturned 0) always_exit_1)
           two_boxes
           (start_pool (deployer 2 3)
              (workers_of (deployer 2 3)
                 (sample_env (InvParsed two_boxes) (StageReturned 0) always_exit_1)
                 two_boxes))
           []
           (mkTask [] (trace (worker (deployer 2 3) always_exit_1 "goad-1" "10.0.1.5" 1)))
           [mkTask [] (trace (worker (deployer 2 3) always_exit_1 "goad-2" "10.0.2.5" 2))]
           (tl (trace (worker (deployer 2 3) always_exit_1 "goad-1" "10.0.1.5" 1)))).
  - simpl. lia.
  - apply reach_refl.
  - reflexivity.
  - vm_compute. reflexivity.
Defined.

(** X26: with [--threads 0] a run whose inventory lists a box and whose
    preparation succeeds starts a thread for every box, but the
    semaphore has no permit: no thread ever gets past its [acquire], so
    no attempt is made, the joins never return, nothing is printed and
    the process never exits. *)
Theorem zero_threads_block_the_run self env entries :
  max_threads self = 0%nat ->
  inventory env = InvParsed entries -> entries <> [] ->
  stage_outcome env PrepareDeployment = StageReturned 0 ->
  started (deploy_all self env) = map box_of_entry entries
  /\ joined (deploy_all self env) = None
  /\ printed (deploy_all self env) = []
  /\ exit_code (deploy_all self env) = None
  /\ forall s, reachable (start_pool self (workers_of self env entries)) s ->
               Forall (fun t => done t = []) (tasks s).
Proof.
  intros HK Hinv Hne Hok.
  assert (Hrun : deploy_all self env
                 = mkRun (stages_of env) (map box_of_entry entries) None [] None).
  { destruct (deploy_all_shape self env)
      as [[H|H]|H|entries' H _ Hfail|entries' H _ _ _|entries' H _ _ HK'];
      rewrite Hinv in H; try discriminate H.
    - injection H as ->. contradiction Hne. reflexivity.
    - rewrite Hok in Hfail. simpl in Hfail. contradiction Hfail. reflexivity.
    - injection H as <-. reflexivity.
    - contradiction. }
  rewrite Hrun. simpl.
  split; [reflexivity|]. split; [reflexivity|]. split; [reflexivity|].
  split; [reflexivity|].
  intros s Hreach.
  rewrite (semaphore_zero_blocks self env entries s HK Hreach).
  unfold start_pool. simpl. apply Forall_forall. intros t Hin.
  apply in_map_iff in Hin. destruct Hin as [th [<- _]]. reflexivity.
Qed.

Lemma zero_threads_block_the_run_witness :
  started (deploy_all (deployer 0 3) (sample_env one_box (StageReturned 0) always_exit_1))
  = [DeploymentBox_init "goad-1" "10.0.1.5" 1]
  /\ joined (deploy_all (deployer 0 3)
               (sample_env one_box (StageReturned 0) always_exit_1)) = None
  /\ printed (deploy_all (deployer 0 3)
                (sample_env one_box (StageReturned 0) always_exit_1)) = []
  /\ exit_code (deploy_all (deployer 0 3)
                  (sample_env one_box (StageReturned 0) always_exit_1)) = None
  /\ forall s,
       reachable (start_pool (deployer 0 3)
                    (workers_of (deployer 0 3)
                       (sample_env one_box (StageReturned 0) always_exit_1)
                       [("goad-1", "10.0.1.5", 1)])) s ->
       Forall (fun t => done t = []) (tasks s).
Proof.
  apply (zero_threads_block_the_run (deployer 0 3)
           (sample_env one_box (StageReturned 0) always_exit_1)
           [("goad-1", "10.0.1.5", 1)]).
  - reflexivity.
  - reflexivity.
  - discriminate.
  - reflexivity.
Defined.

(** * Properties of the inventory *)

(** ** Strings *)

Lemma skip_chars_app a b : skip_chars (String.length a) (a ++ b) = b.
Proof. induction a as [|c a IH]; [reflexivity | exact IH]. Qed.

Lemma prefix_chars_app a b : prefix_chars (String.length a) (a ++ b) = a.
Proof.
  unfold prefix_chars. induction a as [|c a IH]; simpl.
  - destruct b; reflexivity.
  - rewrite IH. reflexivity.
Qed.

Lemma prefix_skip_chars k s : prefix_chars k s ++ skip_chars k s = s.
Proof.
  unfold prefix_chars. revert s. induction k as [|k IH]; intros [|c s]; simpl;
    try reflexivity.
  rewrite IH. reflexivity.
Qed.

Lemma startswith_app p s : startswith (p ++ s) p = true.
Proof.
  induction p as [|c p IH]; [reflexivity|].
  simpl. rewrite Ascii.eqb_refl. exact IH.
Qed.

Lemma startswith_split s p : startswith s p = true -> s = p ++ skip_chars (String.length p) s.
Proof.
  revert s. induction p as [|a p IH]; intros s H; [reflexivity|].
  destruct s as [|b s]; [discriminate H|].
  simpl in H. apply andb_prop in H. destruct H as [Hab Hrest].
  apply Ascii.eqb_eq in Hab. subst b. simpl. f_equal. exact (IH s Hrest).
Qed.

Lemma string_app_assoc (a b c : string) : (a ++ b) ++ c = a ++ (b ++ c).
Proof. induction a as [|x a IH]; [reflexivity|]. simpl. rewrite IH. reflexivity. Qed.

Lemma string_app_nil_r (a : string) : a ++ "" = a.
Proof. induction a as [|x a IH]; [reflexivity|]. simpl. rewrite IH. reflexivity. Qed.

Lemma string_length_app (a b : string) :
  String.length (a ++ b) = (String.length a + String.length b)%nat.
Proof. induction a as [|x a IH]; [reflexivity|]. simpl. rewrite IH. reflexivity. Qed.

Lemma all_chars_app class a b :
  all_chars class (a ++ b) = all_chars class a && all_chars class b.
Proof.
  induction a as [|c a IH]; [reflexivity|].
  simpl. rewrite IH. apply andb_assoc.
Qed.

Lemma span_app class a b :
  all_chars class a = true ->
  span class (a ++ b) = (String.length a + span class b)%nat.
Proof.
  induction a as [|c a IH]; intros H; [reflexivity|].
  simpl in H. apply andb_prop in H. destruct H as [Hc Ha].
  simpl. rewrite Hc, (IH Ha). reflexivity.
Qed.

Lemma span_all class a : all_chars class a = true -> span class a = String.length a.
Proof.
  intros H. rewrite <- (string_app_nil_r a) at 1.
  rewrite (span_app class a "" H). simpl. lia.
Qed.

Lemma span_le_length class s : (span class s <= String.length s)%nat.
Proof.
  induction s as [|c s IH]; simpl; [lia|]. destruct (class c); lia.
Qed.

Lemma prefix_chars_length k s :
  (k <= String.length s)%nat -> String.length (prefix_chars k s) = k.
Proof.
  unfold prefix_chars. revert s. induction k as [|k IH]; intros [|c s] H; simpl in *;
    try reflexivity; try lia.
  rewrite IH by lia. reflexivity.
Qed.

Lemma prefix_chars_in_span class k s :
  (k <= span class s)%nat -> all_chars class (prefix_chars k s) = true.
Proof.
  unfold prefix_chars. revert s. induction k as [|k IH]; intros [|c s] H; simpl in *;
    try reflexivity; try lia.
  destruct (class c) eqn:Hc; [|lia].
  simpl. apply IH. lia.
Qed.

Lemma nonempty_length (s : string) : (1 <= String.length s)%nat -> s <> "".
Proof. destruct s; simpl; [lia | discriminate]. Qed.

Lemma is_word_spec s : is_word s = true <-> s <> "" /\ all_chars nonspace s = true.
Proof.
  unfold is_word. rewrite andb_true_iff, negb_true_iff. split.
  - intros [Hne Hall]. split; [|exact Hall]. intros ->. discriminate Hne.
  - intros [Hne Hall]. split; [|exact Hall].
    destruct (String.eqb s "") eqn:E; [|reflexivity].
    apply String.eqb_eq in E. contradiction.
Qed.

(** ** Backtracking *)

Lemma longest_first_some {A} (try : nat -> option A) least more r :
  longest_first try least more = Some r ->
  exists k, (k <= more)%nat /\ try (least + k)%nat = Some r.
Proof.
  induction more as [|more IH]; simpl.
  - destruct (try (least + 0)%nat) eqn:E; [|discriminate].
    intros H. exists 0%nat. split; [lia|]. rewrite E. exact H.
  - destruct (try (least + S more)%nat) eqn:E.
    + intros H. exists (S more). split; [lia|]. rewrite E. exact H.
    + intros H. destruct (IH H) as [k [Hk Hr]]. exists k. split; [lia | exact Hr].
Qed.

Lemma longest_first_at {A} (try : nat -> option A) least more j r :
  (j <= more)%nat ->
  (forall k, (j < k <= more)%nat -> try (least + k)%nat = None) ->
  try (least + j)%nat = Some r ->
  longest_first try least more = Some r.
Proof.
  intros Hj Hnone Hr. induction more as [|more IH].
  - assert (j = 0)%nat by lia. subst j. simpl. rewrite Hr. reflexivity.
  - destruct (Nat.eq_dec j (S more)) as [->|Hne].
    + simpl. rewrite Hr. reflexivity.
    + simpl. rewrite (Hnone (S more)) by lia.
      apply IH; [lia|]. intros k Hk. apply Hnone. lia.
Qed.

Lemma longest_first_none {A} (try : nat -> option A) least more :
  (forall k, (k <= more)%nat -> try (least + k)%nat = None) ->
  longest_first try least more = None.
Proof.
  intros Hnone. induction more as [|more IH]; simpl.
  - rewrite (Hnone 0%nat) by lia. reflexivity.
  - rewrite (Hnone (S more)) by lia. apply IH. intros k Hk. apply Hnone. lia.
Qed.

(** ** One item of a pattern *)

Lemma re_match_literal text pattern s groups :
  re_match (Literal text :: pattern) s = Some groups ->
  s = text ++ skip_chars (String.length text) s
  /\ re_match pattern (skip_chars (String.length text) s) = Some groups.
Proof.
  simpl. destruct (startswith s text) eqn:E; [|discriminate].
  intros H. split; [apply startswith_split; exact E | exact H].
Qed.

Lemma re_match_repeat class at_least captured pattern s groups :
  re_match (Repeat class at_least captured :: pattern) s = Some groups ->
  exists k groups',
    (at_least <= k <= span class s)%nat
    /\ re_match pattern (skip_chars k s) = Some groups'
    /\ groups = (if captured then prefix_chars k s :: groups' else groups').
Proof.
  simpl. destruct (span class s <? at_least)%nat eqn:E; [discriminate|].
  apply Nat.ltb_ge in E. intros H.
  apply longest_first_some in H. destruct H as [k [Hk H]].
  destruct (re_match pattern (skip_chars (at_least + k) s)) as [groups'|] eqn:E';
    [|discriminate].
  exists (at_least + k)%nat, groups'. split; [lia|]. split; [exact E'|].
  injection H as <-. reflexivity.
Qed.

(** What a repetition has consumed. *)
Lemma repeat_consumed class k s :
  (k <= span class s)%nat ->
  s = prefix_chars k s ++ skip_chars k s
  /\ String.length (prefix_chars k s) = k
  /\ all_chars class (prefix_chars k s) = true.
Proof.
  intros Hk. split; [symmetry; apply prefix_skip_chars|]. split.
  - apply prefix_chars_length. pose proof (span_le_length class s). lia.
  - apply prefix_chars_in_span. exact Hk.
Qed.

Lemma skip_chars_add j k s : skip_chars (j + k) s = skip_chars k (skip_chars j s).
Proof.
  revert s. induction j as [|j IH]; intros s; [reflexivity|].
  destruct s as [|c s]; simpl.
  - destruct k; reflexivity.
  - apply IH.
Qed.

Lemma all_chars_skip class k s :
  all_chars class s = true -> all_chars class (skip_chars k s) = true.
Proof.
  revert s. induction k as [|k IH]; intros s H; [exact H|].
  destruct s as [|c s]; [reflexivity|].
  simpl in H. apply andb_prop in H. destruct H as [_ H]. exact (IH s H).
Qed.

Lemma re_match_repeat_eq class at_least captured pattern s :
  re_match (Repeat class at_least captured :: pattern) s =
  if (span class s <? at_least)%nat then None
  else longest_first
         (fun k => match re_match pattern (skip_chars k s) with
                   | Some groups =>
                       Some (if captured then prefix_chars k s :: groups else groups)
                   | None => None
                   end)
         at_least (span class s - at_least).
Proof. reflexivity. Qed.

(** A greedy repetition takes all of [a] when the class stops there and
    the rest of the pattern matches what follows. *)
Lemma re_match_repeat_greedy class at_least captured pattern a b groups :
  all_chars class a = true -> span class b = 0%nat ->
  (at_least <= String.length a)%nat ->
  re_match pattern b = Some groups ->
  re_match (Repeat class at_least captured :: pattern) (a ++ b)
  = Some (if captured then a :: groups else groups).
Proof.
  intros Ha Hb Hlen Hrest. simpl.
  rewrite (span_app class a b Ha), Hb, Nat.add_0_r.
  replace (String.length a <? at_least)%nat with false
    by (symmetry; apply Nat.ltb_ge; exact Hlen).
  apply (longest_first_at _ _ _ (String.length a - at_least)%nat); [lia|intros k Hk; lia|].
  replace (at_least + (String.length a - at_least))%nat with (String.length a) by lia.
  rewrite skip_chars_app, prefix_chars_app, Hrest. reflexivity.
Qed.

Lemma re_match_literal_app text pattern b :
  re_match (Literal text :: pattern) (text ++ b) = re_match pattern b.
Proof. simpl. rewrite startswith_app, skip_chars_app. reflexivity. Qed.

Lemma isdigit_nonspace c : isdigit c = true -> nonspace c = true.
Proof.
  unfold isdigit, nonspace, isspace. intros H.
  apply andb_prop in H. destruct H as [H1 H2].
  apply Nat.leb_le in H1, H2. apply negb_true_iff.
  repeat (apply orb_false_iff; split); try (apply andb_false_iff);
    try (left; apply Nat.leb_gt; lia); try (right; apply Nat.leb_gt; lia);
    try (apply Nat.eqb_neq; lia).
Qed.

Lemma isdigit_dot c : isdigit c = true -> dot c = true.
Proof.
  unfold isdigit, dot. intros H. apply negb_true_iff. apply Ascii.eqb_neq.
  intros ->. discriminate H.
Qed.

Lemma all_chars_weaken (p q : ascii -> bool) s :
  (forall c, p c = true -> q c = true) ->
  all_chars p s = true -> all_chars q s = true.
Proof.
  intros Hpq. induction s as [|c s IH]; [reflexivity|].
  simpl. intros H. apply andb_prop in H. destruct H as [Hc Hs].
  rewrite (Hpq c Hc), (IH Hs). reflexivity.
Qed.

(** No proper suffix of ["network_id=" ++ digits] starts with
    ["network_id="]. *)
Lemma no_later_network_id j nid :
  (1 <= j)%nat -> all_chars isdigit nid = true ->
  startswith (skip_chars j ("network_id=" ++ nid)) "network_id=" = false.
Proof.
  intros Hj Hd.
  do 11 (destruct j as [|j]; [first [lia | reflexivity]|]).
  change (skip_chars (S (S (S (S (S (S (S (S (S (S (S j)))))))))))
            ("network_id=" ++ nid)) with (skip_chars j nid).
  pose proof (all_chars_skip isdigit j nid Hd) as Hs.
  destruct (skip_chars j nid) as [|c rest]; [reflexivity|].
  simpl in Hs. apply andb_prop in Hs. destruct Hs as [Hc _].
  cbn [startswith]. destruct (Ascii.eqb "n" c) eqn:E; [|reflexivity].
  apply Ascii.eqb_eq in E. subst c. discriminate Hc.
Qed.

(** The tail of the pattern, [.*network_id=(\d+)], on text that ends
    with ["network_id=" ++ digits]: the digits at the end are the
    group, whatever comes before. *)
Lemma re_match_last_network_id mid nid :
  all_chars dot mid = true -> nid <> "" -> all_chars isdigit nid = true ->
  re_match [Repeat dot 0 false; Literal "network_id="; Repeat isdigit 1 true]
           (mid ++ "network_id=" ++ nid)
  = Some [nid].
Proof.
  intros Hmid Hne Hd.
  assert (Hall : all_chars dot (mid ++ "network_id=" ++ nid) = true).
  { rewrite !all_chars_app, Hmid. simpl.
    apply (all_chars_weaken isdigit dot); [exact isdigit_dot | exact Hd]. }
  rewrite re_match_repeat_eq, (span_all dot _ Hall).
  change (String.length (mid ++ "network_id=" ++ nid) <? 0)%nat with false.
  cbv iota. rewrite Nat.sub_0_r.
  apply (longest_first_at _ _ _ (String.length mid)).
  - rewrite string_length_app. lia.
  - intros k Hk. cbv beta. change (0 + k)%nat with k.
    assert (Hlit : forall t, re_match [Literal "network_id="; Repeat isdigit 1 true] t =
                     if startswith t "network_id="
                     then re_match [Repeat isdigit 1 true] (skip_chars 11 t) else None)
      by reflexivity.
    rewrite Hlit.
    replace k with (String.length mid + (k - String.length mid))%nat by lia.
    rewrite skip_chars_add, skip_chars_app.
    rewrite no_later_network_id; [reflexivity | lia | exact Hd].
  - cbv beta. change (0 + String.length mid)%nat with (String.length mid).
    rewrite skip_chars_app.
    rewrite (re_match_literal_app "network_id=" [Repeat isdigit 1 true] nid).
    rewrite <- (string_app_nil_r nid) at 1.
    rewrite (re_match_repeat_greedy isdigit 1 true [] nid "" [] Hd eq_refl).
    + reflexivity.
    + destruct nid; [contradiction Hne; reflexivity | simpl; lia].
    + reflexivity.
Qed.

Lemma span_nonspace_stops s b :
  starts_with_space s = true -> span nonspace (s ++ b) = 0%nat.
Proof.
  destruct s as [|c s]; [discriminate|].
  simpl. unfold nonspace. intros ->. reflexivity.
Qed.

(** The fields of an inventory line.  A line made of a name,
    whitespace, [ansible_host=] and a host, then any text that starts
    with whitespace, then [network_id=] and digits at its very end, is
    matched with the name, the host and these digits as its groups. *)
Lemma inventory_line_matches nm ws hst mid nid :
  is_word nm = true ->
  ws <> "" -> all_chars isspace ws = true ->
  is_word hst = true ->
  starts_with_space mid = true -> all_chars dot mid = true ->
  nid <> "" -> all_chars isdigit nid = true ->
  re_match inventory_line
           (nm ++ ws ++ "ansible_host=" ++ hst ++ mid ++ "network_id=" ++ nid)
  = Some [nm; hst; nid].
Proof.
  intros Hnm Hws Hspace Hhst Hmid Hdot Hnid Hdigits.
  apply is_word_spec in Hnm, Hhst.
  destruct Hnm as [Hnm1 Hnm2]. destruct Hhst as [Hhst1 Hhst2].
  unfold inventory_line.
  rewrite (re_match_repeat_greedy nonspace 1 true _ nm _ [hst; nid] Hnm2);
    [reflexivity| | |].
  - destruct ws as [|c ws]; [contradiction Hws; reflexivity|].
    simpl in Hspace. apply andb_prop in Hspace. destruct Hspace as [Hc _].
    simpl. unfold nonspace. rewrite Hc. reflexivity.
  - destruct nm; [contradiction Hnm1; reflexivity | simpl; lia].
  - rewrite (re_match_repeat_greedy isspace 1 false _ ws _ [hst; nid] Hspace);
      [reflexivity | reflexivity | |].
    + destruct ws; [contradiction Hws; reflexivity | simpl; lia].
    + rewrite re_match_literal_app.
      rewrite (re_match_repeat_greedy nonspace 1 true _ hst _ [nid] Hhst2);
        [reflexivity | | |].
      * apply span_nonspace_stops. exact Hmid.
      * destruct hst; [contradiction Hhst1; reflexivity | simpl; lia].
      * apply re_match_last_network_id; assumption.
Qed.

(** What a match of the pattern says about the line and the groups. *)
Lemma inventory_line_sound s groups :
  re_match inventory_line s = Some groups ->
  exists nm ws hst mid nid tail,
    groups = [nm; hst; nid]
    /\ s = nm ++ ws ++ "ansible_host=" ++ hst ++ mid ++ "network_id=" ++ nid ++ tail
    /\ is_word nm = true
    /\ ws <> "" /\ all_chars isspace ws = true
    /\ is_word hst = true
    /\ all_chars dot mid = true
    /\ nid <> "" /\ all_chars isdigit nid = true.
Proof.
  unfold inventory_line. intros H.
  apply re_match_repeat in H. destruct H as [k1 [g1 [Hk1 [H ->]]]].
  apply re_match_repeat in H. destruct H as [k2 [g2 [Hk2 [H ->]]]].
  apply re_match_literal in H. destruct H as [E3 H].
  apply re_match_repeat in H. destruct H as [k4 [g4 [Hk4 [H ->]]]].
  apply re_match_repeat in H. destruct H as [k5 [g5 [Hk5 [H ->]]]].
  apply re_match_literal in H. destruct H as [E6 H].
  apply re_match_repeat in H. destruct H as [k7 [g7 [Hk7 [H ->]]]].
  simpl in H. injection H as <-.
  set (s1 := skip_chars k1 s) in *.
  set (s2 := skip_chars k2 s1) in *.
  set (s3 := skip_chars (String.length "ansible_host=") s2) in *.
  set (s4 := skip_chars k4 s3) in *.
  set (s5 := skip_chars k5 s4) in *.
  set (s6 := skip_chars (String.length "network_id=") s5) in *.
  destruct (repeat_consumed nonspace k1 s) as [E1 [L1 A1]]; [lia|].
  destruct (repeat_consumed isspace k2 s1) as [E2 [L2 A2]]; [lia|].
  destruct (repeat_consumed nonspace k4 s3) as [E4 [L4 A4]]; [lia|].
  destruct (repeat_consumed dot k5 s4) as [E5 [L5 A5]]; [lia|].
  destruct (repeat_consumed isdigit k7 s6) as [E7 [L7 A7]]; [lia|].
  exists (prefix_chars k1 s), (prefix_chars k2 s1), (prefix_chars k4 s3),
         (prefix_chars k5 s4), (prefix_chars k7 s6), (skip_chars k7 s6).
  split; [reflexivity|]. split.
  - fold s1 in E1. fold s2 in E2. fold s4 in E4. fold s5 in E5.
    rewrite <- E7. fold s6 in E6. rewrite <- E6, <- E5, <- E4.
    fold s3 in E3. rewrite <- E3, <- E2. exact E1.
  - repeat split; try assumption.
    + apply is_word_spec. split; [apply nonempty_length; lia | exact A1].
    + apply nonempty_length. lia.
    + apply is_word_spec. split; [apply nonempty_length; lia | exact A4].
    + apply nonempty_length. lia.
Qed.

(** ** Reading the inventory *)

Lemma int_from_nonneg acc s :
  0 <= acc -> all_chars isdigit s = true -> 0 <= int_from acc s.
Proof.
  revert acc. induction s as [|c s IH]; intros acc Hacc Hd; [exact Hacc|].
  simpl in Hd. apply andb_prop in Hd. destruct Hd as [Hc Hs].
  cbn [int_from]. apply IH; [|exact Hs].
  unfold isdigit in Hc. apply andb_prop in Hc. destruct Hc as [H1 _].
  apply Nat.leb_le in H1. lia.
Qed.

Lemma py_int_some s n :
  py_int s = Some n <->
  (String.length s <= int_max_str_digits)%nat /\ n = int_from 0 s.
Proof.
  unfold py_int. destruct (String.length s <=? int_max_str_digits)%nat eqn:E.
  - apply Nat.leb_le in E. split.
    + intros H. injection H as <-. auto.
    + intros [_ ->]. reflexivity.
  - apply Nat.leb_gt in E. split; [discriminate | lia].
Qed.

Lemma startswith_first s t p :
  s <> "" -> startswith (s ++ t) (String p "") = startswith s (String p "").
Proof. destruct s as [|c s]; [intros H; contradiction H; reflexivity | reflexivity]. Qed.

(** The loop, one line at a time. *)
Lemma parse_lines_cons raw rest flag boxes :
  parse_lines (raw :: rest) flag boxes =
  if opens_section raw then parse_lines rest true boxes
  else if flag then
    if startswith (strip raw) "[" || String.eqb (strip raw) ""
       || startswith (strip raw) "#"
    then if closes_section raw then Some boxes else parse_lines rest flag boxes
    else match re_match inventory_line (strip raw) with
         | Some [nm; hst; nid] =>
             match py_int nid with
             | Some n => parse_lines rest flag (boxes ++ [(nm, hst, n)])
             | None => None
             end
         | _ => parse_lines rest flag boxes
         end
  else parse_lines rest flag boxes.
Proof. reflexivity. Qed.

Lemma parse_lines_well_formed lines flag boxes result :
  parse_lines lines flag boxes = Some result ->
  Forall well_formed_entry boxes ->
  Forall well_formed_entry result.
Proof.
  revert flag boxes. induction lines as [|raw rest IH]; intros flag boxes Hres Hok.
  - injection Hres as <-. exact Hok.
  - rewrite parse_lines_cons in Hres.
    destruct (opens_section raw); [exact (IH _ _ Hres Hok)|].
    destruct flag; [|exact (IH _ _ Hres Hok)].
    destruct (startswith (strip raw) "[" || String.eqb (strip raw) ""
              || startswith (strip raw) "#") eqn:Hskip.
    + destruct (closes_section raw); [|exact (IH _ _ Hres Hok)].
      injection Hres as <-. exact Hok.
    + destruct (re_match inventory_line (strip raw)) as [groups|] eqn:Hm;
        [|exact (IH _ _ Hres Hok)].
      destruct (inventory_line_sound _ _ Hm)
        as [nm [ws [hst [mid [nid [tail [-> [Hline [Hnm [_ [_ [Hhst [_ [_ Hd]]]]]]]]]]]]]].
      destruct (py_int nid) as [n|] eqn:Hint; [|discriminate Hres].
      apply py_int_some in Hint. destruct Hint as [_ ->].
      apply (IH _ _ Hres). apply Forall_app. split; [exact Hok|].
      constructor; [|constructor].
      apply orb_false_iff in Hskip. destruct Hskip as [Hskip Hhash].
      apply orb_false_iff in Hskip. destruct Hskip as [Hbracket _].
      assert (Hne : nm <> "") by (apply is_word_spec in Hnm; apply Hnm).
      rewrite Hline in Hbracket, Hhash.
      rewrite (startswith_first nm _ _ Hne) in Hbracket.
      rewrite (startswith_first nm _ _ Hne) in Hhash.
      unfold well_formed_entry. simpl.
      repeat split; try assumption.
      apply int_from_nonneg; [lia | exact Hd].
Qed.

(** X15: every box that [parse_inventory] reads from the text of an
    inventory has a name and a host that are not empty and contain no
    whitespace, a name that does not start with a bracket or a hash
    sign, and a network id that is not negative. *)
Theorem parsed_boxes_are_well_formed content boxes :
  parse_lines (readlines content) false [] = Some boxes ->
  Forall well_formed_entry boxes.
Proof. intros H. apply (parse_lines_well_formed _ _ _ _ H). constructor. Qed.

Lemma parsed_boxes_are_well_formed_witness :
  Forall well_formed_entry [("goad-1", "10.0.1.5", 1)].
Proof.
  apply (parsed_boxes_are_well_formed
           ("[deployment_boxes]" ++ nl
            ++ "goad-1 ansible_host=10.0.1.5 network_id=1" ++ nl)).
  vm_compute. reflexivity.
Defined.

Lemma closes_not_opens raw : closes_section raw = true -> opens_section raw = false.
Proof.
  unfold closes_section, opens_section. intros H.
  apply startswith_split in H. rewrite H. reflexivity.
Qed.

Lemma parse_lines_before_section before rest boxes :
  Forall (fun raw => opens_section raw = false) before ->
  parse_lines (before ++ rest) false boxes = parse_lines rest false boxes.
Proof.
  induction 1 as [|raw before Hraw _ IH]; [reflexivity|].
  simpl app. rewrite parse_lines_cons, Hraw. exact IH.
Qed.

Lemma parse_lines_after_close body closing after boxes :
  closes_section closing = true ->
  parse_lines (body ++ closing :: after) true boxes = parse_lines body true boxes.
Proof.
  intros Hclose. revert boxes. induction body as [|raw body IH]; intros boxes.
  - simpl app. rewrite parse_lines_cons, (closes_not_opens _ Hclose), Hclose.
    unfold closes_section in Hclose. apply startswith_split in Hclose.
    rewrite Hclose. reflexivity.
  - simpl app. rewrite !parse_lines_cons.
    destruct (opens_section raw); [apply IH|].
    destruct (startswith (strip raw) "[" || String.eqb (strip raw) ""
              || startswith (strip raw) "#").
    + destruct (closes_section raw); [reflexivity | apply IH].
    + destruct (re_match inventory_line (strip raw)) as [[|nm [|hst [|nid [|x xs]]]]|];
        try apply IH.
      destruct (py_int nid); [apply IH | reflexivity].
Qed.

(** X16: only the lines between the first [[deployment_boxes]] header
    and the first [[deployment_boxes:vars]] line after it are read:
    whatever stands before the header or after that line makes no
    difference to the boxes found, nor to whether the parse fails. *)
Theorem only_the_section_is_read before header body closing after :
  Forall (fun raw => opens_section raw = false) before ->
  opens_section header = true ->
  closes_section closing = true ->
  parse_lines (before ++ header :: body ++ closing :: after) false []
  = parse_lines body true [].
Proof.
  intros Hbefore Hopen Hclose.
  rewrite (parse_lines_before_section before _ [] Hbefore).
  rewrite parse_lines_cons, Hopen.
  apply parse_lines_after_close. exact Hclose.
Qed.

Lemma only_the_section_is_read_witness :
  parse_lines (["# lab" ++ nl; "early ansible_host=10.0.0.1 network_id=9" ++ nl]
               ++ ("[deployment_boxes]" ++ nl)
               :: ["goad-1 ansible_host=10.0.1.5 network_id=1" ++ nl]
               ++ ("[deployment_boxes:vars]" ++ nl)
               :: ["late ansible_host=10.0.0.2 network_id=8" ++ nl]) false []
  = Some [("goad-1", "10.0.1.5", 1)].
Proof.
  transitivity (parse_lines ["goad-1 ansible_host=10.0.1.5 network_id=1" ++ nl] true []);
    [|vm_compute; reflexivity].
  apply (only_the_section_is_read
           ["# lab" ++ nl; "early ansible_host=10.0.0.1 network_id=9" ++ nl]
           ("[deployment_boxes]" ++ nl)
           ["goad-1 ansible_host=10.0.1.5 network_id=1" ++ nl]
           ("[deployment_boxes:vars]" ++ nl)
           ["late ansible_host=10.0.0.2 network_id=8" ++ nl]).
  - repeat constructor.
  - reflexivity.
  - reflexivity.
Defined.

(** X17: an inventory in which no line starts with
    [[deployment_boxes]] has no deployment box, whatever else it
    contains; the run then stops before any pre-stage and the process
    exits with code 0. *)
Theorem inventory_without_section_does_nothing self env content :
  inventory env = read_inventory (FileText content) ->
  Forall (fun raw => opens_section raw = false) (readlines content) ->
  inventory env = InvParsed []
  /\ deploy_all self env = mkRun [] [] None [] (Some 0).
Proof.
  intros Hinv Hnone.
  assert (Hempty : inventory env = InvParsed []).
  { rewrite Hinv. cbn [read_inventory].
    rewrite <- (app_nil_r (readlines content)).
    rewrite (parse_lines_before_section _ [] [] Hnone). reflexivity. }
  split; [exact Hempty|].
  unfold deploy_all. rewrite Hempty. reflexivity.
Qed.

Lemma inventory_without_section_does_nothing_witness :
  inventory (sample_env (read_inventory (FileText headerless_inventory))
                        (StageReturned 0) always_exit_1) = InvParsed []
  /\ deploy_all (deployer 2 3)
       (sample_env (read_inventory (FileText headerless_inventory))
                   (StageReturned 0) always_exit_1)
     = mkRun [] [] None [] (Some 0).
Proof.
  apply (inventory_without_section_does_nothing (deployer 2 3)
           (sample_env (read_inventory (FileText headerless_inventory))
                       (StageReturned 0) always_exit_1)
           headerless_inventory).
  - reflexivity.
  - vm_compute. repeat constructor.
Defined.

Lemma passed_over_spec raw :
  passed_over raw = true ->
  opens_section raw = false /\ closes_section raw = false
  /\ startswith (strip raw) "[" || String.eqb (strip raw) ""
     || startswith (strip raw) "#" = true.
Proof.
  unfold passed_over. intros H.
  apply andb_prop in H. destruct H as [H H3].
  apply andb_prop in H. destruct H as [H1 H2].
  apply negb_true_iff in H1, H2. auto.
Qed.

(** X18: a blank line, a comment and a section header other than
    [[deployment_boxes]] and [[deployment_boxes:vars]] are passed over
    without any effect, inside the section as well as outside.  In
    particular the header of another group does not end the section:
    the host lines below it are read as deployment boxes too. *)
Theorem other_headers_do_not_end_the_section before raw after flag boxes :
  passed_over raw = true ->
  parse_lines (before ++ raw :: after) flag boxes
  = parse_lines (before ++ after) flag boxes.
Proof.
  intros Hraw. apply passed_over_spec in Hraw. destruct Hraw as [Hopen [Hclose Hskip]].
  revert flag boxes. induction before as [|line before IH]; intros flag boxes.
  - simpl app. rewrite parse_lines_cons, Hopen, Hskip, Hclose.
    destruct flag; reflexivity.
  - simpl app. rewrite !parse_lines_cons.
    destruct (opens_section line); [apply IH|].
    destruct flag; [|apply IH].
    destruct (startswith (strip line) "[" || String.eqb (strip line) ""
              || startswith (strip line) "#").
    + destruct (closes_section line); [reflexivity | apply IH].
    + destruct (re_match inventory_line (strip line)) as [[|nm [|hst [|nid [|x xs]]]]|];
        try apply IH.
      destruct (py_int nid); [apply IH | reflexivity].
Qed.

Lemma other_headers_do_not_end_the_section_witness :
  parse_lines (["[deployment_boxes]" ++ nl;
                "goad-1 ansible_host=10.0.1.5 network_id=1" ++ nl]
               ++ ("[kali_boxes]" ++ nl)
               :: ["kali-1 ansible_host=10.0.9.5 network_id=1" ++ nl]) false []
  = Some [("goad-1", "10.0.1.5", 1); ("kali-1", "10.0.9.5", 1)].
Proof.
  transitivity (parse_lines (["[deployment_boxes]" ++ nl;
                              "goad-1 ansible_host=10.0.1.5 network_id=1" ++ nl]
                             ++ ["kali-1 ansible_host=10.0.9.5 network_id=1" ++ nl])
                            false []);
    [|vm_compute; reflexivity].
  apply (other_headers_do_not_end_the_section
           ["[deployment_boxes]" ++ nl;
            "goad-1 ansible_host=10.0.1.5 network_id=1" ++ nl]
           ("[kali_boxes]" ++ nl)
           ["kali-1 ansible_host=10.0.9.5 network_id=1" ++ nl] false []).
  reflexivity.
Defined.

(** ** Numbers as text *)

Lemma string_of_uint_digits d : all_chars isdigit (NilEmpty.string_of_uint d) = true.
Proof. induction d; simpl; try rewrite IHd; reflexivity. Qed.

Lemma int_from_string_of_uint d acc :
  int_from (Z.of_nat acc) (NilEmpty.string_of_uint d) = Z.of_nat (Nat.of_uint_acc d acc).
Proof.
  revert acc. induction d; intros acc;
    cbn [NilEmpty.string_of_uint int_from Nat.of_uint_acc];
    [reflexivity|..];
    rewrite <- IHd; f_equal; rewrite Nat.tail_mul_spec;
    match goal with
    | |- context [nat_of_ascii ?c] =>
        let v := eval vm_compute in (nat_of_ascii c) in
        change (nat_of_ascii c) with v
    end; lia.
Qed.

Lemma int_from_py_str n : int_from 0 (py_str n) = Z.of_nat n.
Proof.
  unfold py_str. rewrite (int_from_string_of_uint _ 0).
  change (Nat.of_uint_acc (Nat.to_uint n) 0) with (Nat.of_uint (Nat.to_uint n)).
  rewrite Unsigned.of_to. reflexivity.
Qed.

(** [int(str(n))] is [n], as long as [n] has no more digits than [int]
    converts. *)
Lemma py_int_py_str n :
  (String.length (py_str n) <= int_max_str_digits)%nat ->
  py_int (py_str n) = Some (Z.of_nat n).
Proof. intros H. apply py_int_some. rewrite int_from_py_str. auto. Qed.

Lemma py_str_digits n : all_chars isdigit (py_str n) = true.
Proof. apply string_of_uint_digits. Qed.

Lemma py_str_nonempty n : py_str n <> "".
Proof.
  intros H. pose proof (int_from_py_str n) as Hint. rewrite H in Hint.
  change (int_from 0 "") with 0 in Hint. assert (n = 0%nat) by lia. subst n.
  discriminate H.
Qed.

Lemma py_str_int_of_nat n : py_str_int (Z.of_nat n) = py_str n.
Proof.
  unfold py_str_int.
  replace (Z.of_nat n <? 0) with false by (symmetry; apply Z.ltb_ge; lia).
  rewrite Nat2Z.id. reflexivity.
Qed.

Lemma string_of_uint_length d :
  String.length (NilEmpty.string_of_uint d) = Decimal.nb_digits d.
Proof. induction d; simpl; try rewrite IHd; reflexivity. Qed.

(** A string of digits is the text of a decimal number. *)
Lemma digits_are_uint s :
  all_chars isdigit s = true ->
  exists d, NilEmpty.string_of_uint d = s.
Proof.
  induction s as [|c s IH]; intros H; [exists Decimal.Nil; reflexivity|].
  simpl in H. apply andb_prop in H. destruct H as [Hc Hs].
  destruct (IH Hs) as [d Hd].
  destruct c as [[] [] [] [] [] [] [] []]; try discriminate Hc;
    first [ exists (Decimal.D0 d); simpl; rewrite Hd; reflexivity
          | exists (Decimal.D1 d); simpl; rewrite Hd; reflexivity
          | exists (Decimal.D2 d); simpl; rewrite Hd; reflexivity
          | exists (Decimal.D3 d); simpl; rewrite Hd; reflexivity
          | exists (Decimal.D4 d); simpl; rewrite Hd; reflexivity
          | exists (Decimal.D5 d); simpl; rewrite Hd; reflexivity
          | exists (Decimal.D6 d); simpl; rewrite Hd; reflexivity
          | exists (Decimal.D7 d); simpl; rewrite Hd; reflexivity
          | exists (Decimal.D8 d); simpl; rewrite Hd; reflexivity
          | exists (Decimal.D9 d); simpl; rewrite Hd; reflexivity ].
Qed.

(** The number that digits spell is written with no more digits. *)
Lemma int_from_digits s :
  s <> "" -> all_chars isdigit s = true ->
  exists n, int_from 0 s = Z.of_nat n
            /\ (String.length (py_str n) <= String.length s)%nat.
Proof.
  intros Hne Hd. destruct (digits_are_uint s Hd) as [d <-].
  exists (Nat.of_uint d). split.
  - exact (int_from_string_of_uint d 0).
  - unfold py_str. rewrite Unsigned.to_of, !string_of_uint_length.
    apply DecimalFacts.nb_digits_unorm. intros ->. apply Hne. reflexivity.
Qed.

Lemma parse_lines_within_limit lines flag boxes result :
  parse_lines lines flag boxes = Some result ->
  Forall id_within_limit boxes ->
  Forall id_within_limit result.
Proof.
  revert flag boxes. induction lines as [|raw rest IH]; intros flag boxes Hres Hok.
  - injection Hres as <-. exact Hok.
  - rewrite parse_lines_cons in Hres.
    destruct (opens_section raw); [exact (IH _ _ Hres Hok)|].
    destruct flag; [|exact (IH _ _ Hres Hok)].
    destruct (startswith (strip raw) "[" || String.eqb (strip raw) ""
              || startswith (strip raw) "#").
    + destruct (closes_section raw); [|exact (IH _ _ Hres Hok)].
      injection Hres as <-. exact Hok.
    + destruct (re_match inventory_line (strip raw)) as [groups|] eqn:Hm;
        [|exact (IH _ _ Hres Hok)].
      destruct (inventory_line_sound _ _ Hm)
        as [nm [ws [hst [mid [nid [tail [-> [_ [_ [_ [_ [_ [_ [Hne Hd]]]]]]]]]]]]]].
      destruct (py_int nid) as [n|] eqn:Hint; [|discriminate Hres].
      apply py_int_some in Hint. destruct Hint as [Hlen ->].
      apply (IH _ _ Hres). apply Forall_app. split; [exact Hok|].
      constructor; [|constructor].
      destruct (int_from_digits nid Hne Hd) as [m [-> Hm']].
      unfold id_within_limit. cbn [snd]. rewrite py_str_int_of_nat. lia.
Qed.

(** ** Lines of a text *)

Lemma readlines_line line rest :
  all_chars within_line line = true ->
  readlines (line ++ nl ++ rest) = (line ++ nl) :: readlines rest.
Proof.
  induction line as [|c line IH]; intros H.
  - reflexivity.
  - simpl in H. apply andb_prop in H. destruct H as [Hc Hline].
    unfold within_line in Hc. apply andb_prop in Hc. destruct Hc as [H1 H2].
    apply negb_true_iff in H1, H2.
    change (String c line ++ nl ++ rest) with (String c (line ++ nl ++ rest)).
    cbn [readlines]. rewrite H1, H2, (IH Hline). reflexivity.
Qed.

Lemma concat_lines_then lines more :
  more <> [] ->
  String.concat nl (lines ++ more) = lines_then lines (String.concat nl more).
Proof.
  intros Hmore. induction lines as [|line lines IH]; [reflexivity|].
  simpl app. cbn [lines_then fold_right]. fold (lines_then lines (String.concat nl more)).
  rewrite <- IH.
  destruct (lines ++ more)%list as [|x xs] eqn:E; [|reflexivity].
  apply app_eq_nil in E. destruct E as [_ E]. contradiction.
Qed.

Lemma readlines_lines_then lines rest :
  Forall (fun line => all_chars within_line line = true) lines ->
  readlines (lines_then lines rest)
  = (map (fun line => (line ++ nl)%string) lines ++ readlines rest)%list.
Proof.
  induction 1 as [|line lines Hline _ IH]; [reflexivity|].
  cbn [lines_then fold_right]. fold (lines_then lines rest).
  rewrite (readlines_line line _ Hline), IH. reflexivity.
Qed.

(** ** Stripping a line *)

Lemma rstrip_app_kept a b : rstrip b <> "" -> rstrip (a ++ b) = a ++ rstrip b.
Proof.
  intros Hb. induction a as [|c a IH]; [reflexivity|].
  change (String c a ++ b) with (String c (a ++ b)).
  cbn [rstrip]. rewrite IH.
  destruct (a ++ rstrip b) as [|x xs] eqn:E;
    [|change (String c a ++ rstrip b) with (String c (a ++ rstrip b));
      rewrite E; reflexivity].
  destruct a; simpl in E; [contradiction | discriminate E].
Qed.

Lemma rstrip_word_nl d : all_chars nonspace d = true -> rstrip (d ++ nl) = d.
Proof.
  induction d as [|c d IH]; intros H; [reflexivity|].
  simpl in H. apply andb_prop in H. destruct H as [Hc Hd].
  change (String c d ++ nl) with (String c (d ++ nl)).
  cbn [rstrip]. rewrite (IH Hd).
  destruct d; [|reflexivity].
  unfold nonspace in Hc. apply negb_true_iff in Hc. rewrite Hc. reflexivity.
Qed.

(** A line that begins and ends with characters other than whitespace
    is what [strip] leaves of it and its line feed. *)
Lemma strip_line c a d :
  nonspace c = true -> d <> "" -> all_chars nonspace d = true ->
  strip (String c a ++ d ++ nl) = String c a ++ d.
Proof.
  intros Hc Hne Hd. unfold strip.
  change (String c a ++ d ++ nl) with (String c (a ++ d ++ nl)).
  cbn [lstrip]. unfold nonspace in Hc. apply negb_true_iff in Hc. rewrite Hc.
  change (String c (a ++ d ++ nl)) with (String c a ++ (d ++ nl)).
  rewrite rstrip_app_kept; rewrite (rstrip_word_nl d Hd); [reflexivity | exact Hne].
Qed.

(** ** A generated inventory, read back *)

Lemma nonspace_within_line c : nonspace c = true -> within_line c = true.
Proof.
  unfold within_line. intros H.
  destruct (Ascii.eqb c newline) eqn:E1.
  - apply Ascii.eqb_eq in E1. subst c. discriminate H.
  - destruct (Ascii.eqb c (ascii_of_nat 13)) eqn:E2; [|reflexivity].
    apply Ascii.eqb_eq in E2. subst c. discriminate H.
Qed.

Lemma startswith_longer s p q :
  startswith s (String p "") = false -> startswith s (String p q) = false.
Proof.
  destruct s as [|c s]; [reflexivity|].
  cbn [startswith]. destruct (Ascii.eqb p c); [discriminate | reflexivity].
Qed.

Lemma deployment_line_within nm address idx :
  is_word nm = true -> is_word address = true ->
  all_chars within_line (deployment_line nm address idx) = true.
Proof.
  intros Hnm Haddr. apply is_word_spec in Hnm, Haddr.
  destruct Hnm as [_ Hnm]. destruct Haddr as [_ Haddr].
  unfold deployment_line. rewrite !all_chars_app.
  rewrite (all_chars_weaken nonspace within_line nm nonspace_within_line Hnm).
  rewrite (all_chars_weaken nonspace within_line address nonspace_within_line Haddr).
  rewrite (all_chars_weaken isdigit within_line (py_str (idx + 1))).
  - reflexivity.
  - intros c Hc. apply nonspace_within_line, isdigit_nonspace. exact Hc.
  - apply py_str_digits.
Qed.

Lemma strip_deployment_line nm address idx :
  is_word nm = true ->
  strip (deployment_line nm address idx ++ nl) = deployment_line nm address idx.
Proof.
  intros Hnm. apply is_word_spec in Hnm. destruct Hnm as [Hne Hnm].
  destruct nm as [|c a]; [contradiction Hne; reflexivity|].
  simpl in Hnm. apply andb_prop in Hnm. destruct Hnm as [Hc _].
  unfold deployment_line.
  set (middle := " ansible_host=" ++ address ++ " ansible_user=cyberrange"
                 ++ " network_id=").
  assert (E : String c a ++ " ansible_host=" ++ address ++ " ansible_user=cyberrange"
              ++ " network_id=" ++ py_str (idx + 1)
              = (String c a ++ middle) ++ py_str (idx + 1))
    by (unfold middle; rewrite !string_app_assoc; reflexivity).
  change (String c a ++ middle) with (String c (a ++ middle)) in E.
  rewrite E, string_app_assoc.
  apply strip_line; [exact Hc | apply py_str_nonempty |].
  apply (all_chars_weaken isdigit nonspace); [exact isdigit_nonspace | apply py_str_digits].
Qed.

Lemma re_match_deployment_line nm address idx :
  is_word nm = true -> is_word address = true ->
  re_match inventory_line (deployment_line nm address idx)
  = Some [nm; address; py_str (idx + 1)].
Proof.
  intros Hnm Haddr. unfold deployment_line.
  change (nm ++ " ansible_host=" ++ address ++ " ansible_user=cyberrange"
             ++ " network_id=" ++ py_str (idx + 1))
    with (nm ++ " " ++ "ansible_host=" ++ address ++ " ansible_user=cyberrange "
             ++ "network_id=" ++ py_str (idx + 1)).
  apply inventory_line_matches; try assumption; try reflexivity.
  - discriminate.
  - apply py_str_nonempty.
  - apply py_str_digits.
Qed.

(** One deployment line of a generated inventory, read inside the
    section. *)
Lemma parse_deployment_line nm address idx rest boxes :
  is_word nm = true -> startswith nm "[" = false -> startswith nm "#" = false ->
  is_word address = true ->
  (String.length (py_str (idx + 1)) <= int_max_str_digits)%nat ->
  parse_lines ((deployment_line nm address idx ++ nl) :: rest) true boxes
  = parse_lines rest true (boxes ++ [(nm, address, Z.of_nat (idx + 1))]).
Proof.
  intros Hnm Hbracket Hhash Haddr Hlimit.
  assert (Hne : nm <> "") by (apply is_word_spec in Hnm; apply Hnm).
  rewrite parse_lines_cons. unfold opens_section, closes_section.
  rewrite (strip_deployment_line nm address idx Hnm).
  rewrite (re_match_deployment_line nm address idx Hnm Haddr).
  rewrite (py_int_py_str _ Hlimit).
  unfold deployment_line at 1 2 3 4.
  rewrite (startswith_longer _ "[" "deployment_boxes]");
    [|rewrite (startswith_first nm _ _ Hne); exact Hbracket].
  rewrite (startswith_first nm _ "[" Hne), Hbracket.
  rewrite (startswith_first nm _ "#" Hne), Hhash.
  destruct nm as [|c a]; [contradiction Hne; reflexivity|].
  reflexivity.
Qed.

Lemma parse_host_lines names ips idx rest boxes :
  Forall well_formed_entry (deployment_entries names idx ips) ->
  Forall id_within_limit (deployment_entries names idx ips) ->
  parse_lines
    (map (fun line => (line ++ nl)%string)
         (host_lines "ubuntu-deploy" " ansible_user=cyberrange" names idx ips)
     ++ rest) true boxes
  = parse_lines rest true (boxes ++ deployment_entries names idx ips).
Proof.
  revert idx boxes. induction ips as [|ip ips IH]; intros idx boxes Hok Hlim.
  - simpl. rewrite app_nil_r. reflexivity.
  - destruct ip as [[|c address]|]; cbn [host_lines deployment_entries] in *;
      try (apply IH; assumption).
    inversion Hok as [|e es [Hnm [Hbracket [Hhash [Haddr _]]]] Hrest]; subst.
    inversion Hlim as [|e es Hlimit Hlimrest]; subst.
    unfold id_within_limit in Hlimit. cbn [snd] in Hlimit.
    rewrite py_str_int_of_nat in Hlimit.
    simpl fst in *. simpl snd in *.
    cbn [map app].
    change (host_name "ubuntu-deploy" names idx ++ " ansible_host=" ++ String c address
              ++ " ansible_user=cyberrange" ++ " network_id=" ++ py_str (idx + 1))
      with (deployment_line (host_name "ubuntu-deploy" names idx) (String c address) idx).
    rewrite (parse_deployment_line _ _ idx _ boxes Hnm Hbracket Hhash Haddr Hlimit).
    rewrite (IH (S idx) _ Hrest Hlimrest), <- app_assoc. reflexivity.
Qed.

Lemma host_lines_within names ips idx :
  Forall well_formed_entry (deployment_entries names idx ips) ->
  Forall (fun line => all_chars within_line line = true)
         (host_lines "ubuntu-deploy" " ansible_user=cyberrange" names idx ips).
Proof.
  revert idx. induction ips as [|ip ips IH]; intros idx Hok; [constructor|].
  destruct ip as [[|c address]|]; cbn [host_lines deployment_entries] in *;
    try (apply IH; exact Hok).
  inversion Hok as [|e es [Hnm [_ [_ [Haddr _]]]] Hrest]; subst.
  simpl fst in *. simpl snd in *.
  constructor; [|apply IH; exact Hrest].
  exact (deployment_line_within _ _ idx Hnm Haddr).
Qed.

Lemma generated_inventory_read tf_output :
  Forall well_formed_entry (deployment_boxes_of tf_output) ->
  Forall id_within_limit (deployment_boxes_of tf_output) ->
  parse_lines (readlines (generate_inventory tf_output)) false []
  = Some (deployment_boxes_of tf_output).
Proof.
  intros Hok Hlim. unfold generate_inventory, deployment_boxes_of in *.
  set (names := ubuntu_deploy_names tf_output) in *.
  set (ips := ubuntu_deploy_floating_ips tf_output) in *.
  set (hosts := host_lines "ubuntu-deploy" " ansible_user=cyberrange" names 0 ips).
  match goal with
  | |- context [(hosts ++ (?e1 :: ?e2 :: ?block) ++ ?more)%list] =>
      set (after := (block ++ more)%list);
      replace (["[deployment_boxes]"] ++ hosts ++ (e1 :: e2 :: block) ++ more)%list
        with (("[deployment_boxes]" :: hosts ++ [e1; e2]) ++ after)%list
        by (subst after; simpl; rewrite <- app_assoc; reflexivity)
  end.
  rewrite concat_lines_then by (subst after; discriminate).
  rewrite readlines_lines_then.
  - cbn [map]. rewrite map_app. cbn [map app].
    rewrite parse_lines_cons.
    change (opens_section ("[deployment_boxes]" ++ nl)) with true. cbv iota.
    rewrite <- app_assoc.
    rewrite (parse_host_lines names ips 0%nat _ [] Hok Hlim).
    cbn [app]. rewrite parse_lines_cons.
    change (opens_section ("" ++ nl)) with false.
    change (closes_section ("" ++ nl)) with false.
    change (strip ("" ++ nl)) with "". cbv iota. cbn [startswith String.eqb orb].
    rewrite parse_lines_cons.
    change (opens_section ("[deployment_boxes:vars]" ++ nl)) with false.
    change (closes_section ("[deployment_boxes:vars]" ++ nl)) with true.
    change (strip ("[deployment_boxes:vars]" ++ nl)) with "[deployment_boxes:vars]".
    reflexivity.
  - constructor; [reflexivity|]. apply Forall_app. split.
    + apply host_lines_within. exact Hok.
    + repeat constructor.
Qed.

(** X19: the inventory that [generate-inventory.py] writes is read back
    by [parse_inventory] as exactly the deployment boxes it was
    generated for (one per address that is not empty, with its name and
    its position counted from 1 as network id, in order; none of the
    Kali or Windows hosts), and this holds if and only if every name
    and address used is a word without whitespace, no name starts with
    a bracket or a hash sign, and no position has more digits than
    [int] converts. *)
Theorem generated_inventory_reads_back tf_output :
  read_inventory (FileText (generate_inventory tf_output))
    = InvParsed (deployment_boxes_of tf_output)
  <-> Forall well_formed_entry (deployment_boxes_of tf_output)
      /\ Forall id_within_limit (deployment_boxes_of tf_output).
Proof.
  cbn [read_inventory]. split.
  - intros H.
    destruct (parse_lines (readlines (generate_inventory tf_output)) false [])
      as [boxes|] eqn:Hparse; [|discriminate H].
    injection H as <-. split.
    + apply (parse_lines_well_formed _ _ _ _ Hparse). constructor.
    + apply (parse_lines_within_limit _ _ _ _ Hparse). constructor.
  - intros [Hok Hlim]. rewrite (generated_inventory_read _ Hok Hlim). reflexivity.
Qed.

(** X20: the fields read from a host line.  Inside the section, a line
    that consists, once stripped, of a name, whitespace,
    [ansible_host=] and a host, any text that starts with whitespace,
    and [network_id=] with digits at its very end, gives one box: the
    name, the host, and the number that these last digits spell
    (leading zeros allowed), whatever the text in between contains, be
    it another [network_id=].  When there are more digits than [int]
    converts, no box is read and the parse fails. *)
Theorem host_line_fields raw nm ws hst mid nid :
  strip raw = nm ++ ws ++ "ansible_host=" ++ hst ++ mid ++ "network_id=" ++ nid ->
  is_word nm = true -> startswith nm "[" = false -> startswith nm "#" = false ->
  ws <> "" -> all_chars isspace ws = true ->
  is_word hst = true ->
  starts_with_space mid = true -> all_chars dot mid = true ->
  nid <> "" -> all_chars isdigit nid = true ->
  parse_lines [raw] true []
  = if (String.length nid <=? int_max_str_digits)%nat
    then Some [(nm, hst, int_from 0 nid)] else None.
Proof.
  intros Hline Hnm Hbracket Hhash Hws Hspace Hhst Hmid Hdot Hnid Hdigits.
  assert (Hne : nm <> "") by (apply is_word_spec in Hnm; apply Hnm).
  rewrite parse_lines_cons. unfold opens_section, closes_section.
  rewrite Hline.
  rewrite (inventory_line_matches nm ws hst mid nid) by assumption.
  rewrite (startswith_longer _ "[" "deployment_boxes]");
    [|rewrite (startswith_first nm _ _ Hne); exact Hbracket].
  rewrite (startswith_first nm _ "[" Hne), Hbracket.
  rewrite (startswith_first nm _ "#" Hne), Hhash.
  destruct nm as [|c a]; [contradiction Hne; reflexivity|].
  unfold py_int. cbn [String.eqb orb].
  destruct (String.length nid <=? int_max_str_digits)%nat; reflexivity.
Qed.

Lemma host_line_fields_witness :
  parse_lines
    ["  goad-7 ansible_host=10.0.7.5 ansible_user=cyberrange network_id=3 network_id=007"
     ++ nl] true []
  = Some [("goad-7", "10.0.7.5", 7)].
Proof.
  transitivity (if (String.length "007" <=? int_max_str_digits)%nat
                then Some [("goad-7", "10.0.7.5", int_from 0 "007")] else None);
    [|vm_compute; reflexivity].
  apply (host_line_fields _ "goad-7" " " "10.0.7.5"
           " ansible_user=cyberrange network_id=3 " "007");
    try reflexivity; discriminate.
Defined.

(** * Properties of the credentials document *)

(** ** Order *)

Lemma str_ltb_asym a b : str_ltb a b = true -> str_ltb b a = false.
Proof.
  revert b. induction a as [|x a IH]; intros [|y b] H; simpl in *;
    try reflexivity; try discriminate.
  destruct (nat_of_ascii x <? nat_of_ascii y)%nat eqn:Hxy.
  - apply Nat.ltb_lt in Hxy.
    replace (nat_of_ascii y <? nat_of_ascii x)%nat with false
      by (symmetry; apply Nat.ltb_ge; lia).
    destruct (Ascii.eqb y x) eqn:E; [|reflexivity].
    apply Ascii.eqb_eq in E. subst y. lia.
  - destruct (Ascii.eqb x y) eqn:E; [|discriminate].
    apply Ascii.eqb_eq in E. subst y. rewrite Hxy, Ascii.eqb_refl.
    apply IH. exact H.
Qed.

Lemma insert_by_perm {A} (key : A -> string) x l :
  Permutation (insert_by key x l) (x :: l).
Proof.
  induction l as [|y l IH]; simpl; [apply Permutation_refl|].
  destruct (str_ltb (key y) (key x)); [|apply Permutation_refl].
  apply perm_trans with (y :: x :: l); [apply perm_skip; exact IH | apply perm_swap].
Qed.

Lemma py_sorted_perm {A} (key : A -> string) l : Permutation (py_sorted key l) l.
Proof.
  induction l as [|x l IH]; simpl; [apply perm_nil|].
  apply perm_trans with (x :: py_sorted key l);
    [apply insert_by_perm | apply perm_skip; exact IH].
Qed.

Lemma insert_by_sorted {A} (key : A -> string) x l :
  Sorted (fun a b => str_le (key a) (key b)) l ->
  Sorted (fun a b => str_le (key a) (key b)) (insert_by key x l).
Proof.
  induction 1 as [|y l Hl IH Hhd]; simpl; [repeat constructor|].
  destruct (str_ltb (key y) (key x)) eqn:E.
  - constructor; [exact IH|].
    destruct l as [|z l]; simpl.
    + constructor. unfold str_le. apply str_ltb_asym. exact E.
    + destruct (str_ltb (key z) (key x)).
      * inversion Hhd; subst. constructor. assumption.
      * constructor. unfold str_le. apply str_ltb_asym. exact E.
  - constructor; [constructor; assumption|].
    constructor. exact E.
Qed.

Lemma py_sorted_sorted {A} (key : A -> string) l :
  Sorted (fun a b => str_le (key a) (key b)) (py_sorted key l).
Proof.
  induction l as [|x l IH]; simpl; [constructor | apply insert_by_sorted; exact IH].
Qed.

Lemma py_sorted_length {A} (key : A -> string) l :
  List.length (py_sorted key l) = List.length l.
Proof. apply Permutation_length, py_sorted_perm. Qed.

Lemma py_sorted_nil {A} (key : A -> string) l : py_sorted key l = [] -> l = [].
Proof.
  intros H. pose proof (py_sorted_length key l) as Hlen. rewrite H in Hlen.
  destruct l; [reflexivity | discriminate Hlen].
Qed.

(** ** One file *)

Lemma split_colon_app user password :
  all_chars not_colon user = true ->
  split_colon (user ++ ":" ++ password) = Some (user, password).
Proof.
  induction user as [|c user IH]; intros H; [reflexivity|].
  simpl in H. apply andb_prop in H. destruct H as [Hc Hu].
  unfold not_colon in Hc. apply negb_true_iff in Hc.
  change (String c user ++ ":" ++ password) with (String c (user ++ ":" ++ password)).
  cbn [split_colon]. rewrite Hc, (IH Hu). reflexivity.
Qed.

Lemma cred_dict_fold text :
  cred_dict text = fold_left add_credential (split_lines (strip text)) [].
Proof. reflexivity. Qed.

Lemma later_lines_keep lines d user :
  Forall (fun line => forall p, split_colon line <> Some (user, p)) lines ->
  dict_get (fold_left add_credential lines d) user = dict_get d user.
Proof.
  intros H. revert d. induction H as [|line lines Hline _ IH]; intros d; [reflexivity|].
  simpl. rewrite IH. unfold add_credential.
  destruct (split_colon line) as [[u p]|] eqn:E; [|reflexivity].
  simpl. destruct (String.eqb u user) eqn:Eu; [|reflexivity].
  apply String.eqb_eq in Eu. subst u. exfalso. exact (Hline p eq_refl).
Qed.

(** X21: the password kept for a user is all the text after the first
    colon of the last line of the file that starts with the user and a
    colon: further colons belong to the password, and a later line for
    the same user replaces an earlier one. *)
Theorem password_is_text_after_first_colon text before user password after :
  split_lines (strip text) = (before ++ (user ++ ":" ++ password)%string :: after)%list ->
  all_chars not_colon user = true ->
  Forall (fun line => forall p, split_colon line <> Some (user, p)) after ->
  dict_get (cred_dict text) user = Some password.
Proof.
  intros Hlines Huser Hafter.
  rewrite cred_dict_fold, Hlines, fold_left_app. cbn [fold_left].
  rewrite (later_lines_keep after _ user Hafter).
  unfold add_credential at 1. rewrite (split_colon_app user password Huser).
  cbn [dict_get]. rewrite String.eqb_refl. reflexivity.
Qed.

Lemma password_is_text_after_first_colon_witness :
  dict_get (cred_dict ("pentester:first" ++ nl ++ "pentester:a:b:c" ++ nl
                       ++ "kali:k" ++ nl))
           "pentester"
  = Some "a:b:c".
Proof.
  apply (password_is_text_after_first_colon _ ["pentester:first"] "pentester" "a:b:c"
           ["kali:k"]).
  - reflexivity.
  - reflexivity.
  - repeat constructor. intros p H. discriminate H.
Defined.

(** ** The document *)

Lemma instances_of_app a b : instances_of (a ++ b) = (instances_of a ++ instances_of b)%list.
Proof. unfold instances_of. apply flat_map_app. Qed.

Lemma instances_of_instance_lines idx item :
  instances_of (instance_lines idx item) = [(idx, fst item)].
Proof.
  unfold instance_lines, shown_users. simpl.
  destruct (dict_get (snd item) "pentester"), (dict_get (snd item) "kali"),
           (dict_get (snd item) "cyberrange"), (dict_get (snd item) "root"); reflexivity.
Qed.

Lemma instances_of_body idx items :
  instances_of (document_body idx items)
  = combine (seq idx (List.length items)) (map fst items).
Proof.
  revert idx. induction items as [|item items IH]; intros idx; [reflexivity|].
  cbn [document_body]. rewrite instances_of_app, instances_of_instance_lines, IH.
  reflexivity.
Qed.

Lemma read_credentials_names files :
  map fst (flat_map read_credentials files)
  = map (fun f => instance_name (file_name f)) (filter readable files).
Proof.
  induction files as [|f files IH]; [reflexivity|].
  simpl. rewrite map_app, IH. unfold read_credentials, readable.
  destruct (file_text f); reflexivity.
Qed.

Lemma Sorted_map {A B} (f : A -> B) (R : B -> B -> Prop) l :
  Sorted (fun a b => R (f a) (f b)) l -> Sorted R (map f l).
Proof.
  induction 1 as [|x l Hl IH Hhd]; simpl; constructor; [exact IH|].
  destruct Hhd; simpl; constructor. assumption.
Qed.

Lemma read_credentials_length files :
  List.length (flat_map read_credentials files) = List.length (filter readable files).
Proof.
  rewrite <- (length_map fst), read_credentials_names, length_map. reflexivity.
Qed.

Lemma all_credentials_perm files :
  Permutation (all_credentials_of files) (flat_map read_credentials files).
Proof.
  unfold all_credentials_of.
  apply perm_trans with (flat_map read_credentials (py_sorted file_name files)).
  - apply py_sorted_perm.
  - apply Permutation_flat_map. apply py_sorted_perm.
Qed.

(** What a call on a directory with files does: it raises when the
    document cannot be written, and returns otherwise. *)
Lemma consolidate_returns files output_file :
  files <> [] ->
  consolidate_credentials (Some files) output_file =
  match output_file with
  | Some msg => Raises msg
  | None =>
      Returns (mkConsolidated
                 (List.length files)
                 (DTotal (List.length (filter readable files))
                  :: document_body 1 (all_credentials_of files))
                 (map (fun item => (fst item, dict_get (snd item) "pentester"))
                      (firstn 3 (all_credentials_of files))))
  end.
Proof.
  intros Hne. unfold consolidate_credentials.
  destruct (py_sorted file_name files) as [|f fs] eqn:E.
  - apply py_sorted_nil in E. contradiction.
  - rewrite <- E. fold (all_credentials_of files).
    destruct output_file as [msg|]; [reflexivity|].
    rewrite py_sorted_length.
    rewrite (Permutation_length (all_credentials_perm files)), read_credentials_length.
    reflexivity.
Qed.

Lemma map_fst_combine {A B} (l1 : list A) (l2 : list B) :
  List.length l1 = List.length l2 -> map fst (combine l1 l2) = l1.
Proof.
  revert l2. induction l1 as [|x l1 IH]; intros [|y l2] H; simpl in *;
    try reflexivity; try discriminate.
  rewrite IH by lia. reflexivity.
Qed.

Lemma map_snd_combine {A B} (l1 : list A) (l2 : list B) :
  List.length l1 = List.length l2 -> map snd (combine l1 l2) = l2.
Proof.
  revert l2. induction l1 as [|x l1 IH]; intros [|y l2] H; simpl in *;
    try reflexivity; try discriminate.
  rewrite IH by lia. reflexivity.
Qed.

Lemma all_credentials_length files :
  List.length (all_credentials_of files) = List.length (filter readable files).
Proof.
  rewrite (Permutation_length (all_credentials_perm files)).
  apply read_credentials_length.
Qed.

(** X22: the document has one numbered section per file that could be
    read.  The sections are numbered 1, 2, ... without gaps, they come
    in the order of their instance names (the order of [str]), the
    names are those of the readable files, and the total on top is
    their number, while the count of files found includes the
    unreadable ones. *)
Theorem document_sections_are_sorted_and_numbered files output_file r :
  consolidate_credentials (Some files) output_file = Returns r ->
  found r = List.length files
  /\ hd_error (document r) = Some (DTotal (List.length (filter readable files)))
  /\ map fst (instances_of (document r))
     = seq 1 (List.length (filter readable files))
  /\ Sorted str_le (map snd (instances_of (document r)))
  /\ Permutation (map snd (instances_of (document r)))
       (map (fun f => instance_name (file_name f)) (filter readable files)).
Proof.
  intros Hr.
  assert (Hne : files <> []) by (intros ->; discriminate Hr).
  rewrite (consolidate_returns files output_file Hne) in Hr.
  destruct output_file as [msg|]; [discriminate Hr|]. injection Hr as <-.
  cbn [found document hd_error].
  change (instances_of (DTotal (List.length (filter readable files))
                        :: document_body 1 (all_credentials_of files)))
    with (instances_of (document_body 1 (all_credentials_of files))).
  rewrite instances_of_body.
  assert (Hlen : List.length (seq 1 (List.length (all_credentials_of files)))
                 = List.length (map fst (all_credentials_of files)))
    by (rewrite length_seq, length_map; reflexivity).
  rewrite (map_fst_combine _ _ Hlen), (map_snd_combine _ _ Hlen).
  rewrite all_credentials_length.
  split; [reflexivity|]. split; [reflexivity|]. split; [reflexivity|]. split.
  - apply Sorted_map. unfold all_credentials_of. apply py_sorted_sorted.
  - rewrite <- read_credentials_names. apply Permutation_map.
    apply all_credentials_perm.
Qed.

Lemma document_sections_are_sorted_and_numbered_witness :
  exists r,
    consolidate_credentials (Some sample_files) None = Returns r
    /\ document r
       = [DTotal 2; DInstance 1 "goad-10-kali"; DCredential "root" "r10:x";
          DInstance 2 "goad-2-kali"; DCredential "pentester" "p2"; DCredential "kali" "k2"]
    /\ found r = 3%nat
    /\ map fst (instances_of (document r)) = [1; 2]%nat
    /\ Sorted str_le (map snd (instances_of (document r))).
Proof.
  eexists. split; [vm_compute; reflexivity|]. split; [reflexivity|].
  destruct (document_sections_are_sorted_and_numbered sample_files None _ eq_refl)
    as [Hfound [_ [Hnum [Hsorted _]]]].
  split; [exact Hfound|]. split; [exact Hnum | exact Hsorted].
Defined.

Lemma credential_in_body idx items user password :
  In (DCredential user password) (document_body idx items) ->
  In user shown_users
  /\ exists item, In item items /\ dict_get (snd item) user = Some password.
Proof.
  revert idx. induction items as [|item items IH]; intros idx Hin; [contradiction|].
  cbn [document_body] in Hin. apply in_app_or in Hin. destruct Hin as [Hin|Hin].
  - unfold instance_lines in Hin. destruct Hin as [Hin|Hin]; [discriminate Hin|].
    apply in_flat_map in Hin. destruct Hin as [u [Hu Hin]].
    destruct (dict_get (snd item) u) as [p|] eqn:E; [|contradiction].
    destruct Hin as [Hin|[]]. injection Hin as <- <-.
    split; [exact Hu|]. exists item. split; [left; reflexivity | exact E].
  - destruct (IH _ Hin) as [Hu [it [Hit Hget]]].
    split; [exact Hu|]. exists it. split; [right; exact Hit | exact Hget].
Qed.

(** X23: every credential line of the document is for one of the four
    users pentester, kali, cyberrange and root, and shows the password
    that one of the readable files gives for that user; the credentials
    of any other user in a file are never written. *)
Theorem only_the_four_users_are_written files output_file r user password :
  consolidate_credentials (Some files) output_file = Returns r ->
  In (DCredential user password) (document r) ->
  In user shown_users
  /\ exists f text,
       In f files /\ file_text f = Some text
       /\ dict_get (cred_dict text) user = Some password.
Proof.
  intros Hr Hin.
  assert (Hne : files <> []) by (intros ->; discriminate Hr).
  rewrite (consolidate_returns files output_file Hne) in Hr.
  destruct output_file as [msg|]; [discriminate Hr|]. injection Hr as <-.
  cbn [document] in Hin. destruct Hin as [Hin|Hin]; [discriminate Hin|].
  destruct (credential_in_body _ _ _ _ Hin) as [Hu [item [Hitem Hget]]].
  split; [exact Hu|].
  apply (Permutation_in _ (all_credentials_perm files)) in Hitem.
  apply in_flat_map in Hitem. destruct Hitem as [f [Hf Hitem]].
  unfold read_credentials in Hitem.
  destruct (file_text f) as [text|] eqn:E; [|contradiction].
  destruct Hitem as [<-|[]]. exists f, text. auto.
Qed.

Lemma only_the_four_users_are_written_witness :
  In "root" shown_users
  /\ exists f text,
       In f sample_files /\ file_text f = Some text
       /\ dict_get (cred_dict text) "root" = Some "r10:x".
Proof.
  apply (only_the_four_users_are_written sample_files None
           (mkConsolidated 3
              [DTotal 2; DInstance 1 "goad-10-kali"; DCredential "root" "r10:x";
               DInstance 2 "goad-2-kali"; DCredential "pentester" "p2";
               DCredential "kali" "k2"]
              [("goad-10-kali", None); ("goad-2-kali", Some "p2")])).
  - vm_compute. reflexivity.
  - right. right. left. reflexivity.
Defined.



(** ** The name of an instance *)

Lemma startswith_cons c s d p :
  startswith (String c s) (String d p) = Ascii.eqb d c && startswith s p.
Proof. reflexivity. Qed.

(** An occurrence of [-password] cannot begin in [s] and end in a
    [-password] that follows [s]: the hyphen is its first character
    only. *)
Lemma password_does_not_straddle s :
  startswith (s ++ "-password") "-password" = true ->
  s = "" \/ startswith s "-password" = true.
Proof.
  intros H.
  destruct s as [|c1 s]; [left; reflexivity|]. right.
  repeat
    (match type of H with
     | startswith (String ?c ?s ++ _) (String _ _) = true =>
         change (String c s ++ "-password") with (String c (s ++ "-password")) in H;
         rewrite startswith_cons in H; apply andb_true_iff in H;
         let E := fresh "E" in
         destruct H as [E H]; apply Ascii.eqb_eq in E; subst c;
         rewrite startswith_cons, Ascii.eqb_refl; cbn [andb]
     end;
     match type of H with
     | startswith (?s ++ _) (String _ _) = true =>
         destruct s as [|? s]; [vm_compute in H; discriminate H|]
     | _ => idtac
     end).
  destruct s; reflexivity.
Qed.

Lemma remove_from_here old c rest :
  remove_from old 0 (String c rest)
  = if startswith (String c rest) old
    then remove_from old (String.length old - 1) rest
    else String c (remove_from old 0 rest).
Proof. reflexivity. Qed.

Lemma remove_password_suffix base :
  contains "-password" base = false ->
  remove_from "-password" 0 (base ++ "-password") = base.
Proof.
  induction base as [|c base IH]; intros Hno; [reflexivity|].
  change (contains "-password" (String c base))
    with (startswith (String c base) "-password" || contains "-password" base) in Hno.
  apply orb_false_iff in Hno. destruct Hno as [Hhere Hlater].
  change (String c base ++ "-password") with (String c (base ++ "-password")).
  rewrite remove_from_here.
  destruct (startswith (String c (base ++ "-password")) "-password") eqn:Hs.
  - exfalso.
    destruct (password_does_not_straddle (String c base) Hs) as [E|E]; [discriminate E|].
    rewrite E in Hhere. discriminate Hhere.
  - rewrite (IH Hlater). reflexivity.
Qed.

(** X27: the instance that a password file stands for is its name
    without the ending [-password.txt], whenever what is before that
    ending does not itself contain [-password]. *)
Theorem instance_is_the_name_before_the_ending base :
  contains "-password" base = false ->
  instance_name (base ++ "-password.txt") = base.
Proof.
  intros Hno. unfold instance_name.
  replace (String.length (base ++ "-password.txt") - 4)%nat
    with (String.length (base ++ "-password")).
  - change (base ++ "-password.txt") with (base ++ ("-password" ++ ".txt")).
    rewrite <- string_app_assoc, prefix_chars_app.
    exact (remove_password_suffix base Hno).
  - rewrite !string_length_app. simpl. lia.
Qed.

Lemma instance_is_the_name_before_the_ending_witness :
  instance_name ("goad-1-kali" ++ "-password.txt") = "goad-1-kali".
Proof.
  apply (instance_is_the_name_before_the_ending "goad-1-kali"). reflexivity.
Defined.
